(** * Bulk ingestion of Congress.gov records: a shallow embedding

    The development embeds [src/python/database.py] (the upsert store and
    the sync log) and [src/python/bulk_ingest.py] (pagination, enrichment
    and the per-entity ingestion loops) and proves properties of them.

    Conventions.
    - A Python value that came out of a JSON body is a [json] term; a JSON
      object is an association list in insertion order, read with the first
      binding of a key (a Python dict never holds a key twice).
    - JSON numbers are integers ([Z]); the code never does arithmetic on
      payload numbers.
    - A Python exception is an [exn]; code that may raise returns a
      [result]; code that also touches the ingestor, the transport client
      or the database threads a [world].
    - Calls to [logger] and [print] have no effect on any value the code
      returns or stores and are left out. *)

From stdpp Require Import gmap strings list fin_maps pretty.

Set Warnings "-register-all".
Open Scope Z_scope.
Open Scope string_scope.
Open Scope list_scope.

(** ** Python values and the operations the code applies to them *)

Module Py.

Inductive json : Type :=
| JNull
| JBool (b : bool)
| JNum (n : Z)
| JStr (s : string)
| JList (l : list json)
| JObj (kvs : list (string * json)).

Inductive exn : Type :=
| AttributeError (msg : string)
| TypeError (msg : string)
| KeyError (msg : string)
| IndexError (msg : string)
| TransportFailure (msg : string)
| DatabaseFailure (msg : string).

(** [str(e)] *)
Definition exn_str (e : exn) : string :=
  match e with
  | AttributeError m | TypeError m | KeyError m | IndexError m
  | TransportFailure m | DatabaseFailure m => m
  end.

Inductive result (A : Type) : Type :=
| Ok (a : A)
| Raise (e : exn).
Arguments Ok {A} a.
Arguments Raise {A} e.

Definition bind {A B} (m : result A) (f : A -> result B) : result B :=
  match m with
  | Ok a => f a
  | Raise e => Raise e
  end.

(** [type(v).__name__] *)
Definition type_name (v : json) : string :=
  match v with
  | JNull => "NoneType"
  | JBool _ => "bool"
  | JNum _ => "int"
  | JStr _ => "str"
  | JList _ => "list"
  | JObj _ => "dict"
  end.

(** [bool(v)] *)
Definition truthy (v : json) : bool :=
  match v with
  | JNull => false
  | JBool b => b
  | JNum n => negb (Z.eqb n 0)
  | JStr s => negb (String.eqb s "")
  | JList l => match l with [] => false | _ => true end
  | JObj kvs => match kvs with [] => false | _ => true end
  end.

(** Structural equality of payload values, as compared by the store. *)
Fixpoint json_eqb (a b : json) : bool :=
  match a, b with
  | JNull, JNull => true
  | JBool x, JBool y => Bool.eqb x y
  | JNum x, JNum y => Z.eqb x y
  | JStr x, JStr y => String.eqb x y
  | JList xs, JList ys =>
      (fix go (xs ys : list json) : bool :=
         match xs, ys with
         | [], [] => true
         | x :: xs', y :: ys' => json_eqb x y && go xs' ys'
         | _, _ => false
         end) xs ys
  | JObj xs, JObj ys =>
      (fix go (xs ys : list (string * json)) : bool :=
         match xs, ys with
         | [], [] => true
         | (k, x) :: xs', (k', y) :: ys' =>
             String.eqb k k' && json_eqb x y && go xs' ys'
         | _, _ => false
         end) xs ys
  | _, _ => false
  end.

(** The first binding of [k] in a dict. *)
Fixpoint lookup_key (k : string) (kvs : list (string * json)) : option json :=
  match kvs with
  | [] => None
  | (k', v) :: rest => if String.eqb k k' then Some v else lookup_key k rest
  end.

(** [v.get(k, dflt)]: only a dict has [get]. *)
Definition get (v : json) (k : string) (dflt : json) : result json :=
  match v with
  | JObj kvs => Ok (default dflt (lookup_key k kvs))
  | _ => Raise (AttributeError
                  ("'" +:+ type_name v +:+ "' object has no attribute 'get'"))
  end.

(** [sub in s] on strings. *)
Definition str_contains (sub s : string) : bool :=
  match String.index 0 sub s with
  | Some _ => true
  | None => false
  end.

(** [k in v] for a string [k]: key test on a dict, membership on a list,
    substring test on a string, [TypeError] elsewhere. *)
Definition contains (k : string) (v : json) : result bool :=
  match v with
  | JObj kvs => Ok (bool_decide (is_Some (lookup_key k kvs)))
  | JList l => Ok (existsb (json_eqb (JStr k)) l)
  | JStr s => Ok (str_contains k s)
  | _ => Raise (TypeError
                  ("argument of type '" +:+ type_name v +:+ "' is not iterable"))
  end.

(** [repr(s)] of a string, as CPython prints it. A character of a
    [string] stands for the code point of the same number (below 256).
    The quote is the single one, unless the string holds a single quote
    and no double quote; the quote in use and the backslash are escaped
    with a backslash; tab, newline and carriage return print as [\t],
    [\n] and [\r]; every other code point that is not printable (the
    control characters below 32, 127 to 160, and 173) prints as [\x] and
    two lower-case hexadecimal digits. *)
Definition double_quote : Ascii.ascii := Ascii.ascii_of_nat 34.
Definition single_quote : Ascii.ascii := Ascii.ascii_of_nat 39.
Definition backslash : Ascii.ascii := Ascii.ascii_of_nat 92.

Definition hex_digit (n : nat) : string :=
  String.substring n 1 "0123456789abcdef".

Definition printable (n : nat) : bool :=
  Nat.leb 32 n && negb (Nat.leb 127 n && Nat.leb n 160) && negb (Nat.eqb n 173).

Definition escape_char (quote c : Ascii.ascii) : string :=
  let n := Ascii.nat_of_ascii c in
  if Ascii.eqb c quote || Ascii.eqb c backslash
  then String backslash (String c "")
  else if Nat.eqb n 9 then String backslash "t"
  else if Nat.eqb n 10 then String backslash "n"
  else if Nat.eqb n 13 then String backslash "r"
  else if printable n then String c ""
  else String backslash
         ("x" +:+ hex_digit (Nat.div n 16) +:+ hex_digit (Nat.modulo n 16)).

Fixpoint escape (quote : Ascii.ascii) (s : string) : string :=
  match s with
  | "" => ""
  | String c s' => escape_char quote c +:+ escape quote s'
  end.

Fixpoint has_char (c : Ascii.ascii) (s : string) : bool :=
  match s with
  | "" => false
  | String c' s' => Ascii.eqb c c' || has_char c s'
  end.

Definition str_repr (s : string) : string :=
  let quote :=
    if has_char single_quote s && negb (has_char double_quote s)
    then double_quote else single_quote in
  String quote (escape quote s +:+ String quote "").

(** [v[k]] for a string [k]. *)
Definition getitem (v : json) (k : string) : result json :=
  match v with
  | JObj kvs =>
      match lookup_key k kvs with
      | Some x => Ok x
      | None => Raise (KeyError (str_repr k))
      end
  | JList _ => Raise (TypeError "list indices must be integers or slices, not str")
  | JStr _ => Raise (TypeError "string indices must be integers, not 'str'")
  | _ => Raise (TypeError ("'" +:+ type_name v +:+ "' object is not subscriptable"))
  end.

(** [v[0]]. A dict read from JSON has string keys only, so [0] is never
    one of them. *)
Definition getitem0 (v : json) : result json :=
  match v with
  | JList (x :: _) => Ok x
  | JList [] => Raise (IndexError "list index out of range")
  | JStr (String c _) => Ok (JStr (String c ""))
  | JStr "" => Raise (IndexError "string index out of range")
  | JObj _ => Raise (KeyError "0")
  | _ => Raise (TypeError ("'" +:+ type_name v +:+ "' object is not subscriptable"))
  end.

(** [s.replace(old, new)] for a non-empty [old]: occurrences are replaced
    left to right without overlap; [skip] counts the characters of an
    occurrence that remain to be dropped. *)
Fixpoint replace_from (old new : string) (skip : nat) (s : string) : string :=
  match s with
  | "" => ""
  | String c s' =>
      match skip with
      | S k => replace_from old new k s'
      | O =>
          if String.prefix old s
          then new +:+ replace_from old new (Nat.pred (String.length old)) s'
          else String c (replace_from old new O s')
      end
  end.

Definition str_replace (old new s : string) : string :=
  replace_from old new O s.

(** [v.replace(old, new)]: only a string has [replace]. *)
Definition replace (v : json) (old new : string) : result string :=
  match v with
  | JStr s => Ok (str_replace old new s)
  | _ => Raise (AttributeError
                  ("'" +:+ type_name v +:+ "' object has no attribute 'replace'"))
  end.

(** [repr(v)], which is also [str(v)] for a value that is not a string:
    [None], [True], [False], an integer in decimal, a list as
    [[a, b]] and a dict as [{'k': a, 'l': b}], strings inside printed by
    [repr]. *)
Fixpoint repr (v : json) : string :=
  match v with
  | JNull => "None"
  | JBool true => "True"
  | JBool false => "False"
  | JNum n => pretty n
  | JStr s => str_repr s
  | JList l =>
      "[" +:+ (fix go (l : list json) : string :=
                match l with
                | [] => ""
                | [x] => repr x
                | x :: rest => repr x +:+ ", " +:+ go rest
                end) l +:+ "]"
  | JObj kvs =>
      "{" +:+ (fix go (kvs : list (string * json)) : string :=
                match kvs with
                | [] => ""
                | [(k, x)] => str_repr k +:+ ": " +:+ repr x
                | (k, x) :: rest =>
                    str_repr k +:+ ": " +:+ repr x +:+ ", " +:+ go rest
                end) kvs +:+ "}"
  end.

(** [str(v)], as an f-string formats [v]. *)
Definition str (v : json) : string :=
  match v with
  | JStr s => s
  | _ => repr v
  end.

End Py.

Import Py.

#[global] Instance result_ret : MRet result := fun A a => Ok a.
#[global] Instance result_bind : MBind result := fun A B f m => Py.bind m f.

(** ** The relational store behind [DatabaseManager] *)

Module Db.

(** A value bound to a statement parameter or held in a column: a Python
    scalar as bound ([Bound JNull] is SQL NULL), the text [json.dumps(v)]
    (kept as the value it prints, since [json.dumps] is a library
    function), or a timestamp of the logical clock. *)
Inductive sqlval : Type :=
| Bound (v : json)
| Dumped (v : json)
| Timestamp (t : nat).

Definition sqlval_eqb (a b : sqlval) : bool :=
  match a, b with
  | Bound x, Bound y => json_eqb x y
  | Dumped x, Dumped y => json_eqb x y
  | Timestamp x, Timestamp y => Nat.eqb x y
  | _, _ => false
  end.

Definition is_null (v : sqlval) : bool :=
  match v with Bound JNull => true | _ => false end.

Record row : Type := { row_id : positive; row_cols : gmap string sqlval }.

(** A table with its [id] sequence. *)
Record table : Type := { rows : list row; next_id : positive }.

Definition empty_table : table := {| rows := []; next_id := 1%positive |}.

Record database : Type := { tables : gmap string table; clock : nat }.

Definition empty_database : database := {| tables := ∅; clock := O |}.

Definition table_of (db : database) (name : string) : table :=
  default empty_table (tables db !! name).

Definition set_table (db : database) (name : string) (t : table) : database :=
  {| tables := <[name := t]> (tables db); clock := clock db |}.

(** The right-hand side of one [SET] assignment of [DO UPDATE]. *)
Inductive source : Type :=
| Excluded (column : string)
| CurrentTimestamp.

#[global] Instance source_eq_dec : EqDecision source.
Proof. solve_decision. Defined.

(** The SQL statements of [database.py], as data:
    - [InsertOnConflict t cols target sets] is
      [INSERT INTO t (cols) VALUES (:cols) ON CONFLICT (target)
       DO UPDATE SET sets RETURNING id];
    - [Insert t cols] is [INSERT INTO t (cols) VALUES (:cols) RETURNING id];
    - [Update t cols p] is [UPDATE t SET cols = :cols WHERE id = :p]. *)
Inductive statement : Type :=
| InsertOnConflict (t : string) (columns target : list string)
    (sets : list (string * source))
| Insert (t : string) (columns : list string)
| Update (t : string) (columns : list string) (id_param : string).

Definition excluded (columns : list string) : list (string * source) :=
  map (fun c => (c, Excluded c)) columns.

(** The values of the listed columns, taken from the parameters; a column
    without a parameter is refused by the driver. *)
Fixpoint bind_columns (columns : list string) (p : gmap string sqlval)
  : result (gmap string sqlval) :=
  match columns with
  | [] => Ok ∅
  | c :: rest =>
      match p !! c with
      | None => Raise (DatabaseFailure
                         ("A value is required for bind parameter '" +:+ c +:+ "'"))
      | Some v => m ← bind_columns rest p; Ok (<[c := v]> m)
      end
  end.

(** Modelled from the spec: the table declarations
    (migrations/001_initial_schema.sql) are not among the sources. Each
    table is taken to have a serial [id], the columns its statements name,
    and [created_at] and [updated_at] columns that default to the current
    timestamp ("creation metadata" and "a last-modified timestamp"). *)
Definition with_defaults (now : nat) (cols : gmap string sqlval)
  : gmap string sqlval :=
  <["created_at" := Timestamp now]> (<["updated_at" := Timestamp now]> cols).

(** A stored row conflicts with a proposed one when they agree on every
    column of the conflict target; NULL agrees with nothing. Values are
    compared as they were bound: the coercions of the column types belong
    to the table declarations. *)
Definition key_matches (target : list string) (proposed : gmap string sqlval)
    (r : row) : bool :=
  forallb (fun c =>
             match proposed !! c, row_cols r !! c with
             | Some a, Some b => negb (is_null a) && sqlval_eqb a b
             | _, _ => false
             end) target.

Definition assign (proposed : gmap string sqlval) (now : nat)
    (cols : gmap string sqlval) (a : string * source) : gmap string sqlval :=
  match a.2 with
  | Excluded c => <[a.1 := default (Bound JNull) (proposed !! c)]> cols
  | CurrentTimestamp => <[a.1 := Timestamp now]> cols
  end.

(** [DO UPDATE SET sets] on one row: only the assigned columns change. *)
Definition do_update (sets : list (string * source))
    (proposed : gmap string sqlval) (now : nat) (r : row) : row :=
  {| row_id := row_id r;
     row_cols := foldl (assign proposed now) (row_cols r) sets |}.

(** The conflict branch: the first conflicting row is updated in place and
    its [id] returned; [None] when no row conflicts. *)
Fixpoint update_conflicting (target : list string)
    (sets : list (string * source)) (proposed : gmap string sqlval)
    (now : nat) (rs : list row) : option (positive * list row) :=
  match rs with
  | [] => None
  | r :: rest =>
      if key_matches target proposed r
      then Some (row_id r, do_update sets proposed now r :: rest)
      else match update_conflicting target sets proposed now rest with
           | Some (i, rest') => Some (i, r :: rest')
           | None => None
           end
  end.

(** The insert branch: a new row at the end, with the next id of the
    sequence. *)
Definition insert_row (now : nat) (proposed : gmap string sqlval) (t : table)
  : positive * table :=
  (next_id t,
   {| rows := rows t ++ [ {| row_id := next_id t;
                             row_cols := with_defaults now proposed |} ];
      next_id := Pos.succ (next_id t) |}).

Definition id_of (v : sqlval) : option positive :=
  match v with
  | Bound (JNum (Z.pos i)) => Some i
  | _ => None
  end.

Definition set_columns (new : gmap string sqlval) (columns : list string)
    (r : row) : row :=
  {| row_id := row_id r;
     row_cols := foldl (fun cols c =>
                          <[c := default (Bound JNull) (new !! c)]> cols)
                       (row_cols r) columns |}.

(** One statement against the tables; the result is what [RETURNING id]
    yields (nothing for [UPDATE]). *)
Definition run_statement (st : statement) (p : gmap string sqlval)
    (db : database) : result (list positive * database) :=
  match st with
  | InsertOnConflict t columns target sets =>
      proposed ← bind_columns columns p;
      let tb := table_of db t in
      match update_conflicting target sets proposed (clock db) (rows tb) with
      | Some (i, rs) =>
          Ok ([i], set_table db t {| rows := rs; next_id := next_id tb |})
      | None =>
          let '(i, tb') := insert_row (clock db) proposed tb in
          Ok ([i], set_table db t tb')
      end
  | Insert t columns =>
      proposed ← bind_columns columns p;
      let '(i, tb') := insert_row (clock db) proposed (table_of db t) in
      Ok ([i], set_table db t tb')
  | Update t columns id_param =>
      new ← bind_columns (id_param :: columns) p;
      let tb := table_of db t in
      let hit (r : row) :=
        bool_decide (new !! id_param ≫= id_of = Some (row_id r)) in
      Ok ([], set_table db t
                {| rows := map (fun r => if hit r then set_columns new columns r
                                         else r) (rows tb);
                   next_id := next_id tb |})
  end.

Definition tick (db : database) : database :=
  {| tables := tables db; clock := S (clock db) |}.

End Db.

Import Db.

(** ** The two outside collaborators

    The transport client ([cdg_client.CDGClient]) and the database engine
    are not part of the ingestion code. [client_get] is
    [CDGClient.get]: from the client's state and the value passed as path
    (whatever the caller found in a payload) it gives the next state and
    either raises or returns a body and a status code.
    [db_fault] says when the engine refuses a statement (a violated
    constraint, a value of the wrong type, a lost connection) and with
    which message. *)

Inductive response : Type :=
| Fails (e : exn)
| Replies (body : json) (status_code : Z).

Class Env : Type := {
  cstate : Type;
  client_get : cstate -> json -> cstate * response;
  db_fault : database -> statement -> gmap string sqlval -> option exn
}.

(** ** [database.py]: [DatabaseManager] *)

(** *** The parameter dictionaries *)

(** [d.get(k)] bound as it is. *)
Definition field (d : json) (k : string) : result sqlval :=
  v ← get d k JNull; Ok (Bound v).

(** [d.get(k, dflt)] bound as it is. *)
Definition field_or (d : json) (k : string) (dflt : json) : result sqlval :=
  v ← get d k dflt; Ok (Bound v).

(** [json.dumps(d.get(k)) if d.get(k) else None] *)
Definition dumps_if (d : json) (k : string) : result sqlval :=
  v ← get d k JNull; Ok (if truthy v then Dumped v else Bound JNull).

(** [json.dumps(d.get(k, dflt))] *)
Definition dumps_or (d : json) (k : string) (dflt : json) : result sqlval :=
  v ← get d k dflt; Ok (Dumped v).

(** [d.get('laws', [{}])[0].get(k) if d.get('laws') else None] *)
Definition first_law (d : json) (k : string) : result sqlval :=
  laws ← get d "laws" JNull;
  if truthy laws
  then l ← get d "laws" (JList [JObj []]);
       law ← getitem0 l;
       v ← get law k JNull;
       Ok (Bound v)
  else Ok (Bound JNull).

(** [bool(d.get('laws'))] *)
Definition has_laws (d : json) : result sqlval :=
  laws ← get d "laws" JNull; Ok (Bound (JBool (truthy laws))).

(** [d.get(outer, {}).get(k)] *)
Definition nested_field (d : json) (outer k : string) : result sqlval :=
  o ← get d outer (JObj []); v ← get o k JNull; Ok (Bound v).

(** A dict display [{k1: e1, k2: e2, ...}]: the entries are evaluated in
    order and the first exception ends the evaluation. *)
Definition make_params (entries : list (string * result sqlval))
  : result (gmap string sqlval) :=
  foldr (fun e acc => v ← e.2; m ← acc; Ok (<[e.1 := v]> m)) (Ok ∅) entries.

Definition bill_entries (bill_data : json) : list (string * result sqlval) :=
  [ ("congress", field bill_data "congress");
    ("bill_type", field bill_data "type");
    ("bill_number", field bill_data "number");
    ("title", field bill_data "title");
    ("origin_chamber", field bill_data "originChamber");
    ("origin_chamber_code", field bill_data "originChamberCode");
    ("update_date", field bill_data "updateDate");
    ("update_date_including_text", field bill_data "updateDateIncludingText");
    ("introduced_date", field bill_data "introducedDate");
    ("constitution_authority_statement_text",
       field bill_data "constitutionAuthorityStatementText");
    ("policy_area", dumps_if bill_data "policyArea");
    ("subjects", dumps_if bill_data "subjects");
    ("latest_action", dumps_if bill_data "latestAction");
    ("sponsors", dumps_or bill_data "sponsors" (JList []));
    ("cosponsors_count", field_or bill_data "cosponsorsCount" (JNum 0));
    ("committees", dumps_or bill_data "committees" (JList []));
    ("related_bills", dumps_or bill_data "relatedBills" (JList []));
    ("actions", dumps_or bill_data "actions" (JList []));
    ("summaries", dumps_or bill_data "summaries" (JList []));
    ("amendments", dumps_or bill_data "amendments" (JList []));
    ("texts", dumps_or bill_data "texts" (JList []));
    ("titles", dumps_or bill_data "titles" (JList []));
    ("law_number", first_law bill_data "number");
    ("law_type", first_law bill_data "type");
    ("is_law", has_laws bill_data);
    ("raw_data", Ok (Dumped bill_data)) ].

Definition member_entries (member_data : json)
  : list (string * result sqlval) :=
  [ ("bioguide_id", field member_data "bioguideId");
    ("first_name", field member_data "firstName");
    ("last_name", field member_data "lastName");
    ("middle_name", field member_data "middleName");
    ("suffix", field member_data "suffix");
    ("nickname", field member_data "nickname");
    ("party", field member_data "party");
    ("state", field member_data "state");
    ("district", field member_data "district");
    ("birth_year", field member_data "birthYear");
    ("death_year", field member_data "deathYear");
    ("terms", dumps_or member_data "terms" (JList [])) ].

Definition amendment_entries (amendment_data : json)
  : list (string * result sqlval) :=
  [ ("congress", field amendment_data "congress");
    ("amendment_type", field amendment_data "type");
    ("amendment_number", field amendment_data "number");
    ("bill_congress", nested_field amendment_data "amendedBill" "congress");
    ("bill_type", nested_field amendment_data "amendedBill" "type");
    ("bill_number", nested_field amendment_data "amendedBill" "number");
    ("purpose", field amendment_data "purpose");
    ("description", field amendment_data "description");
    ("chamber", field amendment_data "chamber");
    ("amendment_to_amendment", dumps_if amendment_data "amendedAmendment");
    ("sponsors", dumps_or amendment_data "sponsors" (JList []));
    ("cosponsors", dumps_or amendment_data "cosponsors" (JList []));
    ("proposed_date", field amendment_data "proposedDate");
    ("submitted_date", field amendment_data "submittedDate");
    ("latest_action", dumps_if amendment_data "latestAction");
    ("actions", dumps_or amendment_data "actions" (JList []));
    ("raw_data", Ok (Dumped amendment_data)) ].

Definition committee_entries (committee_data : json)
  : list (string * result sqlval) :=
  [ ("system_code", field committee_data "systemCode");
    ("name", field committee_data "name");
    ("chamber", field committee_data "chamber");
    ("type", field committee_data "type");
    ("subcommittees", dumps_or committee_data "subcommittees" (JList []));
    ("parent_committee_system_code",
       field committee_data "parentCommitteeCode");
    ("is_subcommittee", field_or committee_data "isCurrent" (JBool false)) ].

(** *** The statements *)

Definition bill_key : list string := ["congress"; "bill_type"; "bill_number"].

Definition bill_sql : statement :=
  InsertOnConflict "bills"
    [ "congress"; "bill_type"; "bill_number"; "title"; "origin_chamber";
      "origin_chamber_code"; "update_date"; "update_date_including_text";
      "introduced_date"; "constitution_authority_statement_text";
      "policy_area"; "subjects"; "latest_action"; "sponsors";
      "cosponsors_count"; "committees"; "related_bills"; "actions";
      "summaries"; "amendments"; "texts"; "titles"; "law_number";
      "law_type"; "is_law"; "raw_data" ]
    bill_key
    (excluded [ "title"; "update_date"; "update_date_including_text";
                "latest_action"; "cosponsors_count"; "actions"; "summaries";
                "amendments"; "texts"; "titles"; "is_law"; "law_number";
                "law_type"; "raw_data" ]
     ++ [("updated_at", CurrentTimestamp)]).

Definition member_key : list string := ["bioguide_id"].

Definition member_sql : statement :=
  InsertOnConflict "members"
    [ "bioguide_id"; "first_name"; "last_name"; "middle_name"; "suffix";
      "nickname"; "party"; "state"; "district"; "birth_year"; "death_year";
      "terms" ]
    member_key
    (excluded [ "first_name"; "last_name"; "party"; "state"; "district";
                "terms" ]
     ++ [("updated_at", CurrentTimestamp)]).

Definition amendment_key : list string :=
  ["congress"; "amendment_type"; "amendment_number"].

Definition amendment_sql : statement :=
  InsertOnConflict "amendments"
    [ "congress"; "amendment_type"; "amendment_number"; "bill_congress";
      "bill_type"; "bill_number"; "purpose"; "description"; "chamber";
      "amendment_to_amendment"; "sponsors"; "cosponsors"; "proposed_date";
      "submitted_date"; "latest_action"; "actions"; "raw_data" ]
    amendment_key
    (excluded [ "purpose"; "description"; "latest_action"; "actions";
                "raw_data" ]
     ++ [("updated_at", CurrentTimestamp)]).

Definition committee_key : list string := ["system_code"].

Definition committee_sql : statement :=
  InsertOnConflict "committees"
    [ "system_code"; "name"; "chamber"; "type"; "subcommittees";
      "parent_committee_system_code"; "is_subcommittee" ]
    committee_key
    (excluded [ "name"; "chamber"; "type"; "subcommittees" ]
     ++ [("updated_at", CurrentTimestamp)]).

Definition log_insert_sql : statement :=
  Insert "api_sync_log"
    [ "endpoint"; "sync_type"; "started_at"; "status"; "records_processed";
      "records_created"; "records_updated"; "records_failed";
      "error_message"; "parameters" ].

Definition log_update_sql : statement :=
  Update "api_sync_log"
    [ "status"; "completed_at"; "records_processed"; "records_created";
      "records_updated"; "records_failed"; "error_message" ]
    "log_id".

Definition bound_nat (n : nat) : sqlval := Bound (JNum (Z.of_nat n)).

Definition bound_opt_str (s : option string) : sqlval :=
  Bound (from_option JStr JNull s).

Definition bound_id (i : option positive) : sqlval :=
  Bound (from_option (fun p => JNum (Z.pos p)) JNull i).

Section DatabaseManager.
Context {E : Env}.

(** [execute_sql] inside [get_session]: the statement is committed, or the
    session is rolled back and the exception raised again. Every call
    advances the logical clock. *)
Definition execute_sql (sql : statement) (params : gmap string sqlval)
    (db : database) : result (list positive) * database :=
  match db_fault db sql params with
  | Some e => (Raise e, tick db)
  | None =>
      match run_statement sql params db with
      | Ok (ids, db') => (Ok ids, tick db')
      | Raise e => (Raise e, tick db)
      end
  end.

(** The shared body of the four [insert_*] methods: the parameters are
    prepared outside the [try]; whatever [execute_sql] raises is caught and
    turned into [None]. The returned id is [result[0]['id']]. *)
Definition insert_with (sql : statement)
    (entries : list (string * result sqlval)) (db : database)
  : result (option positive) * database :=
  match make_params entries with
  | Raise e => (Raise e, db)
  | Ok params =>
      match execute_sql sql params db with
      | (Ok res, db') => (Ok (head res), db')
      | (Raise _, db') => (Ok None, db')
      end
  end.

Definition insert_bill (bill_data : json) :=
  insert_with bill_sql (bill_entries bill_data).

Definition insert_member (member_data : json) :=
  insert_with member_sql (member_entries member_data).

Definition insert_amendment (amendment_data : json) :=
  insert_with amendment_sql (amendment_entries amendment_data).

Definition insert_committee (committee_data : json) :=
  insert_with committee_sql (committee_entries committee_data).

(** [log_sync(endpoint, sync_type, parameters=...)]; the other arguments
    keep their defaults at every call site. Nothing is caught here. *)
Definition log_sync (endpoint sync_type : string) (parameters : option json)
    (db : database) : result (option positive) * database :=
  let params : gmap string sqlval :=
    list_to_map
      [ ("endpoint", Bound (JStr endpoint));
        ("sync_type", Bound (JStr sync_type));
        ("started_at", Timestamp (clock db));
        ("status", Bound (JStr "running"));
        ("records_processed", bound_nat 0);
        ("records_created", bound_nat 0);
        ("records_updated", bound_nat 0);
        ("records_failed", bound_nat 0);
        ("error_message", Bound JNull);
        ("parameters",
           match parameters with
           | Some p => if truthy p then Dumped p else Bound JNull
           | None => Bound JNull
           end) ] in
  match execute_sql log_insert_sql params db with
  | (Ok res, db') => (Ok (head res), db')
  | (Raise e, db') => (Raise e, db')
  end.

Definition update_sync_log (log_id : option positive) (status : string)
    (records_processed records_created records_updated records_failed : nat)
    (error_message : option string) (db : database)
  : result unit * database :=
  let params : gmap string sqlval :=
    list_to_map
      [ ("log_id", bound_id log_id);
        ("status", Bound (JStr status));
        ("completed_at", Timestamp (clock db));
        ("records_processed", bound_nat records_processed);
        ("records_created", bound_nat records_created);
        ("records_updated", bound_nat records_updated);
        ("records_failed", bound_nat records_failed);
        ("error_message", bound_opt_str error_message) ] in
  match execute_sql log_update_sql params db with
  | (Ok _, db') => (Ok tt, db')
  | (Raise e, db') => (Raise e, db')
  end.

End DatabaseManager.

(** ** [bulk_ingest.py]: [BulkIngestor] *)

Record stats : Type := {
  processed : nat;
  created : nat;
  updated : nat;
  failed : nat;
  errors : list string
}.

Definition zero_stats : stats :=
  {| processed := 0; created := 0; updated := 0; failed := 0; errors := [] |}.

(** What an ingestion reads and writes: the transport client, the paths
    asked of it (oldest first), the number of rate-limit sleeps, the
    ingestor's [self.stats], and the database behind [self.db]. *)
Record world {E : Env} : Type := {
  client : cstate;
  requested : list json;
  sleeps : nat;
  self_stats : stats;
  db : database
}.

Definition item_keys : list string :=
  [ "bills"; "members"; "amendments"; "committees"; "nominations";
    "treaties"; "reports"; "hearings"; "items" ].

Fixpoint extract_from (keys : list string) (data : json)
  : result (list json) :=
  match keys with
  | [] => Ok []
  | key :: rest =>
      present ← contains key data;
      if (present : bool)
      then items ← getitem data key;
           Ok (match items with JList l => l | _ => [items] end)
      else extract_from rest data
  end.

Definition _extract_items (data : json) : result (list json) :=
  extract_from item_keys data.

(** [data.get('pagination', {}).get('next')] *)
Definition next_cursor (data : json) : result json :=
  pagination ← get data "pagination" (JObj []); get pagination "next" JNull.

(** [f"{endpoint}?limit={limit}&offset=0"] *)
Definition first_url (endpoint : string) (limit : Z) : string :=
  endpoint +:+ "?limit=" +:+ pretty limit +:+ "&offset=0".

Definition opt_num (n : option Z) : json := from_option JNum JNull n.
Definition opt_str (s : option string) : json := from_option JStr JNull s.

(** The endpoint [ingest_bills] builds from its filters. *)
Definition bills_endpoint (congress : option Z)
    (bill_type from_date to_date : option string) : string :=
  let endpoint :=
    if truthy (opt_num congress) && truthy (opt_str bill_type)
    then "bill/" +:+ str (opt_num congress) +:+ "/" +:+ str (opt_str bill_type)
    else if truthy (opt_num congress)
         then "bill/" +:+ str (opt_num congress)
         else "bill" in
  if truthy (opt_str from_date) || truthy (opt_str to_date)
  then
    let params : list string :=
      List.app
        (if truthy (opt_str from_date)
         then ["fromDateTime=" +:+ str (opt_str from_date)] else [])
        (if truthy (opt_str to_date)
         then ["toDateTime=" +:+ str (opt_str to_date)] else []) in
    endpoint +:+ "?" +:+ String.concat "&" params
  else endpoint.

Definition count_created (s : stats) : stats :=
  {| processed := S (processed s); created := S (created s);
     updated := updated s; failed := failed s; errors := errors s |}.

Definition count_updated (s : stats) : stats :=
  {| processed := S (processed s); created := created s;
     updated := S (updated s); failed := failed s; errors := errors s |}.

Definition count_failed (e : exn) (s : stats) : stats :=
  {| processed := processed s; created := created s; updated := updated s;
     failed := S (failed s); errors := errors s ++ [exn_str e] |}.

(** The bookkeeping of one pass of an item loop: [if row_id:] counts the
    item as created, [else:] as updated, and the [except] clause as
    failed. An id is a positive number, so it is always true. *)
Definition count_item (r : result (option positive)) (s : stats) : stats :=
  match r with
  | Ok (Some _) => count_created s
  | Ok None => count_updated s
  | Raise e => count_failed e s
  end.

Section BulkIngestor.
Context {E : Env}.

(** The monad of the ingestor's methods: state is kept when an exception
    is raised. *)
Definition M (A : Type) : Type := world -> result A * world.

#[global] Instance M_ret : MRet M := fun A a w => (Ok a, w).
#[global] Instance M_bind : MBind M := fun A B f m w =>
  match m w with
  | (Ok a, w') => f a w'
  | (Raise e, w') => (Raise e, w')
  end.

Definition lift {A} (r : result A) : M A := fun w => (r, w).

Definition set_stats (s : stats) (w : world) : world :=
  {| client := client w; requested := requested w; sleeps := sleeps w;
     self_stats := s; db := db w |}.

(** A call of a [self.db] method. *)
Definition on_db {A} (f : database -> result A * database) : M A :=
  fun w =>
    let '(r, db') := f (db w) in
    (r, {| client := client w; requested := requested w; sleeps := sleeps w;
           self_stats := self_stats w; db := db' |}).

(** [time.sleep(self.rate_limit_delay)], with a delay that is not
    negative. *)
Definition _rate_limit : M unit :=
  fun w =>
    (Ok tt, {| client := client w; requested := requested w;
               sleeps := S (sleeps w); self_stats := self_stats w;
               db := db w |}).

(** [self.client.get(path)] *)
Definition client_call (path : json) : M (json * Z) :=
  fun w =>
    let '(c, r) := client_get (client w) path in
    let w' := {| client := c; requested := requested w ++ [path];
                 sleeps := sleeps w; self_stats := self_stats w;
                 db := db w |} in
    match r with
    | Fails e => (Raise e, w')
    | Replies body status_code => (Ok (body, status_code), w')
    end.

(** One pass of the [while] body of [_fetch_paginated]. The outcome is the
    next cursor, or [None] when the loop is left by [break]; the items seen
    so far are returned either way, since an exception raised after
    [all_items.extend(items)] leaves them extended. *)
Definition fetch_page (all_items : list json) (next_url : json) (w : world)
  : option json * list json * world :=
  match (_rate_limit;; client_call next_url) w with
  | (Raise _, w') => (None, all_items, w')
  | (Ok (data, status_code), w') =>
      if negb (Z.eqb status_code 200) then (None, all_items, w')
      else
        match _extract_items data with
        | Raise _ => (None, all_items, w')
        | Ok items =>
            match next_cursor data with
            | Raise _ => (None, all_items ++ items, w')
            | Ok next => (Some next, all_items ++ items, w')
            end
        end
  end.

(** [max_pages is None or page < max_pages] *)
Definition under_cap (max_pages : option Z) (page : nat) : bool :=
  match max_pages with
  | None => true
  | Some k => Z.ltb (Z.of_nat page) k
  end.

(** The [while] loop; [None] when [fuel] passes do not reach its end. *)
Fixpoint fetch_loop (fuel : nat) (max_pages : option Z)
    (all_items : list json) (page : nat) (next_url : json) (w : world)
  : option (list json * world) :=
  if truthy next_url && under_cap max_pages page
  then
    match fuel with
    | O => None
    | S fuel' =>
        match fetch_page all_items next_url w with
        | (None, all_items', w') => Some (all_items', w')
        | (Some next, all_items', w') =>
            fetch_loop fuel' max_pages all_items' (S page) next w'
        end
    end
  else Some (all_items, w).

Definition _fetch_paginated (fuel : nat) (endpoint : string) (limit : Z)
    (max_pages : option Z) (w : world) : option (list json * world) :=
  fetch_loop fuel max_pages [] 0 (JStr (first_url endpoint limit)) w.

(** How an ingestion obtains its items. [self._fetch_paginated] is looked
    up on the instance when it is called, so the ingestion methods are
    written for any fetcher; [paginated] is the one the class defines. *)
Definition fetcher : Type :=
  string -> option Z -> world -> option (result (list json) * world).

Definition paginated (fuel : nat) : fetcher :=
  fun endpoint max_pages w =>
    match _fetch_paginated fuel endpoint 250 max_pages w with
    | Some (items, w') => Some (Ok items, w')
    | None => None
    end.

(** ['title' not in bill_data or not bill_data.get('title')] *)
Definition lacks_title (bill_data : json) : result bool :=
  present ← contains "title" bill_data;
  if (present : bool)
  then title ← get bill_data "title" JNull; Ok (negb (truthy title))
  else Ok true.

(** [bill_data.get('url', '').replace('https://api.congress.gov/v3/', '')] *)
Definition detail_path (bill_data : json) : result string :=
  url ← get bill_data "url" (JStr "");
  replace url "https://api.congress.gov/v3/" "".

(** The part of the bill loop before the insert: the detail fetch. *)
Definition enrich_bill (bill_data : json) : M json :=
  lacking ← lift (lacks_title bill_data);
  if (lacking : bool)
  then
    detail_endpoint ← lift (detail_path bill_data);
    if truthy (JStr detail_endpoint)
    then _rate_limit;;
         reply ← client_call (JStr detail_endpoint);
         lift (get reply.1 "bill" bill_data)
    else mret bill_data
  else mret bill_data.

Definition process_bill (bill_data : json) : M (option positive) :=
  bill_data' ← enrich_bill bill_data;
  on_db (insert_bill bill_data').

Definition process_member (member_data : json) : M (option positive) :=
  bioguide_id ← lift (get member_data "bioguideId" JNull);
  member_data' ←
    (if truthy bioguide_id
     then _rate_limit;;
          reply ← client_call (JStr ("member/" +:+ str bioguide_id));
          lift (get reply.1 "member" member_data)
     else mret member_data);
  on_db (insert_member member_data').

Definition process_amendment (amendment_data : json) : M (option positive) :=
  on_db (insert_amendment amendment_data).

Definition process_committee (committee_data : json) : M (option positive) :=
  on_db (insert_committee committee_data).

(** The [for] loop over the fetched items with its inner [try]. *)
Fixpoint process_items (process_one : json -> M (option positive))
    (items : list json) (w : world) : world :=
  match items with
  | [] => w
  | item :: rest =>
      let '(r, w') := process_one item w in
      process_items process_one rest
        (set_stats (count_item r (self_stats w')) w')
  end.

(** [self.db.update_sync_log(log_id, status='completed', ...)] with the
    counters of [self.stats]. *)
Definition log_completed (log_id : option positive) : M unit :=
  fun w =>
    on_db (update_sync_log log_id "completed"
             (processed (self_stats w)) (created (self_stats w))
             (updated (self_stats w)) (failed (self_stats w)) None) w.

(** The outer [except] clause and the final [return self.stats]. *)
Definition finish (log_id : option positive) (tried : result unit * world)
  : result stats * world :=
  match tried with
  | (Ok _, w) => (Ok (self_stats w), w)
  | (Raise e, w) =>
      match on_db (update_sync_log log_id "failed" 0 0 0 0
                     (Some (exn_str e))) w with
      | (Ok _, w') => (Ok (self_stats w'), w')
      | (Raise e', w') => (Raise e', w')
      end
  end.

(** The outer [try] block of the bill, member and amendment ingestions. *)
Definition fetch_and_process (fetch : fetcher) (endpoint : string)
    (max_pages : option Z) (process_one : json -> M (option positive))
    (log_id : option positive) (w : world) : option (result unit * world) :=
  match fetch endpoint max_pages w with
  | None => None
  | Some (Raise e, w') => Some (Raise e, w')
  | Some (Ok items, w') =>
      Some (log_completed log_id (process_items process_one items w'))
  end.

(** The common frame of the three: reset [self.stats], open the sync log
    row (outside the [try]), run the [try] block, finish. *)
Definition ingest (fetch : fetcher) (log_endpoint : string)
    (parameters : json) (endpoint : string) (max_pages : option Z)
    (process_one : json -> M (option positive)) (w : world)
  : option (result stats * world) :=
  match on_db (log_sync log_endpoint "bulk" (Some parameters))
              (set_stats zero_stats w) with
  | (Raise e, w') => Some (Raise e, w')
  | (Ok log_id, w') =>
      tried ← fetch_and_process fetch endpoint max_pages process_one log_id w';
      Some (finish log_id tried)
  end.

Definition ingest_bills_with (fetch : fetcher) (congress : option Z)
    (bill_type from_date to_date : option string) (max_pages : option Z)
  : world -> option (result stats * world) :=
  ingest fetch "bills"
    (JObj [("congress", opt_num congress); ("bill_type", opt_str bill_type)])
    (bills_endpoint congress bill_type from_date to_date)
    max_pages process_bill.

Definition ingest_members_with (fetch : fetcher) (congress : option Z)
    (max_pages : option Z) : world -> option (result stats * world) :=
  ingest fetch "members" (JObj [("congress", opt_num congress)])
    (if truthy (opt_num congress)
     then "member/congress/" +:+ str (opt_num congress) else "member")
    max_pages process_member.

Definition ingest_amendments_with (fetch : fetcher) (congress : option Z)
    (max_pages : option Z) : world -> option (result stats * world) :=
  ingest fetch "amendments" (JObj [("congress", opt_num congress)])
    (if truthy (opt_num congress)
     then "amendment/" +:+ str (opt_num congress) else "amendment")
    max_pages process_amendment.

(** The chamber loop of [ingest_committees]: one fetch and one item loop
    per chamber. *)
Fixpoint process_chambers (fetch : fetcher) (chambers : list string)
    (max_pages : option Z) (w : world) : option (result unit * world) :=
  match chambers with
  | [] => Some (Ok tt, w)
  | chamber :: rest =>
      match fetch ("committee/" +:+ chamber) max_pages w with
      | None => None
      | Some (Raise e, w') => Some (Raise e, w')
      | Some (Ok items, w') =>
          process_chambers fetch rest max_pages
            (process_items process_committee items w')
      end
  end.

Definition ingest_committees_with (fetch : fetcher) (max_pages : option Z)
    (w : world) : option (result stats * world) :=
  match on_db (log_sync "committees" "bulk" None) (set_stats zero_stats w) with
  | (Raise e, w') => Some (Raise e, w')
  | (Ok log_id, w') =>
      tried ← process_chambers fetch ["house"; "senate"] max_pages w';
      Some (finish log_id
              (match tried with
               | (Ok _, w'') => log_completed log_id w''
               | (Raise e, w'') => (Raise e, w'')
               end))
  end.

Definition ingest_bills (fuel : nat) := ingest_bills_with (paginated fuel).
Definition ingest_members (fuel : nat) := ingest_members_with (paginated fuel).
Definition ingest_amendments (fuel : nat) :=
  ingest_amendments_with (paginated fuel).
Definition ingest_committees (fuel : nat) :=
  ingest_committees_with (paginated fuel).

End BulkIngestor.

(** ** Vocabulary of the properties *)

(** The columns a statement overwrites from the incoming row when the
    natural key is already stored: the mutable columns. *)
Definition overwritten (sql : statement) : list string :=
  match sql with
  | InsertOnConflict _ _ _ sets =>
      omap (fun a => match a.2 with
                     | Excluded _ => Some a.1
                     | CurrentTimestamp => None
                     end) sets
  | _ => []
  end.

(** The columns a statement lists after [INSERT INTO]. *)
Definition listed (sql : statement) : list string :=
  match sql with
  | InsertOnConflict _ columns _ _ | Insert _ columns | Update _ columns _ =>
      columns
  end.

(** Every column the conflict branch assigns, the timestamp included. *)
Definition assigned (sql : statement) : list string :=
  match sql with
  | InsertOnConflict _ _ _ sets => sets.*1
  | _ => []
  end.

(** The natural key carried by a parameter dictionary. *)
Definition key_values (target : list string) (p : gmap string sqlval)
  : list (option sqlval) :=
  map (fun c => p !! c) target.

Definition key_present (target : list string) (p : gmap string sqlval)
  : bool :=
  forallb (fun c => match p !! c with
                    | Some v => negb (is_null v)
                    | None => false
                    end) target.

(** The uniqueness constraint that [ON CONFLICT (target)] relies on: no
    proposal conflicts with two stored rows. *)
Definition unique_key (target : list string) (rs : list row) : Prop :=
  forall p, (length (List.filter (key_matches target p) rs) <= 1)%nat.

(** A server that answers [k] requests along the cursor chain starting at
    [url] with status 200: the item lists of those pages in order, the
    cursor of the last one, and the client state reached. *)
Fixpoint follow {E : Env} (k : nat) (c : cstate) (url : json)
  : option (list (list json) * json * cstate) :=
  match k with
  | O => Some ([], url, c)
  | S k' =>
      if truthy url
      then
        match client_get c url with
        | (c', Replies data status_code) =>
            if Z.eqb status_code 200
            then
              match _extract_items data, next_cursor data with
              | Ok items, Ok next =>
                  match follow k' c' next with
                  | Some (pages, last, c'') =>
                      Some (items :: pages, last, c'')
                  | None => None
                  end
              | _, _ => None
              end
            else None
        | (_, Fails _) => None
        end
      else None
  end.

(** The world after one more request: one sleep, one path logged. *)
Definition asked {E : Env} (w : world) (c : cstate) (url : json) : world :=
  {| client := c; requested := requested w ++ [url];
     sleeps := S (sleeps w); self_stats := self_stats w; db := db w |}.

(** The merge the specification describes for enrichment (4.3): the
    fields of the detail entity laid over those of the listed item, the
    detail entity winning where both have a field. *)
Definition spec_merge (item entity : json) : json :=
  match item, entity with
  | JObj a, JObj b =>
      JObj (map (fun kv => (kv.1, default kv.2 (lookup_key kv.1 b))) a
            ++ List.filter
                 (fun kv => negb (bool_decide (is_Some (lookup_key kv.1 a)))) b)
  | _, _ => entity
  end.

(** A bill payload whose [laws], when true, is a list that starts with an
    object: what [insert_bill] needs to read the first law. *)
Definition laws_well_formed (d : json) : bool :=
  match get d "laws" JNull with
  | Ok laws =>
      negb (truthy laws)
      || match laws with JList (JObj _ :: _) => true | _ => false end
  | Raise _ => false
  end.

(** An amendment payload whose [amendedBill], when present, is an
    object. *)
Definition amended_bill_well_formed (d : json) : bool :=
  match get d "amendedBill" (JObj []) with
  | Ok (JObj _) => true
  | _ => false
  end.

(** The counters of a finished item loop over [n] items. *)
Definition counters_consistent (s : stats) (n : nat) : Prop :=
  processed s = (created s + updated s)%nat
  /\ length (errors s) = failed s
  /\ (processed s + failed s)%nat = n.

(** A method that leaves an aspect [f] of the world alone. *)
Definition keeps {E : Env} {A X} (f : world -> X) (m : M A) : Prop :=
  forall w, f (m w).2 = f w.

Abbreviation keeps_stats := (keeps self_stats).

(** The rows of the sync log. *)
Definition log_table {E : Env} (w : world) : table :=
  table_of (db w) "api_sync_log".

Abbreviation keeps_log := (keeps log_table).

(** The table a statement writes to. *)
Definition table_name (sql : statement) : string :=
  match sql with
  | InsertOnConflict t _ _ _ | Insert t _ | Update t _ _ => t
  end.

(** The sync log row opened by an ingestion, once it is finished. *)
Definition log_row_has (w_db : database) (log_id : positive)
    (status : string) (error_message : sqlval) : Prop :=
  exists r, r ∈ rows (table_of w_db "api_sync_log")
            /\ row_id r = log_id
            /\ row_cols r !! "status" = Some (Bound (JStr status))
            /\ row_cols r !! "error_message" = Some error_message.

(** ** Concrete collaborators for the examples *)

Module Fixture.

(** A transport client that answers from a table of paths; an unknown path
    gets a 404 with an empty body. *)
Definition route (table : list (string * response)) (path : json) : response :=
  match path with
  | JStr s =>
      match List.find (fun e => String.eqb s e.1) table with
      | Some e => e.2
      | None => Replies (JObj []) 404
      end
  | _ => Fails (TypeError "path must be a string")
  end.

(** An engine whose tables declare their natural-key columns NOT NULL. *)
Definition null_key (sql : statement) (p : gmap string sqlval) : bool :=
  match sql with
  | InsertOnConflict _ _ target _ => negb (key_present target p)
  | _ => false
  end.

#[local] Instance strict : Env := {|
  cstate := list (string * response);
  client_get := fun c path => (c, route c path);
  db_fault := fun _ sql p =>
    if null_key sql p
    then Some (DatabaseFailure "null value violates not-null constraint")
    else None
|}.

(** An engine that accepts every statement. *)
#[local] Instance lenient : Env := {|
  cstate := list (string * response);
  client_get := fun c path => (c, route c path);
  db_fault := fun _ _ _ => None
|}.

Definition start {E : Env} (c : cstate) (d : database) : world :=
  {| client := c; requested := []; sleeps := 0; self_stats := zero_stats;
     db := d |}.

Definition bill (number : Z) (title : string) : json :=
  JObj [ ("congress", JNum 118); ("type", JStr "hr");
         ("number", JNum number); ("title", JStr title) ].

(** A bill item without its [type]. *)
Definition untyped_bill (number : Z) (title : string) : json :=
  JObj [ ("congress", JNum 118); ("number", JNum number);
         ("title", JStr title) ].

Definition page (key : string) (items : list json) (next : json) : json :=
  JObj [ (key, JList items);
         ("pagination", JObj [("count", JNum 4); ("next", next)]) ].

Definition bills_url : string := "bill/118/hr?limit=250&offset=0".

(** Two pages of two bills each. *)
Definition two_pages : list (string * response) :=
  [ (bills_url,
     Replies (page "bills" [bill 1 "A"; bill 2 "B"] (JStr "bill/118/hr?offset=2"))
       200);
    ("bill/118/hr?offset=2",
     Replies (page "bills" [bill 3 "C"; bill 4 "D"] JNull) 200) ].

(** A first page, then a server error. *)
Definition page_then_error : list (string * response) :=
  [ (bills_url,
     Replies (page "bills" [bill 1 "A"; bill 2 "B"] (JStr "bill/118/hr?offset=2"))
       200);
    ("bill/118/hr?offset=2", Replies (JObj [("error", JStr "busy")]) 500) ].

(** A first page, then a reply of status 200 whose body is [null]. *)
Definition page_then_null : list (string * response) :=
  [ (bills_url,
     Replies (page "bills" [bill 1 "A"; bill 2 "B"] (JStr "bill/118/hr?offset=2"))
       200);
    ("bill/118/hr?offset=2", Replies JNull 200) ].

(** A first page, then a page whose [pagination] entry is [null]. *)
Definition page_then_no_cursor : list (string * response) :=
  [ (bills_url,
     Replies (page "bills" [bill 1 "A"; bill 2 "B"] (JStr "bill/118/hr?offset=2"))
       200);
    ("bill/118/hr?offset=2",
     Replies (JObj [("bills", JList [bill 3 "C"]); ("pagination", JNull)])
       200) ].

(** One page of three bills, the second without its [type]. *)
Definition three_bills : list (string * response) :=
  [ (bills_url,
     Replies (page "bills" [bill 1 "A"; untyped_bill 2 "B"; bill 3 "C"] JNull)
       200) ].

(** One page with the same bill, served again at every ingestion. *)
Definition one_bill : list (string * response) :=
  [ (bills_url, Replies (page "bills" [bill 1 "A"] JNull) 200) ].

(** A listed bill without title, and the detail its link leads to. *)
Definition listed : json :=
  JObj [ ("congress", JNum 118); ("type", JStr "hr"); ("number", JNum 7);
         ("url", JStr "https://api.congress.gov/v3/bill/118/hr/7") ].

Definition detail : json :=
  JObj [ ("title", JStr "An Act"); ("congress", JNum 118) ].

Definition with_detail : list (string * response) :=
  [ ("bill/118/hr/7", Replies (JObj [("bill", detail)]) 200) ].

Definition failing_detail : list (string * response) :=
  [ ("bill/118/hr/7", Fails (TransportFailure "connection reset")) ].

(** The parameters a payload is bound to. *)
Definition params_of (entries : list (string * result sqlval))
  : gmap string sqlval :=
  match make_params entries with
  | Ok p => p
  | Raise _ => ∅
  end.

(** The store after bill 1 was ingested once, and once more with a new
    title. *)
Definition stored_once : database :=
  (insert_bill (E:=strict) (bill 1 "A") empty_database).2.

Definition stored_twice : database :=
  (insert_bill (E:=strict) (bill 1 "B") stored_once).2.

Definition amendment (purpose : string) : json :=
  JObj [ ("congress", JNum 118); ("type", JStr "samdt"); ("number", JNum 5);
         ("purpose", JStr purpose) ].

Definition amended_once : database :=
  (insert_amendment (E:=strict) (amendment "first") empty_database).2.

Definition amended_twice : database :=
  (insert_amendment (E:=strict) (amendment "second") amended_once).2.

(** What a run left behind: the stored bills and the sync log. *)
Definition bills_stored {E : Env} (w : world)
  : list (positive * option sqlval * option sqlval) :=
  map (fun r => (row_id r, row_cols r !! "bill_number", row_cols r !! "title"))
      (rows (table_of (db w) "bills")).

Definition log_rows {E : Env} (w : world)
  : list (positive * option sqlval * option sqlval * option sqlval) :=
  map (fun r => (row_id r, row_cols r !! "status",
                 row_cols r !! "records_failed",
                 row_cols r !! "error_message"))
      (rows (table_of (db w) "api_sync_log")).

(** The stats of a run with what it left behind. *)
Definition observed {E : Env} (run : option (result stats * world))
  : option (stats
            * list (positive * option sqlval * option sqlval)
            * list (positive * option sqlval * option sqlval * option sqlval)) :=
  match run with
  | Some (Ok s, w) => Some (s, bills_stored w, log_rows w)
  | _ => None
  end.

(** The world a run ends in (the initial one if it does not end). *)
Definition after {E : Env} (w : world) (run : option (result stats * world))
  : world :=
  match run with
  | Some (_, w') => w'
  | None => w
  end.

(** A fetcher that raises before it returns any item. *)
Definition raising {E : Env} (e : exn) : fetcher :=
  fun _ _ w => Some (Raise e, w).

End Fixture.

(** * Further parts of [database.py] and [bulk_ingest.py] *)

(** ** [DatabaseManager.get_bills]

    [get_bills] builds its [WHERE] clause from the filters that are true
    and runs
    [SELECT * FROM bills <where> ORDER BY update_date DESC
     LIMIT :limit OFFSET :offset]. *)

(** A [SELECT *] with equality conditions [column = :column], as data. *)
Record select : Type := {
  from_table : string;
  where_equal : list string;
  order_by_desc : string
}.

(** What the engine contributes to a query: the order it gives rows under
    [ORDER BY column DESC] (it depends on the column types, which the
    table declarations fix), and the queries it refuses. *)
Class Reader : Type := {
  order_desc : string -> list row -> list row;
  query_fault : database -> select -> gmap string sqlval -> option exn
}.

Definition int_param (p : gmap string sqlval) (name : string) : option Z :=
  match p !! name with
  | Some (Bound (JNum n)) => Some n
  | _ => None
  end.

(** The rows a query yields: those that satisfy every condition, in the
    engine's order, without the first [offset] and cut after [limit]. The
    engine refuses a negative [LIMIT] or [OFFSET]. *)
Definition run_select {R : Reader} (q : select) (p : gmap string sqlval)
    (db : database) : result (list row) :=
  match int_param p "limit", int_param p "offset" with
  | Some limit, Some offset =>
      if Z.ltb limit 0
      then Raise (DatabaseFailure "LIMIT must not be negative")
      else if Z.ltb offset 0
      then Raise (DatabaseFailure "OFFSET must not be negative")
      else Ok (take (Z.to_nat limit)
                 (drop (Z.to_nat offset)
                    (order_desc (order_by_desc q)
                       (List.filter (key_matches (where_equal q) p)
                          (rows (table_of db (from_table q)))))))
  | _, _ => Raise (DatabaseFailure "A value is required for bind parameter")
  end.

(** [execute_sql] for a query: nothing is written, the clock advances. *)
Definition execute_select {R : Reader} (q : select) (p : gmap string sqlval)
    (db : database) : result (list row) * database :=
  match query_fault db q p with
  | Some e => (Raise e, tick db)
  | None => (run_select q p db, tick db)
  end.

(** The [conditions] list of [get_bills], as the columns it compares. *)
Definition get_bills_conditions (congress : option Z)
    (bill_type : option string) : list string :=
  (if truthy (opt_num congress) then ["congress"] else [])
  ++ (if truthy (opt_str bill_type) then ["bill_type"] else []).

(** The [params] dictionary of [get_bills]. *)
Definition get_bills_params (congress : option Z) (bill_type : option string)
    (limit offset : Z) : gmap string sqlval :=
  let params : gmap string sqlval :=
    <["offset" := Bound (JNum offset)]> (<["limit" := Bound (JNum limit)]> ∅) in
  let params :=
    if truthy (opt_num congress)
    then <["congress" := Bound (opt_num congress)]> params else params in
  if truthy (opt_str bill_type)
  then <["bill_type" := Bound (opt_str bill_type)]> params else params.

Definition get_bills {R : Reader} (congress : option Z)
    (bill_type : option string) (limit offset : Z) (db : database)
  : result (list row) * database :=
  execute_select
    {| from_table := "bills";
       where_equal := get_bills_conditions congress bill_type;
       order_by_desc := "update_date" |}
    (get_bills_params congress bill_type limit offset) db.

(** ** [BulkIngestor.sync_recent_bills]

    [to_iso] and [from_iso] are what [datetime.now().isoformat()] and
    [(datetime.now() - timedelta(days=days)).isoformat()] print; the method
    appends ['Z'] to each and passes no page cap. *)
Definition sync_recent_bills {E : Env} (fuel : nat) (from_iso to_iso : string)
  : world -> option (result stats * world) :=
  ingest_bills fuel None None (Some (from_iso +:+ "Z")) (Some (to_iso +:+ "Z"))
    None.

(** ** Vocabulary of the further properties *)

(** [items if isinstance(items, list) else [items]] *)
Definition as_list (items : json) : list json :=
  match items with JList l => l | _ => [items] end.

(** Rate-limit waits made minus requests made. *)
Definition pace {E : Env} (w : world) : Z :=
  Z.of_nat (sleeps w) - Z.of_nat (length (requested w)).

(** The ids of a table are pairwise distinct and below its sequence. *)
Definition ids_fresh (tb : table) : Prop :=
  Forall (fun r => (row_id r < next_id tb)%positive) (rows tb)
  /\ NoDup (row_id <$> rows tb).

(** The row an insert appends. *)
Definition new_row (i : positive) (now : nat) (proposed : gmap string sqlval)
  : row :=
  {| row_id := i; row_cols := with_defaults now proposed |}.

(** The columns of a statement restricted to the listed ones. *)
Definition proposed_of (sql : statement) (p : gmap string sqlval)
  : gmap string sqlval :=
  match bind_columns (listed sql) p with
  | Ok m => m
  | Raise _ => ∅
  end.

(** A sync log row with its status and counters. *)
Definition row_reports (r : row) (status : string)
    (records_processed records_created records_updated records_failed : nat)
  : Prop :=
  row_cols r !! "status" = Some (Bound (JStr status))
  /\ row_cols r !! "records_processed" = Some (bound_nat records_processed)
  /\ row_cols r !! "records_created" = Some (bound_nat records_created)
  /\ row_cols r !! "records_updated" = Some (bound_nat records_updated)
  /\ row_cols r !! "records_failed" = Some (bound_nat records_failed).

(** What a run from [w] to [w'] leaves in the sync log: the earlier rows
    as they were and one new row, the last, with the next id of the
    sequence, the given status and the counters of [s]. *)
Definition run_logged {E : Env} (w w' : world) (status : string) (s : stats)
  : Prop :=
  exists last,
    rows (log_table w') = rows (log_table w) ++ [last]
    /\ row_id last = next_id (log_table w)
    /\ row_reports last status (processed s) (created s) (updated s)
         (failed s).

(** The world in which [ingest_bills] calls its fetch: [self.stats] reset
    and the sync log row of the invocation opened. *)
Definition bills_opened {E : Env} (congress : option Z)
    (bill_type : option string) (w : world) : world :=
  (on_db (log_sync "bills" "bulk"
            (Some (JObj [ ("congress", opt_num congress);
                          ("bill_type", opt_str bill_type) ])))
     (set_stats zero_stats w)).2.

(** What a failed run from [w] to [w'] leaves in the sync log: the
    earlier rows as they were and one new row, the last, with the next id
    of the sequence, status [failed], the counters at their default and
    the message. *)
Definition run_failed {E : Env} (w w' : world) (msg : string) : Prop :=
  exists last,
    rows (log_table w') = rows (log_table w) ++ [last]
    /\ row_id last = next_id (log_table w)
    /\ row_reports last "failed" 0 0 0 0
    /\ row_cols last !! "error_message" = Some (Bound (JStr msg)).

(** The requests of a world are those of an earlier one and more. *)
Definition asked_after {E : Env} (w w' : world) : Prop :=
  exists more, requested w' = requested w ++ more.

(** A method that makes requests and forgets none. *)
Definition only_asks {E : Env} {A} (m : M A) : Prop :=
  forall w, asked_after w (m w).2.

(** ** More concrete inputs *)

Module Sample.

(** An engine that returns the newest row first. *)
#[local] Instance newest_first : Reader := {|
  order_desc := fun _ rs => reverse rs;
  query_fault := fun _ _ _ => None
|}.

Definition member (party : string) (death_year : json) : json :=
  JObj [ ("bioguideId", JStr "B000944"); ("firstName", JStr "Sherrod");
         ("lastName", JStr "Brown"); ("party", JStr party);
         ("state", JStr "OH"); ("deathYear", death_year) ].

Definition member_once : database :=
  (insert_member (E:=Fixture.strict) (member "D" JNull) empty_database).2.

Definition member_twice : database :=
  (insert_member (E:=Fixture.strict) (member "I" (JNum 2090)) member_once).2.

Definition committee (name : string) (parent : json) : json :=
  JObj [ ("systemCode", JStr "hsag00"); ("name", JStr name);
         ("chamber", JStr "House"); ("parentCommitteeCode", parent) ].

Definition committee_once : database :=
  (insert_committee (E:=Fixture.strict) (committee "Agriculture" JNull)
     empty_database).2.

Definition committee_twice : database :=
  (insert_committee (E:=Fixture.strict)
     (committee "Agriculture Committee" (JStr "hsag01")) committee_once).2.

Definition sponsored (title : string) (sponsor : string) : json :=
  JObj [ ("congress", JNum 118); ("type", JStr "hr"); ("number", JNum 1);
         ("title", JStr title);
         ("sponsors", JList [JObj [("bioguideId", JStr sponsor)]]) ].

Definition sponsored_once : database :=
  (insert_bill (E:=Fixture.strict) (sponsored "A" "B000944") empty_database).2.

Definition sponsored_twice : database :=
  (insert_bill (E:=Fixture.strict) (sponsored "B" "C001035") sponsored_once).2.

(** The store after a bill without [type] was accepted once. *)
Definition untyped_once : database :=
  (insert_bill (E:=Fixture.lenient) (Fixture.untyped_bill 2 "B")
     empty_database).2.

(** What [get_bills] finds for the 118th Congress and type [hr] after
    bill 1 was stored twice. *)
Definition found_bills : list row :=
  match (get_bills (Some 118) (Some "hr") 10 0 Fixture.stored_twice).1 with
  | Ok rs => rs
  | Raise _ => []
  end.

(** A server whose detail of bill 7 is out of order. *)
Definition detail_unavailable : list (string * response) :=
  [ ("bill/118/hr/7", Replies (JObj [("error", JStr "busy")]) 500) ].

(** A member list of one item, and the detail of the member. *)
Definition listed_member : json :=
  JObj [ ("bioguideId", JStr "B000944"); ("name", JStr "Brown, Sherrod") ].

Definition member_detail : json :=
  JObj [ ("bioguideId", JStr "B000944"); ("firstName", JStr "Sherrod") ].

Definition with_member : list (string * response) :=
  [ ("member/B000944", Replies (JObj [("member", member_detail)]) 200) ].

(** The store after one sync log row was opened. *)
Definition logged_once : database :=
  (log_sync (E:=Fixture.strict) "bills" "bulk" None empty_database).2.

(** An amendment item without its [number]. *)
Definition unnumbered : json :=
  JObj [ ("congress", JNum 118); ("type", JStr "samdt");
         ("purpose", JStr "first") ].

(** A House that answers with an error and a Senate with one committee. *)
Definition senate_only : list (string * response) :=
  [ ("committee/house?limit=250&offset=0",
     Replies (JObj [("error", JStr "busy")]) 503);
    ("committee/senate?limit=250&offset=0",
     Replies (Fixture.page "committees"
                [JObj [("systemCode", JStr "ssaf00"); ("name", JStr "Ag")]]
                JNull) 200) ].

(** A server whose every page points to a next one. *)
Definition endless : list (string * response) :=
  [ (Fixture.bills_url,
     Replies (Fixture.page "bills" [Fixture.bill 1 "A"]
                (JStr Fixture.bills_url)) 200) ].

(** An engine that refuses to open a sync log row. *)
#[local] Instance no_log : Env := {|
  cstate := list (string * response);
  client_get := fun c path => (c, Fixture.route c path);
  db_fault := fun _ sql _ =>
    match sql with
    | Insert _ _ => Some (DatabaseFailure "connection refused")
    | _ => None
    end
|}.

End Sample.

(** * Properties *)

(** ** Equality of stored values *)

Lemma json_eqb_sound : forall a b, json_eqb a b = true -> a = b.
Proof.
  fix IH 1.
  intros [| x | x | x | xs | xs] [| y | y | y | ys | ys]; simpl;
    try discriminate; intros H.
  - reflexivity.
  - apply Bool.eqb_prop in H. by subst.
  - apply Z.eqb_eq in H. by subst.
  - apply String.eqb_eq in H. by subst.
  - f_equal. revert ys H.
    induction xs as [| x xs IHxs]; intros [| y ys] H; try discriminate.
    + reflexivity.
    + apply andb_true_iff in H as [H1 H2].
      f_equal; [apply IH, H1 | apply IHxs, H2].
  - f_equal. revert ys H.
    induction xs as [| [k x] xs IHxs]; intros [| [k' y] ys] H;
      try discriminate.
    + reflexivity.
    + apply andb_true_iff in H as [H1 H3].
      apply andb_true_iff in H1 as [H1 H2].
      apply String.eqb_eq in H1. subst k'.
      f_equal; [f_equal; apply IH, H2 | apply IHxs, H3].
Qed.

Lemma json_eqb_refl : forall a, json_eqb a a = true.
Proof.
  fix IH 1.
  intros [| x | x | x | xs | xs]; simpl.
  - reflexivity.
  - by destruct x.
  - apply Z.eqb_refl.
  - apply String.eqb_refl.
  - induction xs as [| x xs IHxs]; [reflexivity |].
    by rewrite IH, IHxs.
  - induction xs as [| [k x] xs IHxs]; [reflexivity |].
    by rewrite String.eqb_refl, IH, IHxs.
Qed.

Lemma sqlval_eqb_eq a b : sqlval_eqb a b = true <-> a = b.
Proof.
  split.
  - destruct a, b; simpl; try discriminate; intros H.
    + by apply json_eqb_sound in H; subst.
    + by apply json_eqb_sound in H; subst.
    + by apply Nat.eqb_eq in H; subst.
  - intros <-. destruct a; simpl; auto using json_eqb_refl, Nat.eqb_refl.
Qed.

(** ** The conflict branch of an upsert *)

Lemma forallb_agree {A} (f g : A -> bool) (l : list A) :
  (forall x, x ∈ l -> f x = g x) -> forallb f l = forallb g l.
Proof.
  induction l as [| x l IH]; simpl; intros H; [reflexivity |].
  rewrite (H x) by apply list_elem_of_here.
  rewrite IH; [reflexivity |].
  intros y Hy. apply H. by apply list_elem_of_further.
Qed.

Lemma filter_single {A} (f : A -> bool) (pre post : list A) (x : A) :
  (length (List.filter f (pre ++ x :: post)) <= 1)%nat ->
  f x = true ->
  List.filter f (pre ++ x :: post) = [x]
  /\ List.filter f pre = [] /\ List.filter f post = [].
Proof.
  rewrite List.filter_app. simpl. intros Hlen Hx. rewrite Hx in *.
  rewrite length_app in Hlen. simpl in Hlen.
  destruct (List.filter f pre) as [| a l]; simpl in *; [| lia].
  destruct (List.filter f post) as [| b l']; simpl in *; [| lia].
  done.
Qed.

Lemma filter_none {A} (f : A -> bool) (l : list A) :
  Forall (fun x => f x = false) l -> List.filter f l = [].
Proof.
  induction 1 as [| x l Hx _ IH]; simpl; [reflexivity |]. by rewrite Hx.
Qed.

Lemma key_matches_same_key target p1 p2 r :
  key_values target p1 = key_values target p2 ->
  key_matches target p1 r = key_matches target p2 r.
Proof.
  unfold key_values, key_matches.
  induction target as [| c target IH]; simpl; intros H; [reflexivity |].
  injection H as Hc Hrest. rewrite Hc. by rewrite IH.
Qed.

Lemma bind_columns_lookup columns p proposed c :
  bind_columns columns p = Ok proposed ->
  c ∈ columns -> proposed !! c = p !! c /\ is_Some (p !! c).
Proof.
  revert proposed.
  induction columns as [| c' columns IH]; simpl; intros proposed Hb Hc.
  - by apply elem_of_nil in Hc.
  - destruct (p !! c') as [v |] eqn:Hv; [| discriminate].
    destruct (bind_columns columns p) as [m |] eqn:Hm; simpl in Hb;
      [| discriminate].
    injection Hb as <-.
    destruct (decide (c' = c)) as [-> | Hne].
    + rewrite lookup_insert_eq, Hv. eauto.
    + rewrite lookup_insert_ne by done.
      apply elem_of_cons in Hc as [-> | Hc]; [done |]. by apply IH.
Qed.

Lemma key_matches_proposed target columns p proposed r :
  (forall c, c ∈ target -> c ∈ columns) ->
  bind_columns columns p = Ok proposed ->
  key_matches target proposed r = key_matches target p r.
Proof.
  intros Hsub Hb. apply forallb_agree. intros c Hc.
  by destruct (bind_columns_lookup _ _ _ c Hb (Hsub _ Hc)) as [-> _].
Qed.

Section Upsert.
Variables (target : list string) (sets : list (string * source)).
Hypothesis sets_off_target : forall c, c ∈ target -> c ∉ sets.*1.

Lemma assign_other proposed now cols a c :
  a.1 ≠ c -> assign proposed now cols a !! c = cols !! c.
Proof.
  intros Hne. unfold assign. destruct (a.2); by rewrite lookup_insert_ne.
Qed.

Lemma foldl_assign_other proposed now c (l : list (string * source)) cols :
  c ∉ l.*1 -> foldl (assign proposed now) cols l !! c = cols !! c.
Proof.
  revert cols. induction l as [| a l IH]; simpl; intros cols Hc;
    [reflexivity |].
  apply not_elem_of_cons in Hc as [Hne Hc].
  rewrite IH by done. by apply assign_other.
Qed.

Lemma foldl_assign_excluded proposed now c (l : list (string * source)) cols :
  NoDup l.*1 -> (c, Excluded c) ∈ l ->
  foldl (assign proposed now) cols l !! c
  = Some (default (Bound JNull) (proposed !! c)).
Proof.
  revert cols. induction l as [| a l IH]; simpl; intros cols Hnd Hin.
  - by apply elem_of_nil in Hin.
  - apply NoDup_cons in Hnd as [Hfresh Hnd].
    apply elem_of_cons in Hin as [<- | Hin].
    + rewrite foldl_assign_other by done.
      unfold assign; simpl. by rewrite lookup_insert_eq.
    + by apply IH.
Qed.

Lemma do_update_other proposed now r c :
  c ∉ sets.*1 ->
  row_cols (do_update sets proposed now r) !! c = row_cols r !! c.
Proof. intros Hc. simpl. by apply foldl_assign_other. Qed.

Lemma key_matches_do_update p proposed now r :
  key_matches target p (do_update sets proposed now r)
  = key_matches target p r.
Proof.
  apply forallb_agree. intros c Hc.
  by rewrite do_update_other by auto.
Qed.

Lemma update_conflicting_Some proposed now rs i rs' :
  update_conflicting target sets proposed now rs = Some (i, rs') ->
  exists pre r post,
    rs = pre ++ r :: post
    /\ key_matches target proposed r = true
    /\ i = row_id r
    /\ rs' = pre ++ do_update sets proposed now r :: post.
Proof.
  revert i rs'. induction rs as [| r rs IH]; simpl; intros i rs' H;
    [discriminate |].
  destruct (key_matches target proposed r) eqn:Hr.
  - injection H as <- <-. by exists [], r, rs.
  - destruct (update_conflicting target sets proposed now rs)
      as [[j rest] |] eqn:Hrec; [| discriminate].
    injection H as <- <-.
    destruct (IH _ _ eq_refl) as (pre & r0 & post & -> & Hm & -> & ->).
    by exists (r :: pre), r0, post.
Qed.

Lemma update_conflicting_None proposed now rs :
  update_conflicting target sets proposed now rs = None ->
  Forall (fun r => key_matches target proposed r = false) rs.
Proof.
  induction rs as [| r rs IH]; simpl; intros H; [constructor |].
  destruct (key_matches target proposed r) eqn:Hr; [discriminate |].
  destruct (update_conflicting target sets proposed now rs) as [[j rest] |];
    [discriminate |].
  constructor; auto.
Qed.

(** Updating a row in place keeps the key unique. *)
Lemma unique_key_update proposed now pre r post :
  unique_key target (pre ++ r :: post) ->
  unique_key target (pre ++ do_update sets proposed now r :: post).
Proof.
  intros Hu p. specialize (Hu p).
  rewrite List.filter_app in *. cbn [List.filter] in *.
  rewrite key_matches_do_update.
  rewrite length_app in *. by destruct (key_matches target p r).
Qed.

(** A row that conflicts with [p] carries the key of [p]. *)
Lemma key_matches_transfer p q r r' :
  key_matches target p r = true ->
  key_matches target p r' = true ->
  key_matches target q r' = true ->
  key_matches target q r = true.
Proof.
  unfold key_matches. rewrite !forallb_forall.
  intros Hpr Hpr' Hqr' c Hc.
  specialize (Hpr c Hc). specialize (Hpr' c Hc). specialize (Hqr' c Hc).
  destruct (p !! c) as [a |]; [| discriminate].
  destruct (q !! c) as [b |]; [| discriminate].
  destruct (row_cols r !! c) as [x |]; [| discriminate].
  destruct (row_cols r' !! c) as [y |]; [| discriminate].
  apply andb_true_iff in Hpr as [_ Hax].
  apply andb_true_iff in Hpr' as [_ Hay].
  apply andb_true_iff in Hqr' as [Hb Hby].
  apply sqlval_eqb_eq in Hax, Hay, Hby. subst.
  rewrite Hb. simpl. by apply sqlval_eqb_eq.
Qed.

(** Appending a row whose key is stored nowhere keeps the key unique. *)
Lemma unique_key_insert p rs r :
  unique_key target rs ->
  Forall (fun x => key_matches target p x = false) rs ->
  key_matches target p r = true ->
  unique_key target (rs ++ [r]).
Proof.
  intros Hu Hnone Hr q. specialize (Hu q).
  rewrite List.filter_app, length_app. simpl.
  destruct (key_matches target q r) eqn:Hq; simpl; [| lia].
  rewrite filter_none; [simpl; lia |].
  eapply Forall_impl; [exact Hnone |]. intros x Hx. simpl in Hx.
  destruct (key_matches target q x) eqn:Hqx; [| reflexivity].
  rewrite <- Hx. symmetry.
  (* [x] and [r] both conflict with [q]; [r] conflicts with [p] *)
  by apply (key_matches_transfer q p x r).
Qed.

End Upsert.

(** ** One upsert, and two upserts of the same natural key *)

Lemma key_present_same_key target p1 p2 :
  key_values target p1 = key_values target p2 ->
  key_present target p1 = key_present target p2.
Proof.
  unfold key_values, key_present.
  induction target as [| c target IH]; simpl; intros H; [reflexivity |].
  injection H as Hc Hrest. rewrite Hc. by rewrite IH.
Qed.

Lemma key_matches_new target p now proposed i :
  key_present target p = true ->
  (forall c, c ∈ target -> proposed !! c = p !! c) ->
  "created_at" ∉ target -> "updated_at" ∉ target ->
  key_matches target p
    {| row_id := i; row_cols := with_defaults now proposed |} = true.
Proof.
  unfold key_present, key_matches. rewrite !forallb_forall.
  intros Hp Hsame Hc Hu c Hin. specialize (Hp c Hin).
  assert (c ∈ target) as Hin' by by apply list_elem_of_In.
  simpl. unfold with_defaults.
  rewrite !lookup_insert_ne by (intros <-; auto).
  rewrite Hsame by done.
  destruct (p !! c) as [a |]; [| discriminate].
  rewrite Hp. simpl. by apply sqlval_eqb_eq.
Qed.

Section Store.
Context {E : Env}.

Lemma table_of_set db t tb : table_of (tick (set_table db t tb)) t = tb.
Proof. unfold table_of, tick, set_table. simpl. by rewrite lookup_insert_eq. Qed.

Lemma table_of_set_ne db t t' tb :
  t ≠ t' -> table_of (tick (set_table db t tb)) t' = table_of db t'.
Proof.
  intros Hne. unfold table_of, tick, set_table. simpl.
  by rewrite lookup_insert_ne.
Qed.

Lemma insert_with_Some t columns target sets entries db i db' :
  insert_with (InsertOnConflict t columns target sets) entries db
  = (Ok (Some i), db') ->
  exists p proposed,
    make_params entries = Ok p
    /\ bind_columns columns p = Ok proposed
    /\ clock db' = S (clock db)
    /\ ((exists rs',
           update_conflicting target sets proposed (clock db)
             (rows (table_of db t)) = Some (i, rs')
           /\ rows (table_of db' t) = rs')
        \/ (update_conflicting target sets proposed (clock db)
              (rows (table_of db t)) = None
            /\ rows (table_of db' t)
               = rows (table_of db t)
                 ++ [ {| row_id := i;
                         row_cols := with_defaults (clock db) proposed |} ])).
Proof.
  unfold insert_with, execute_sql. intros H.
  destruct (make_params entries) as [p |]; [| discriminate].
  exists p.
  destruct (db_fault db _ p); [discriminate |].
  unfold run_statement in H.
  destruct (bind_columns columns p) as [proposed |]; simpl in H;
    [| discriminate].
  exists proposed. split; [done |]. split; [done |].
  destruct (update_conflicting target sets proposed (clock db)
              (rows (table_of db t))) as [[j rs'] |] eqn:Hup;
    simpl in H; injection H as <- <-.
  - split; [done |]. left. exists rs'. by rewrite table_of_set.
  - split; [done |]. right. by rewrite table_of_set.
Qed.

Section Step.
Variables (t : string) (columns target : list string)
          (sets : list (string * source)).
Hypothesis target_listed : forall c, c ∈ target -> c ∈ columns.
Hypothesis sets_off_target : forall c, c ∈ target -> c ∉ sets.*1.
Hypothesis created_off_target : "created_at" ∉ target.
Hypothesis updated_off_target : "updated_at" ∉ target.

Local Abbreviation sql := (InsertOnConflict t columns target sets).

(** After an upsert that returned [i], exactly one row conflicts with the
    upserted key; it has id [i]; it is the updated version of the row that
    conflicted before, or a new row when none did. *)
Lemma upsert_step entries p db i db' :
  make_params entries = Ok p ->
  key_present target p = true ->
  unique_key target (rows (table_of db t)) ->
  insert_with sql entries db = (Ok (Some i), db') ->
  unique_key target (rows (table_of db' t))
  /\ exists proposed r,
       bind_columns columns p = Ok proposed
       /\ List.filter (key_matches target p) (rows (table_of db' t)) = [r]
       /\ row_id r = i
       /\ match List.filter (key_matches target p) (rows (table_of db t)) with
          | [] => r = {| row_id := i;
                         row_cols := with_defaults (clock db) proposed |}
          | r0 :: _ => r = do_update sets proposed (clock db) r0
          end.
Proof.
  intros Hp Hkey Hu H.
  apply insert_with_Some in H
    as (p' & proposed & Hp' & Hb & _ & [(rs' & Hup & Hrows) | (Hup & Hrows)]);
    rewrite Hp in Hp'; injection Hp' as <-.
  - apply update_conflicting_Some in Hup
      as (pre & r0 & post & Hrs & Hm & -> & ->).
    rewrite (key_matches_proposed _ columns p) in Hm by done.
    rewrite Hrows, Hrs in *.
    pose proof (unique_key_update target sets sets_off_target
                  proposed (clock db) _ _ _ Hu) as Hu'.
    split; [done |].
    exists proposed, (do_update sets proposed (clock db) r0).
    split; [done |].
    destruct (filter_single _ _ _ _ (Hu p) Hm) as (-> & _ & _).
    split; [| done].
    apply (filter_single _ _ _ _ (Hu' p)).
    by rewrite key_matches_do_update.
  - apply update_conflicting_None in Hup.
    assert (Forall (fun x => key_matches target p x = false)
              (rows (table_of db t))) as Hnone.
    { eapply Forall_impl; [exact Hup |]. intros x Hx. simpl in Hx.
      by rewrite (key_matches_proposed _ columns p) in Hx. }
    set (r := {| row_id := i; row_cols := with_defaults (clock db) proposed |})
      in *.
    assert (key_matches target p r = true) as Hr.
    { apply key_matches_new; try done.
      intros c Hc.
      by destruct (bind_columns_lookup _ _ _ c Hb (target_listed _ Hc)). }
    rewrite Hrows. split.
    + by apply (unique_key_insert target p).
    + exists proposed, r. split; [done |].
      rewrite List.filter_app, (filter_none _ _ Hnone). simpl.
      by rewrite Hr.
Qed.

(** Two upserts of one natural key: the second returns the id of the
    first and updates the row the first left. *)
Lemma upsert_twice e1 e2 p1 p2 db i1 db1 i2 db2 :
  make_params e1 = Ok p1 ->
  make_params e2 = Ok p2 ->
  key_values target p1 = key_values target p2 ->
  key_present target p2 = true ->
  unique_key target (rows (table_of db t)) ->
  insert_with sql e1 db = (Ok (Some i1), db1) ->
  insert_with sql e2 db1 = (Ok (Some i2), db2) ->
  i2 = i1
  /\ exists proposed r1 r2,
       bind_columns columns p2 = Ok proposed
       /\ List.filter (key_matches target p2) (rows (table_of db1 t)) = [r1]
       /\ List.filter (key_matches target p2) (rows (table_of db2 t)) = [r2]
       /\ row_id r1 = i1
       /\ r2 = do_update sets proposed (clock db1) r1
       /\ (List.filter (key_matches target p1) (rows (table_of db t)) = [] ->
           exists proposed1,
             bind_columns columns p1 = Ok proposed1
             /\ row_cols r1 = with_defaults (clock db) proposed1).
Proof.
  intros Hp1 Hp2 Hsame Hkey Hu H1 H2.
  assert (key_present target p1 = true) as Hkey1
    by by rewrite (key_present_same_key _ _ _ Hsame).
  destruct (upsert_step _ _ _ _ _ Hp1 Hkey1 Hu H1)
    as (Hu1 & proposed1 & r1 & Hb1 & Hf1 & Hid1 & Hr1).
  destruct (upsert_step _ _ _ _ _ Hp2 Hkey Hu1 H2)
    as (_ & proposed & r2 & Hb & Hf2 & Hid2 & Hr2).
  assert (List.filter (key_matches target p2) (rows (table_of db1 t)) = [r1])
    as Hf1'.
  { rewrite <- Hf1. apply List.filter_ext. intros x.
    symmetry. by apply key_matches_same_key. }
  rewrite Hf1' in Hr2. subst r2.
  split; [by rewrite <- Hid2, <- Hid1 |].
  exists proposed, r1, (do_update sets proposed (clock db1) r1).
  repeat (split; [done |]).
  intros Hfresh. rewrite Hfresh in Hr1. exists proposed1. by subst r1.
Qed.

End Step.
End Store.

(** ** The four statements *)

(** Facts about a literal column list, by enumeration. *)
Ltac by_listing :=
  lazymatch goal with
  | |- forall c, c ∈ ?l -> @?P c =>
      refine (proj1 (Forall_forall P l) _); apply (bool_decide_unpack _);
      vm_compute; exact I
  | |- _ => apply (bool_decide_unpack _); vm_compute; exact I
  end.

Lemma bill_key_listed : forall c, c ∈ bill_key -> c ∈ listed bill_sql.
Proof. by_listing. Qed.

Lemma bill_key_kept : forall c, c ∈ bill_key -> c ∉ assigned bill_sql.
Proof. by_listing. Qed.

Lemma bill_sets_nodup : NoDup (assigned bill_sql).
Proof. by_listing. Qed.

Lemma bill_overwritten_listed :
  forall c, c ∈ overwritten bill_sql -> c ∈ listed bill_sql.
Proof. by_listing. Qed.

Lemma bill_listed_plain :
  forall c, c ∈ listed bill_sql -> c ≠ "created_at" /\ c ≠ "updated_at".
Proof. by_listing. Qed.

Lemma bill_listed_kept :
  forall c, c ∈ listed bill_sql ->
            c ∉ overwritten bill_sql -> c ∉ assigned bill_sql.
Proof. by_listing. Qed.

Lemma amendment_key_listed :
  forall c, c ∈ amendment_key -> c ∈ listed amendment_sql.
Proof. by_listing. Qed.

Lemma amendment_key_kept :
  forall c, c ∈ amendment_key -> c ∉ assigned amendment_sql.
Proof. by_listing. Qed.

Lemma overwritten_excluded sql t columns target sets c :
  sql = InsertOnConflict t columns target sets ->
  Forall (fun a => a.2 = CurrentTimestamp \/ a.2 = Excluded a.1) sets ->
  c ∈ overwritten sql -> (c, Excluded c) ∈ sets.
Proof.
  intros -> Hall. simpl. rewrite list_elem_of_omap.
  intros ([c' src] & Hin & Hsome).
  rewrite Forall_forall in Hall. specialize (Hall _ Hin). simpl in *.
  destruct Hall as [-> | ->]; [discriminate |].
  by injection Hsome as <-.
Qed.

Lemma excluded_named columns :
  Forall (fun a : string * source =>
            a.2 = CurrentTimestamp \/ a.2 = Excluded a.1)
         (excluded columns ++ [("updated_at", CurrentTimestamp)]).
Proof.
  apply Forall_app. split.
  - unfold excluded. apply Forall_fmap, Forall_forall. intros c _. by right.
  - repeat constructor.
Qed.

(** ** Idempotence and the frame of the upsert *)

(** Two upserts of one natural key through any of the statements: the
    row found after the second is the row found after the first, with
    nothing changed outside the assigned columns. *)
Lemma upsert_frame {E : Env} t columns target sets e1 e2 p1 p2
    db i1 db1 i2 db2 :
  (forall c, c ∈ target -> c ∈ columns) ->
  (forall c, c ∈ target -> c ∉ sets.*1) ->
  "created_at" ∉ target -> "updated_at" ∉ target ->
  make_params e1 = Ok p1 ->
  make_params e2 = Ok p2 ->
  key_values target p1 = key_values target p2 ->
  key_present target p2 = true ->
  unique_key target (rows (table_of db t)) ->
  insert_with (InsertOnConflict t columns target sets) e1 db
  = (Ok (Some i1), db1) ->
  insert_with (InsertOnConflict t columns target sets) e2 db1
  = (Ok (Some i2), db2) ->
  exists r1 r2,
    List.filter (key_matches target p2) (rows (table_of db1 t)) = [r1]
    /\ List.filter (key_matches target p2) (rows (table_of db2 t)) = [r2]
    /\ row_id r2 = row_id r1
    /\ (forall c, c ∉ sets.*1 -> row_cols r2 !! c = row_cols r1 !! c)
    /\ key_values target (row_cols r2) = key_values target (row_cols r1).
Proof.
  intros Hl Hk Hc Hu' Hp1 Hp2 Hsame Hkey Hu H1 H2.
  destruct (upsert_twice t columns target sets Hl Hk Hc Hu'
              _ _ _ _ _ _ _ _ _ Hp1 Hp2 Hsame Hkey Hu H1 H2)
    as (_ & proposed & r1 & r2 & _ & Hf1 & Hf2 & _ & -> & _).
  exists r1, (do_update sets proposed (clock db1) r1).
  split; [done |]. split; [done |]. split; [done |].
  split; [intros c Hc'; by apply do_update_other |].
  unfold key_values. apply list_eq_Forall2, Forall2_fmap, Forall_Forall2_diag.
  apply Forall_forall. intros c Hc'. apply do_update_other. by apply Hk.
Qed.

(** C7 — Two ingestions of one natural key, whatever the other fields of
    the two payloads: [insert_bill] and [insert_amendment] find after the
    second call the row they left after the first, with the same id, the
    same natural-key columns, the same [created_at], and every column
    unchanged that the [DO UPDATE SET] clause does not assign. *)
Theorem natural_key_immutable {E : Env} :
  (forall (db db1 db2 : database) (d1 d2 : json)
          (p1 p2 : gmap string sqlval) (i1 i2 : positive),
     unique_key bill_key (rows (table_of db "bills")) ->
     make_params (bill_entries d1) = Ok p1 ->
     make_params (bill_entries d2) = Ok p2 ->
     key_values bill_key p1 = key_values bill_key p2 ->
     key_present bill_key p2 = true ->
     insert_bill d1 db = (Ok (Some i1), db1) ->
     insert_bill d2 db1 = (Ok (Some i2), db2) ->
     exists r1 r2,
       List.filter (key_matches bill_key p2) (rows (table_of db1 "bills"))
       = [r1]
       /\ List.filter (key_matches bill_key p2) (rows (table_of db2 "bills"))
          = [r2]
       /\ row_id r2 = row_id r1
       /\ key_values bill_key (row_cols r2) = key_values bill_key (row_cols r1)
       /\ row_cols r2 !! "created_at" = row_cols r1 !! "created_at"
       /\ forall c, c ∉ assigned bill_sql ->
                    row_cols r2 !! c = row_cols r1 !! c)
  /\ (forall (db db1 db2 : database) (d1 d2 : json)
             (p1 p2 : gmap string sqlval) (i1 i2 : positive),
        unique_key amendment_key (rows (table_of db "amendments")) ->
        make_params (amendment_entries d1) = Ok p1 ->
        make_params (amendment_entries d2) = Ok p2 ->
        key_values amendment_key p1 = key_values amendment_key p2 ->
        key_present amendment_key p2 = true ->
        insert_amendment d1 db = (Ok (Some i1), db1) ->
        insert_amendment d2 db1 = (Ok (Some i2), db2) ->
        exists r1 r2,
          List.filter (key_matches amendment_key p2)
            (rows (table_of db1 "amendments")) = [r1]
          /\ List.filter (key_matches amendment_key p2)
               (rows (table_of db2 "amendments")) = [r2]
          /\ row_id r2 = row_id r1
          /\ key_values amendment_key (row_cols r2)
             = key_values amendment_key (row_cols r1)
          /\ row_cols r2 !! "created_at" = row_cols r1 !! "created_at"
          /\ forall c, c ∉ assigned amendment_sql ->
                       row_cols r2 !! c = row_cols r1 !! c).
Proof.
  split; intros db db1 db2 d1 d2 p1 p2 i1 i2 Hu Hp1 Hp2 Hsame Hkey H1 H2.
  - destruct (upsert_frame "bills" (listed bill_sql) bill_key _ _ _ _ _
                _ _ _ _ _ bill_key_listed bill_key_kept
                ltac:(by_listing) ltac:(by_listing)
                Hp1 Hp2 Hsame Hkey Hu H1 H2)
      as (r1 & r2 & Hf1 & Hf2 & Hid & Hrest & Hkeys).
    exists r1, r2. repeat (split; [done |]).
    split; [| exact Hrest]. apply Hrest. by_listing.
  - destruct (upsert_frame "amendments" (listed amendment_sql) amendment_key
                _ _ _ _ _ _ _ _ _ _ amendment_key_listed amendment_key_kept
                ltac:(by_listing) ltac:(by_listing)
                Hp1 Hp2 Hsame Hkey Hu H1 H2)
      as (r1 & r2 & Hf1 & Hf2 & Hid & Hrest & Hkeys).
    exists r1, r2. repeat (split; [done |]).
    split; [| exact Hrest]. apply Hrest. by_listing.
Qed.

(** ** Pagination *)

Section Pagination.
Context {E : Env}.

Lemma fetch_page_ok all_items url w c data items next :
  client_get (client w) url = (c, Replies data 200) ->
  _extract_items data = Ok items ->
  next_cursor data = Ok next ->
  fetch_page all_items url w = (Some next, all_items ++ items, asked w c url).
Proof.
  intros Hget Hitems Hnext.
  unfold fetch_page, mbind, M_bind, _rate_limit, client_call. simpl.
  by rewrite Hget, Hitems, Hnext.
Qed.

Lemma fetch_page_status all_items url w c data status_code :
  client_get (client w) url = (c, Replies data status_code) ->
  status_code ≠ 200 ->
  fetch_page all_items url w = (None, all_items, asked w c url).
Proof.
  intros Hget Hne.
  unfold fetch_page, mbind, M_bind, _rate_limit, client_call. simpl.
  rewrite Hget. by destruct (Z.eqb_spec status_code 200).
Qed.

Lemma fetch_page_raise all_items url w c e :
  client_get (client w) url = (c, Fails e) ->
  fetch_page all_items url w = (None, all_items, asked w c url).
Proof.
  intros Hget.
  unfold fetch_page, mbind, M_bind, _rate_limit, client_call. simpl.
  by rewrite Hget.
Qed.

(** [k] good pages take the loop [k] passes further. *)
Lemma fetch_loop_follow k : forall fuel max_pages all_items page url w
    pages last c,
  follow k (client w) url = Some (pages, last, c) ->
  (forall j, (j < k)%nat -> under_cap max_pages (page + j) = true) ->
  exists w',
    fetch_loop (k + fuel) max_pages all_items page url w
    = fetch_loop fuel max_pages (all_items ++ concat pages) (page + k) last w'
    /\ client w' = c
    /\ length (requested w') = (length (requested w) + k)%nat
    /\ sleeps w' = (sleeps w + k)%nat
    /\ self_stats w' = self_stats w
    /\ db w' = db w.
Proof.
  induction k as [| k IH]; intros fuel max_pages all_items page url w
    pages last c Hfollow Hcap.
  - injection Hfollow as <- <- <-. exists w. simpl.
    rewrite app_nil_r, !Nat.add_0_r. done.
  - cbn [follow] in Hfollow.
    destruct (truthy url) eqn:Hurl; [| discriminate].
    destruct (client_get (client w) url) as [c1 [e | data status]] eqn:Hget;
      [discriminate |].
    destruct (Z.eqb_spec status 200) as [-> | Hne]; [| discriminate].
    destruct (_extract_items data) as [items |] eqn:Hitems; [| discriminate].
    destruct (next_cursor data) as [next |] eqn:Hnext; [| discriminate].
    destruct (follow k c1 next) as [[[pages' last'] c'] |] eqn:Hrest;
      [| discriminate].
    injection Hfollow as <- <- <-.
    destruct (IH fuel max_pages (all_items ++ items) (S page) next
                (asked w c1 url) pages' last' c' Hrest)
      as (w' & Hloop & Hc & Hreq & Hsl & Hst & Hdb).
    { intros j Hj. replace (S page + j)%nat with (page + S j)%nat by lia.
      apply Hcap. lia. }
    exists w'. split.
    + change (S k + fuel)%nat with (S (k + fuel)). cbn [fetch_loop].
      rewrite Hurl. specialize (Hcap 0%nat ltac:(lia)).
      rewrite Nat.add_0_r in Hcap. rewrite Hcap. simpl andb. cbv iota.
      rewrite (fetch_page_ok _ _ _ _ _ _ _ Hget Hitems Hnext).
      rewrite Hloop. simpl concat. rewrite app_assoc.
      by replace (S page + k)%nat with (page + S k)%nat by lia.
    + split; [done |]. simpl in Hreq, Hsl.
      rewrite length_app in Hreq. simpl in Hreq.
      repeat split; try done; lia.
Qed.

Lemma fetch_loop_stop fuel max_pages all_items page url w :
  truthy url && under_cap max_pages page = false ->
  fetch_loop fuel max_pages all_items page url w = Some (all_items, w).
Proof. intros H. destruct fuel; simpl; by rewrite H. Qed.

Lemma under_cap_mono max_pages j k :
  (j <= k)%nat -> under_cap max_pages k = true ->
  under_cap max_pages j = true.
Proof.
  destruct max_pages as [m |]; simpl; [| done].
  rewrite !Z.ltb_lt. lia.
Qed.

Lemma fetch_page_no_items all_items url w c data e :
  client_get (client w) url = (c, Replies data 200) ->
  _extract_items data = Raise e ->
  fetch_page all_items url w = (None, all_items, asked w c url).
Proof.
  intros Hget Hitems.
  unfold fetch_page, mbind, M_bind, _rate_limit, client_call. simpl.
  by rewrite Hget, Hitems.
Qed.

Lemma fetch_page_no_cursor all_items url w c data items e :
  client_get (client w) url = (c, Replies data 200) ->
  _extract_items data = Ok items ->
  next_cursor data = Raise e ->
  fetch_page all_items url w = (None, all_items ++ items, asked w c url).
Proof.
  intros Hget Hitems Hnext.
  unfold fetch_page, mbind, M_bind, _rate_limit, client_call. simpl.
  by rewrite Hget, Hitems, Hnext.
Qed.


(** C5 — When, after [k] good pages, the request for the next page comes
    back with a status other than 200, or the client raises, or the body
    of a 200 reply makes [_extract_items] raise, [_fetch_paginated]
    returns the items of the [k] pages; when the items of a 200 reply
    were extracted and reading its cursor raises, it returns those of the
    [k] pages followed by the items of that reply, which the list had
    been extended with already. In each case the function returns, and
    the failed request was the last one made. *)
Theorem fetch_paginated_error (endpoint : string) (limit : Z)
    (max_pages : option Z) (w : world) (k fuel : nat)
    (pages : list (list json)) (last : json) (c : cstate) :
  follow k (client w) (JStr (first_url endpoint limit))
  = Some (pages, last, c) ->
  truthy last = true ->
  under_cap max_pages k = true ->
  (k < fuel)%nat ->
  (forall c' r,
     client_get c last = (c', r) ->
     match r with
     | Fails _ => True
     | Replies _ status_code => status_code ≠ 200
     end ->
     exists w',
       _fetch_paginated fuel endpoint limit max_pages w
       = Some (concat pages, w')
       /\ client w' = c'
       /\ length (requested w') = (length (requested w) + S k)%nat)
  /\ (forall c' data e,
        client_get c last = (c', Replies data 200) ->
        _extract_items data = Raise e ->
        exists w',
          _fetch_paginated fuel endpoint limit max_pages w
          = Some (concat pages, w')
          /\ client w' = c'
          /\ length (requested w') = (length (requested w) + S k)%nat)
  /\ (forall c' data items e,
        client_get c last = (c', Replies data 200) ->
        _extract_items data = Ok items ->
        next_cursor data = Raise e ->
        exists w',
          _fetch_paginated fuel endpoint limit max_pages w
          = Some (concat pages ++ items, w')
          /\ client w' = c'
          /\ length (requested w') = (length (requested w) + S k)%nat).
Proof.
  intros Hfollow Hlast Hcap Hfuel.
  destruct (fetch_loop_follow k (fuel - k) max_pages [] 0
              _ w pages last c Hfollow) as (w' & Hloop & Hc & Hreq & _).
  { intros j Hj. apply (under_cap_mono _ _ k); [lia | done]. }
  assert (forall c' kept,
            fetch_page (concat pages) last w'
            = (None, concat pages ++ kept, asked w' c' last) ->
            exists w'',
              _fetch_paginated fuel endpoint limit max_pages w
              = Some (concat pages ++ kept, w'')
              /\ client w'' = c'
              /\ length (requested w'')
                 = (length (requested w) + S k)%nat) as Hend.
  { intros c' kept Hpage. exists (asked w' c' last). unfold _fetch_paginated.
    replace fuel with (k + (fuel - k))%nat by lia.
    rewrite Hloop. simpl app. change (0 + k)%nat with k.
    destruct (fuel - k)%nat as [| fuel'] eqn:Hf; [lia |].
    cbn [fetch_loop]. rewrite Hlast, Hcap. simpl andb. cbv iota.
    rewrite Hpage. split; [done |]. split; [done |].
    simpl. rewrite length_app. simpl. lia. }
  split; [| split].
  - intros c' r Hget Hr. rewrite <- Hc in Hget.
    destruct (Hend c' []) as (w'' & Hres & Hrest);
      [| rewrite app_nil_r in Hres; by exists w''].
    rewrite app_nil_r. destruct r as [e | body status_code].
    + exact (fetch_page_raise _ _ _ _ _ Hget).
    + exact (fetch_page_status _ _ _ _ _ _ Hget Hr).
  - intros c' data e Hget Hitems. rewrite <- Hc in Hget.
    destruct (Hend c' []) as (w'' & Hres & Hrest);
      [| rewrite app_nil_r in Hres; by exists w''].
    rewrite app_nil_r. exact (fetch_page_no_items _ _ _ _ _ _ Hget Hitems).
  - intros c' data items e Hget Hitems Hnext. rewrite <- Hc in Hget.
    apply Hend.
    exact (fetch_page_no_cursor _ _ _ _ _ _ _ Hget Hitems Hnext).
Qed.

End Pagination.

(** ** The item loops and their counters *)

Section Counters.
Context {E : Env}.

Lemma keeps_ret {A X} (f : world -> X) (a : A) : keeps f (mret a).
Proof. by intros w. Qed.

Lemma keeps_lift {A X} (f : world -> X) (r : result A) : keeps f (lift r).
Proof. by intros w. Qed.

Lemma keeps_bind {A B X} (f : world -> X) (m : M A) (k : A -> M B) :
  keeps f m -> (forall a, keeps f (k a)) -> keeps f (m ≫= k).
Proof.
  intros Hm Hk w. unfold mbind, M_bind. specialize (Hm w).
  destruct (m w) as [[a | e] w1]; simpl in *; [| done].
  by rewrite Hk.
Qed.

Lemma keeps_stats_on_db {A} (f : database -> result A * database) :
  keeps_stats (on_db f).
Proof. intros w. unfold on_db. by destruct (f (db w)). Qed.

Lemma keeps_stats_rate_limit : keeps_stats _rate_limit.
Proof. by intros w. Qed.

Lemma keeps_stats_client_call path : keeps_stats (client_call path).
Proof.
  intros w. unfold client_call.
  by destruct (client_get (client w) path) as [c [e | body status]].
Qed.

Create HintDb keeps.
#[local] Hint Resolve keeps_ret keeps_lift keeps_stats_on_db
  keeps_stats_rate_limit keeps_stats_client_call : keeps.

Ltac solve_keeps :=
  repeat first
    [ apply keeps_bind; [| intros ?]
    | match goal with |- keeps _ (if ?b then _ else _) => destruct b end
    | solve [auto with keeps] ].

Lemma keeps_stats_process_bill item : keeps_stats (process_bill item).
Proof. unfold process_bill, enrich_bill. solve_keeps. Qed.

Lemma keeps_stats_process_member item : keeps_stats (process_member item).
Proof. unfold process_member. solve_keeps. Qed.

Lemma keeps_stats_process_amendment item :
  keeps_stats (process_amendment item).
Proof. unfold process_amendment. solve_keeps. Qed.

Lemma keeps_stats_process_committee item :
  keeps_stats (process_committee item).
Proof. unfold process_committee. solve_keeps. Qed.

Lemma count_item_consistent r s n :
  counters_consistent s n -> counters_consistent (count_item r s) (S n).
Proof.
  intros (Hp & He & Hn). destruct r as [[i |] | e]; simpl;
    repeat split; simpl; rewrite ?length_app; simpl; lia.
Qed.

Lemma process_items_consistent process_one items : forall w n,
  (forall item, keeps_stats (process_one item)) ->
  counters_consistent (self_stats w) n ->
  counters_consistent (self_stats (process_items process_one items w))
    (n + length items).
Proof.
  induction items as [| item items IH]; intros w n Hk Hw; simpl.
  - by rewrite Nat.add_0_r.
  - pose proof (Hk item w) as Hitem.
    destruct (process_one item w) as [r w1]. simpl in Hitem.
    replace (n + S (length items))%nat with (S n + length items)%nat by lia.
    apply IH; [done |]. simpl. rewrite Hitem.
    by apply count_item_consistent.
Qed.

Lemma fetch_page_keeps all_items url w next all_items' w' :
  fetch_page all_items url w = (next, all_items', w') ->
  self_stats w' = self_stats w /\ db w' = db w.
Proof.
  unfold fetch_page, mbind, M_bind, _rate_limit, client_call. simpl.
  destruct (client_get (client w) url) as [c [e | data status]].
  - intros [= <- <- <-]. done.
  - destruct (negb (Z.eqb status 200)); [intros [= <- <- <-]; done |].
    destruct (_extract_items data); [| intros [= <- <- <-]; done].
    destruct (next_cursor data); intros [= <- <- <-]; done.
Qed.

Lemma fetch_loop_keeps fuel : forall max_pages all_items page url w items w',
  fetch_loop fuel max_pages all_items page url w = Some (items, w') ->
  self_stats w' = self_stats w /\ db w' = db w.
Proof.
  induction fuel as [| fuel IH]; intros max_pages all_items page url w
    items w'; simpl.
  - destruct (truthy url && under_cap max_pages page); [discriminate |].
    by intros [= <- <-].
  - destruct (truthy url && under_cap max_pages page);
      [| by intros [= <- <-]].
    destruct (fetch_page all_items url w) as [[next acc] w1] eqn:Hpage.
    apply fetch_page_keeps in Hpage as [Hs Hd].
    destruct next as [next |].
    + intros H. apply IH in H as [Hs' Hd']. split; congruence.
    + intros [= <- <-]. done.
Qed.

Lemma finish_stats log_id (tried : result unit * world) s w' :
  finish log_id tried = (Ok s, w') -> s = self_stats tried.2.
Proof.
  unfold finish. destruct tried as [[u | e] w]; simpl.
  - by intros [= <- <-].
  - pose proof (keeps_stats_on_db
                  (update_sync_log log_id "failed" 0 0 0 0 (Some (exn_str e)))
                  w) as Hk.
    destruct (on_db _ w) as [[u | e'] w1]; [| discriminate].
    simpl in Hk. intros [= <- <-]. done.
Qed.

Lemma log_completed_stats log_id w :
  self_stats (log_completed log_id w).2 = self_stats w.
Proof. unfold log_completed. apply keeps_stats_on_db. Qed.

(** The counters of an ingestion that fetched with [_fetch_paginated]. *)
Lemma ingest_consistent fuel log_endpoint parameters endpoint max_pages
    process_one w s w' :
  (forall item, keeps_stats (process_one item)) ->
  ingest (paginated fuel) log_endpoint parameters endpoint max_pages
    process_one w = Some (Ok s, w') ->
  exists log_id w1 items w2,
    on_db (log_sync log_endpoint "bulk" (Some parameters))
      (set_stats zero_stats w) = (Ok log_id, w1)
    /\ _fetch_paginated fuel endpoint 250 max_pages w1 = Some (items, w2)
    /\ counters_consistent s (length items).
Proof.
  intros Hk. unfold ingest.
  pose proof (keeps_stats_on_db
                (log_sync log_endpoint "bulk" (Some parameters))
                (set_stats zero_stats w)) as Hlog.
  destruct (on_db _ (set_stats zero_stats w)) as [[log_id | e] w1];
    [| discriminate].
  simpl in Hlog. unfold fetch_and_process, paginated.
  destruct (_fetch_paginated fuel endpoint 250 max_pages w1)
    as [[items w2] |] eqn:Hfetch; [| discriminate].
  simpl. intros [= H].
  exists log_id, w1, items, w2. split; [done |]. split; [done |].
  apply finish_stats in H. subst s.
  rewrite log_completed_stats.
  apply (process_items_consistent _ _ _ 0%nat); [done |].
  apply fetch_loop_keeps in Hfetch as [-> _]. rewrite Hlog.
  by repeat split.
Qed.

End Counters.

Section Invocations.
Context {E : Env}.

Lemma reset_forgets (s0 : stats) (w : world) :
  set_stats zero_stats (set_stats s0 w) = set_stats zero_stats w.
Proof. reflexivity. Qed.

(** C9 — Whenever one of the four ingestion methods returns its stats:
    processed = created + updated, the error list is as long as the failed
    counter, and processed + failed is the number of items
    [_fetch_paginated] returned (for committees, over the two chambers).
    The stats left by an earlier invocation play no part: every method
    starts from the all-zero stats. *)
Theorem ingestion_counters (fuel : nat) (max_pages : option Z)
    (w : world) (s : stats) (w' : world) :
  (forall congress bill_type from_date to_date,
     ingest_bills fuel congress bill_type from_date to_date max_pages w
     = Some (Ok s, w') ->
     exists log_id w1 items w2,
       on_db (log_sync "bills" "bulk"
                (Some (JObj [("congress", opt_num congress);
                             ("bill_type", opt_str bill_type)])))
         (set_stats zero_stats w) = (Ok log_id, w1)
       /\ _fetch_paginated fuel
            (bills_endpoint congress bill_type from_date to_date)
            250 max_pages w1 = Some (items, w2)
       /\ counters_consistent s (length items))
  /\ (forall congress,
        ingest_members fuel congress max_pages w = Some (Ok s, w') ->
        exists log_id w1 items w2,
          on_db (log_sync "members" "bulk"
                   (Some (JObj [("congress", opt_num congress)])))
            (set_stats zero_stats w) = (Ok log_id, w1)
          /\ _fetch_paginated fuel
               (if truthy (opt_num congress)
                then "member/congress/" +:+ str (opt_num congress)
                else "member")
               250 max_pages w1 = Some (items, w2)
          /\ counters_consistent s (length items))
  /\ (forall congress,
        ingest_amendments fuel congress max_pages w = Some (Ok s, w') ->
        exists log_id w1 items w2,
          on_db (log_sync "amendments" "bulk"
                   (Some (JObj [("congress", opt_num congress)])))
            (set_stats zero_stats w) = (Ok log_id, w1)
          /\ _fetch_paginated fuel
               (if truthy (opt_num congress)
                then "amendment/" +:+ str (opt_num congress)
                else "amendment")
               250 max_pages w1 = Some (items, w2)
          /\ counters_consistent s (length items))
  /\ (ingest_committees fuel max_pages w = Some (Ok s, w') ->
      exists log_id w1 house w2 senate w3,
        on_db (log_sync "committees" "bulk" None) (set_stats zero_stats w)
        = (Ok log_id, w1)
        /\ _fetch_paginated fuel "committee/house" 250 max_pages w1
           = Some (house, w2)
        /\ _fetch_paginated fuel "committee/senate" 250 max_pages
             (process_items process_committee house w2) = Some (senate, w3)
        /\ counters_consistent s (length house + length senate))
  /\ (forall s0 congress bill_type from_date to_date,
        ingest_bills fuel congress bill_type from_date to_date max_pages
          (set_stats s0 w)
        = ingest_bills fuel congress bill_type from_date to_date max_pages w
        /\ ingest_members fuel congress max_pages (set_stats s0 w)
           = ingest_members fuel congress max_pages w
        /\ ingest_amendments fuel congress max_pages (set_stats s0 w)
           = ingest_amendments fuel congress max_pages w
        /\ ingest_committees fuel max_pages (set_stats s0 w)
           = ingest_committees fuel max_pages w).
Proof.
  split; [| split; [| split; [| split]]].
  - intros congress bill_type from_date to_date H.
    apply ingest_consistent in H; [done |].
    apply keeps_stats_process_bill.
  - intros congress H.
    apply ingest_consistent in H; [done |].
    apply keeps_stats_process_member.
  - intros congress H.
    apply ingest_consistent in H; [done |].
    apply keeps_stats_process_amendment.
  - unfold ingest_committees, ingest_committees_with.
    pose proof (keeps_stats_on_db (log_sync "committees" "bulk" None)
                  (set_stats zero_stats w)) as Hlog.
    destruct (on_db _ (set_stats zero_stats w)) as [[log_id | e] w1];
      [| discriminate].
    simpl in Hlog. cbn [process_chambers mbind option_bind].
    unfold paginated. change ("committee/" +:+ "house") with "committee/house".
    change ("committee/" +:+ "senate") with "committee/senate".
    destruct (_fetch_paginated fuel "committee/house" 250 max_pages w1)
      as [[house w2] |] eqn:Hhouse; [| discriminate].
    destruct (_fetch_paginated fuel "committee/senate" 250 max_pages
                (process_items process_committee house w2))
      as [[senate w3] |] eqn:Hsenate; [| discriminate].
    simpl. intros [= H].
    exists log_id, w1, house, w2, senate, w3.
    repeat (split; [done |]).
    apply finish_stats in H. subst s. rewrite log_completed_stats.
    apply process_items_consistent; [apply keeps_stats_process_committee |].
    apply fetch_loop_keeps in Hsenate as [-> _].
    apply (process_items_consistent _ _ _ 0%nat);
      [apply keeps_stats_process_committee |].
    apply fetch_loop_keeps in Hhouse as [-> _]. rewrite Hlog.
    by repeat split.
  - intros s0 congress bill_type from_date to_date. by repeat split.
Qed.

End Invocations.

(** ** What the store lets out *)

Lemma make_params_cons k r entries :
  make_params ((k, r) :: entries)
  = (v ← r; m ← make_params entries; Ok (<[k := v]> m)).
Proof. reflexivity. Qed.

Lemma make_params_ok entries :
  Forall (fun e => exists v, e.2 = Ok v) entries ->
  exists p, make_params entries = Ok p.
Proof.
  induction 1 as [| [k r] entries [v Hv] _ [p IH]].
  - by eexists.
  - simpl in Hv. subst r. rewrite make_params_cons, IH. by eexists.
Qed.

Lemma make_params_raise entries k e rest :
  Forall (fun e => exists v, e.2 = Ok v) entries ->
  make_params (entries ++ (k, Raise e) :: rest) = Raise e.
Proof.
  induction 1 as [| [k' r] entries [v Hv] _ IH]; [done |].
  simpl in Hv. subst r. simpl app. by rewrite make_params_cons, IH.
Qed.

Ltac all_ok :=
  repeat first
    [ apply List.Forall_nil
    | apply List.Forall_cons; [simpl; eexists; reflexivity |] ].

Section Caught.
Context {E : Env}.

Lemma insert_with_returns sql entries p db :
  make_params entries = Ok p ->
  exists r db', insert_with sql entries db = (Ok r, db').
Proof.
  intros Hp. unfold insert_with. rewrite Hp.
  destruct (execute_sql sql p db) as [[res | e] db']; by eexists _, _.
Qed.

Lemma insert_with_fault sql entries p db e :
  make_params entries = Ok p ->
  db_fault db sql p = Some e ->
  insert_with sql entries db = (Ok None, tick db).
Proof.
  intros Hp Hf. unfold insert_with, execute_sql. by rewrite Hp, Hf.
Qed.

Lemma insert_with_raises sql entries e db :
  make_params entries = Raise e ->
  insert_with sql entries db = (Raise e, db).
Proof. intros Hp. unfold insert_with. by rewrite Hp. Qed.

Lemma bill_params_ok d :
  laws_well_formed d = true -> exists p, make_params (bill_entries d) = Ok p.
Proof.
  unfold laws_well_formed. intros H. apply make_params_ok.
  destruct d as [| | | | | kvs]; try discriminate. simpl in H.
  unfold bill_entries, first_law, has_laws, field, field_or, dumps_if,
    dumps_or. simpl.
  destruct (lookup_key "laws" kvs) as [[| b | n | s | [| [] l] | kvs0] |];
    simpl in *; try discriminate;
    try destruct b; try destruct (Z.eqb n 0); try destruct (String.eqb s "");
    try destruct kvs0; simpl in *; try discriminate; all_ok.
Qed.

Lemma bill_params_raise d :
  laws_well_formed d = false -> exists e, make_params (bill_entries d) = Raise e.
Proof.
  unfold laws_well_formed. intros H.
  destruct d as [| | | | | kvs]; try (by eexists).
  simpl in H.
  assert (exists e, first_law (JObj kvs) "number" = Raise e) as [e He].
  { unfold first_law. simpl.
    destruct (lookup_key "laws" kvs) as [[| b | n | s | [| [] l] | kvs0] |];
      simpl in *; try discriminate;
      try destruct b; try destruct (Z.eqb n 0);
      try destruct s as [| a s]; try destruct kvs0;
      simpl in *; try discriminate; by eexists. }
  exists e.
  change (bill_entries (JObj kvs))
    with (take 22 (bill_entries (JObj kvs))
          ++ ("law_number", first_law (JObj kvs) "number")
          :: drop 23 (bill_entries (JObj kvs))).
  rewrite He. apply make_params_raise. simpl. all_ok.
Qed.

Lemma amendment_params_ok d :
  amended_bill_well_formed d = true ->
  exists p, make_params (amendment_entries d) = Ok p.
Proof.
  unfold amended_bill_well_formed. intros H. apply make_params_ok.
  destruct d as [| | | | | kvs]; try discriminate. simpl in H.
  unfold amendment_entries, nested_field, field, dumps_if, dumps_or. simpl.
  destruct (lookup_key "amendedBill" kvs) as [[] |];
    simpl in *; try discriminate; all_ok.
Qed.

Lemma amendment_params_raise d :
  amended_bill_well_formed d = false ->
  exists e, make_params (amendment_entries d) = Raise e.
Proof.
  unfold amended_bill_well_formed. intros H.
  destruct d as [| | | | | kvs]; try (by eexists).
  simpl in H.
  assert (exists e, nested_field (JObj kvs) "amendedBill" "congress" = Raise e)
    as [e He].
  { unfold nested_field. simpl.
    destruct (lookup_key "amendedBill" kvs) as [[] |];
      simpl in *; try discriminate; by eexists. }
  exists e.
  change (amendment_entries (JObj kvs))
    with (take 3 (amendment_entries (JObj kvs))
          ++ ("bill_congress",
              nested_field (JObj kvs) "amendedBill" "congress")
          :: drop 4 (amendment_entries (JObj kvs))).
  rewrite He. apply make_params_raise. simpl. all_ok.
Qed.

(** C10 (as amended) — [insert_member] and [insert_committee] return
    for every input dictionary. [insert_bill] returns when [laws] is
    false or a list starting with an object, [insert_amendment] when
    [amendedBill] is absent or an object; otherwise the exception raised
    while their parameters are built, before the [try], reaches the
    caller. Whatever the statement raises is caught by the four methods
    and becomes [None], the tables unchanged. *)
Theorem store_catches_statement_errors (db : database) :
  (forall kvs, exists r db', insert_member (JObj kvs) db = (Ok r, db'))
  /\ (forall kvs, exists r db', insert_committee (JObj kvs) db = (Ok r, db'))
  /\ (forall d, laws_well_formed d = true ->
                exists r db', insert_bill d db = (Ok r, db'))
  /\ (forall d, amended_bill_well_formed d = true ->
                exists r db', insert_amendment d db = (Ok r, db'))
  /\ (forall sql entries p e,
        make_params entries = Ok p ->
        db_fault db sql p = Some e ->
        insert_with sql entries db = (Ok None, tick db))
  /\ (forall d, laws_well_formed d = false ->
                exists e, insert_bill d db = (Raise e, db))
  /\ (forall d, amended_bill_well_formed d = false ->
                exists e, insert_amendment d db = (Raise e, db)).
Proof.
  repeat split.
  - intros kvs. destruct (make_params_ok (member_entries (JObj kvs)))
      as [p Hp]; [all_ok |].
    by apply (insert_with_returns _ _ p).
  - intros kvs. destruct (make_params_ok (committee_entries (JObj kvs)))
      as [p Hp]; [all_ok |].
    by apply (insert_with_returns _ _ p).
  - intros d Hd. destruct (bill_params_ok d Hd) as [p Hp].
    by apply (insert_with_returns _ _ p).
  - intros d Hd. destruct (amendment_params_ok d Hd) as [p Hp].
    by apply (insert_with_returns _ _ p).
  - intros sql entries p e. apply insert_with_fault.
  - intros d Hd. destruct (bill_params_raise d Hd) as [e He].
    exists e. by apply insert_with_raises.
  - intros d Hd. destruct (amendment_params_raise d Hd) as [e He].
    exists e. by apply insert_with_raises.
Qed.

End Caught.

(** C10 (as stated) fails: a dictionary whose [laws] list starts with a
    number makes [insert_bill] raise. *)
Lemma insert_bill_raises :
  insert_bill (E:=Fixture.strict) (JObj [("laws", JList [JNum 1])])
    empty_database
  = (Raise (AttributeError "'int' object has no attribute 'get'"),
     empty_database).
Proof. reflexivity. Qed.

(** ** The sync log *)

Lemma bind_columns_total columns (p : gmap string sqlval) :
  Forall (fun c => is_Some (p !! c)) columns ->
  exists m, bind_columns columns p = Ok m.
Proof.
  induction 1 as [| c columns [v Hv] _ [m IH]]; simpl.
  - by eexists.
  - rewrite Hv, IH. by eexists.
Qed.

Lemma set_columns_lookup (new : gmap string sqlval) (columns : list string)
    (c : string) : forall cols : gmap string sqlval,
  c ∈ columns \/ cols !! c = Some (default (Bound JNull) (new !! c)) ->
  foldl (fun cols c => <[c := default (Bound JNull) (new !! c)]> cols)
    cols columns !! c
  = Some (default (Bound JNull) (new !! c)).
Proof.
  induction columns as [| c' columns IH]; intros cols H; simpl.
  - destruct H as [H | H]; [by apply elem_of_nil in H | done].
  - apply IH. destruct (decide (c' = c)) as [-> | Hne].
    + right. apply lookup_insert_eq.
    + destruct H as [H | H].
      * apply elem_of_cons in H as [-> | H]; [done | by left].
      * right. by rewrite lookup_insert_ne.
Qed.

Section SyncLog.
Context {E : Env}.

Lemma log_sync_opens db endpoint sync_type parameters :
  (forall p, db_fault db log_insert_sql p = None) ->
  exists i db',
    log_sync endpoint sync_type parameters db = (Ok (Some i), db')
    /\ (exists r, r ∈ rows (table_of db' "api_sync_log") /\ row_id r = i)
    /\ forall t, t ≠ "api_sync_log" -> table_of db' t = table_of db t.
Proof.
  intros Hf. unfold log_sync, execute_sql. rewrite Hf.
  unfold log_insert_sql, run_statement.
  match goal with
  | |- context [bind_columns ?cols ?p] =>
      destruct (bind_columns_total cols p) as [m Hm];
        [ repeat (apply List.Forall_cons; [by eexists |]);
          apply List.Forall_nil
        | rewrite Hm ]
  end.
  simpl. eexists _, _. split; [reflexivity |]. split.
  - rewrite table_of_set. simpl. eexists.
    split; [apply elem_of_app; right; apply list_elem_of_here | reflexivity].
  - intros t Ht. by rewrite table_of_set_ne.
Qed.

Lemma update_sync_log_sets db i status a b c d msg r :
  (forall p, db_fault db log_update_sql p = None) ->
  r ∈ rows (table_of db "api_sync_log") ->
  row_id r = i ->
  exists db',
    update_sync_log (Some i) status a b c d msg db = (Ok tt, db')
    /\ log_row_has db' i status (bound_opt_str msg)
    /\ forall t, t ≠ "api_sync_log" -> table_of db' t = table_of db t.
Proof.
  intros Hf Hr Hid. unfold update_sync_log, execute_sql. rewrite Hf.
  unfold log_update_sql, run_statement.
  match goal with
  | |- context [bind_columns ?cols ?p] =>
      destruct (bind_columns_total cols p) as [m Hm];
        [ repeat (apply List.Forall_cons; [by eexists |]);
          apply List.Forall_nil
        | rewrite Hm;
          pose proof (fun c Hc => proj1 (bind_columns_lookup cols p m c Hm Hc))
            as Hlook ]
  end.
  simpl. eexists. split; [reflexivity |]. split.
  - unfold log_row_has. rewrite table_of_set. simpl.
    exists (set_columns m
              [ "status"; "completed_at"; "records_processed";
                "records_created"; "records_updated"; "records_failed";
                "error_message" ] r).
    split.
    + apply list_elem_of_fmap. exists r. split; [| done].
      rewrite bool_decide_true; [done |].
      rewrite Hlook by apply list_elem_of_here.
      simpl. by rewrite Hid.
    + split; [done |]. unfold set_columns. cbn [row_cols]. split.
      * rewrite set_columns_lookup by (left; by_listing).
        by rewrite Hlook by by_listing.
      * rewrite set_columns_lookup by (left; by_listing).
        by rewrite Hlook by by_listing.
  - intros t Ht. by rewrite table_of_set_ne.
Qed.

End SyncLog.

(** ** The outer [try] of an ingestion *)

Section Fatal.
Context {E : Env}.

Lemma insert_with_elsewhere sql entries db t :
  table_name sql ≠ t ->
  table_of (insert_with sql entries db).2 t = table_of db t.
Proof.
  intros Ht. unfold insert_with.
  destruct (make_params entries) as [p |]; [| done].
  assert (table_of (execute_sql sql p db).2 t = table_of db t) as Hx.
  { unfold execute_sql. destruct (db_fault db sql p); [done |].
    destruct sql as [t0 columns target sets | t0 columns | t0 columns idp];
      simpl in *.
    - destruct (bind_columns columns p) as [m |]; [| done]. simpl.
      destruct (update_conflicting _ _ _ _ _) as [[i rs] |]; simpl;
        by rewrite table_of_set_ne.
    - destruct (bind_columns columns p) as [m |]; [| done]. simpl.
      by rewrite table_of_set_ne.
    - destruct (p !! idp); [| done]. simpl.
      destruct (bind_columns columns p) as [m |]; [| done]. simpl.
      by rewrite table_of_set_ne. }
  by destruct (execute_sql sql p db) as [[res | e] db'].
Qed.

Lemma keeps_log_insert sql entries :
  table_name sql ≠ "api_sync_log" ->
  keeps_log (on_db (insert_with sql entries)).
Proof.
  intros Ht w. unfold on_db, log_table.
  pose proof (insert_with_elsewhere sql entries (db w) _ Ht) as H.
  by destruct (insert_with sql entries (db w)).
Qed.

Lemma keeps_log_rate_limit : keeps_log _rate_limit.
Proof. by intros w. Qed.

Lemma keeps_log_client_call path : keeps_log (client_call path).
Proof.
  intros w. unfold client_call.
  by destruct (client_get (client w) path) as [c [e | body status]].
Qed.

Lemma keeps_log_process_bill item : keeps_log (process_bill item).
Proof.
  unfold process_bill, enrich_bill.
  repeat first
    [ apply keeps_bind; [| intros ?]
    | match goal with |- keeps _ (if ?b then _ else _) => destruct b end
    | apply keeps_ret | apply keeps_lift | apply keeps_log_rate_limit
    | apply keeps_log_client_call
    | apply keeps_log_insert; discriminate ].
Qed.

Lemma process_items_keeps {X} (f : world -> X) process_one items :
  (forall item, keeps f (process_one item)) ->
  (forall s w, f (set_stats s w) = f w) ->
  forall w, f (process_items process_one items w) = f w.
Proof.
  intros Hk Hs. induction items as [| item items IH]; intros w; simpl;
    [done |].
  pose proof (Hk item w) as Hitem.
  destruct (process_one item w) as [r w1]. simpl in Hitem.
  by rewrite IH, Hs.
Qed.

End Fatal.

(** ** What the upsert returns, and how the loop counts it *)

Lemma make_params_dom entries : forall p,
  make_params entries = Ok p ->
  Forall (fun k => is_Some (p !! k)) entries.*1.
Proof.
  induction entries as [| [k r] entries IH]; intros p Hp; [constructor |].
  rewrite make_params_cons in Hp.
  destruct r as [v |]; [| discriminate].
  destruct (make_params entries) as [m |]; [| discriminate].
  injection Hp as <-. simpl. constructor.
  - rewrite lookup_insert_eq. by eexists.
  - eapply Forall_impl; [by apply IH |].
    intros k' Hk'. simpl in Hk'. apply lookup_insert_is_Some.
    destruct (decide (k = k')); auto.
Qed.

Section Returned.
Context {E : Env}.

Lemma insert_bill_returns_id d p db :
  make_params (bill_entries d) = Ok p ->
  db_fault db bill_sql p = None ->
  exists i db', insert_bill d db = (Ok (Some i), db').
Proof.
  intros Hp Hf. unfold insert_bill, insert_with, execute_sql.
  rewrite Hp, Hf.
  destruct (bind_columns_total (listed bill_sql) p) as [m Hm];
    [exact (make_params_dom _ _ Hp) |].
  unfold bill_sql, run_statement. simpl listed in Hm. rewrite Hm. simpl.
  destruct (update_conflicting _ _ _ _ _) as [[j rs] |]; simpl;
    by eexists _, _.
Qed.

Lemma insert_bill_none_is_refusal d p db db' :
  make_params (bill_entries d) = Ok p ->
  insert_bill d db = (Ok None, db') ->
  exists e, db_fault db bill_sql p = Some e.
Proof.
  intros Hp. unfold insert_bill, insert_with, execute_sql. rewrite Hp.
  destruct (db_fault db bill_sql p) as [e |]; [by eexists |].
  destruct (bind_columns_total (listed bill_sql) p) as [m Hm];
    [exact (make_params_dom _ _ Hp) |].
  unfold bill_sql, run_statement. simpl listed in Hm. rewrite Hm. simpl.
  destruct (update_conflicting _ _ _ _ _) as [[j rs] |]; simpl; discriminate.
Qed.

(** The detail fetch touches neither the store nor the stats. *)
Lemma enrich_bill_frame item w r w1 :
  enrich_bill item w = (r, w1) ->
  self_stats w1 = self_stats w /\ db w1 = db w.
Proof.
  unfold enrich_bill, mbind, M_bind, lift, _rate_limit, client_call.
  destruct (lacks_title item) as [[|] |]; try by intros [= <- <-].
  destruct (detail_path item) as [path |]; [| by intros [= <- <-]].
  destruct (truthy (JStr path)); [| by intros [= <- <-]].
  simpl.
  destruct (client_get (client w) (JStr path)) as [c [e | body status]];
    [by intros [= <- <-] |].
  simpl. destruct (get body "bill" item); by intros [= <- <-].
Qed.

(** A new key makes the upsert append. *)
Lemma insert_bill_appends d p db i db' :
  make_params (bill_entries d) = Ok p ->
  List.filter (key_matches bill_key p) (rows (table_of db "bills")) = [] ->
  insert_bill d db = (Ok (Some i), db') ->
  exists r, rows (table_of db' "bills") = rows (table_of db "bills") ++ [r]
            /\ row_id r = i.
Proof.
  intros Hp Hnew Hins. unfold insert_bill, bill_sql in Hins.
  apply insert_with_Some in Hins
    as (p' & proposed & Hp' & Hbind & _ & Hcase).
  rewrite Hp in Hp'. injection Hp' as <-.
  destruct Hcase as [(rs' & Hupd & _) | [_ Hrows]]; [| by eexists].
  apply update_conflicting_Some in Hupd
    as (pre & r0 & post & Hold & Hmatch & _ & _).
  rewrite (key_matches_proposed bill_key _ p proposed r0 bill_key_listed Hbind)
    in Hmatch.
  rewrite Hold, List.filter_app in Hnew. cbn [List.filter] in Hnew.
  rewrite Hmatch in Hnew. by destruct (List.filter _ pre).
Qed.

(** C2 (as amended) — [insert_bill] returns a row identifier and nothing
    else. The identifier is that of the one row holding the payload's
    natural key: of the stored row when the key was stored already (so a
    second ingestion returns what the first returned), of a row appended
    to the table when it was not. A payload whose parameters can be built
    and whose statement the engine accepts always gets an identifier
    back, and [None] comes back only for a statement the engine refused.
    In the bill loop, an item whose payload (the item itself, or what the
    detail fetch put in its place) has a natural key that is not stored
    and is accepted by the engine appends a row to the table and adds one
    to [created] and to [processed]. *)
Theorem upsert_returns_identifier :
  (forall (d : json) (p : gmap string sqlval) (db db' : database)
          (i : positive),
     unique_key bill_key (rows (table_of db "bills")) ->
     make_params (bill_entries d) = Ok p ->
     key_present bill_key p = true ->
     insert_bill d db = (Ok (Some i), db') ->
     exists r,
       List.filter (key_matches bill_key p) (rows (table_of db' "bills")) = [r]
       /\ row_id r = i
       /\ match List.filter (key_matches bill_key p)
                  (rows (table_of db "bills")) with
          | [] => rows (table_of db' "bills")
                  = rows (table_of db "bills") ++ [r]
          | r0 :: _ => row_id r0 = i
          end)
  /\ (forall (db db1 db2 : database) (d1 d2 : json)
             (p1 p2 : gmap string sqlval) (i1 i2 : positive),
        unique_key bill_key (rows (table_of db "bills")) ->
        make_params (bill_entries d1) = Ok p1 ->
        make_params (bill_entries d2) = Ok p2 ->
        key_values bill_key p1 = key_values bill_key p2 ->
        key_present bill_key p2 = true ->
        insert_bill d1 db = (Ok (Some i1), db1) ->
        insert_bill d2 db1 = (Ok (Some i2), db2) ->
        (insert_bill d2 db1).1 = (insert_bill d1 db).1)
  /\ (forall (d : json) (p : gmap string sqlval) (db : database),
        make_params (bill_entries d) = Ok p ->
        db_fault db bill_sql p = None ->
        exists i db', insert_bill d db = (Ok (Some i), db'))
  /\ (forall (d : json) (p : gmap string sqlval) (db db' : database),
        make_params (bill_entries d) = Ok p ->
        insert_bill d db = (Ok None, db') ->
        exists e, db_fault db bill_sql p = Some e)
  /\ (forall (item d : json) (p : gmap string sqlval) (w w1 : world),
        enrich_bill item w = (Ok d, w1) ->
        make_params (bill_entries d) = Ok p ->
        db_fault (db w) bill_sql p = None ->
        List.filter (key_matches bill_key p) (rows (table_of (db w) "bills"))
        = [] ->
        let w' := process_items process_bill [item] w in
        self_stats w' = count_created (self_stats w)
        /\ exists r,
             rows (table_of (db w') "bills")
             = rows (table_of (db w) "bills") ++ [r]).
Proof.
  split; [| split; [| split; [| split]]].
  - intros d p db db' i Hu Hp Hkey Hins.
    destruct (upsert_step "bills" (listed bill_sql) bill_key _
                bill_key_listed bill_key_kept
                ltac:(by_listing) ltac:(by_listing)
                _ _ _ _ _ Hp Hkey Hu Hins)
      as (_ & proposed & r & _ & Hf & Hid & Hwas).
    exists r. split; [exact Hf |]. split; [exact Hid |].
    destruct (List.filter (key_matches bill_key p)
                (rows (table_of db "bills"))) as [| r0 rest] eqn:Hold.
    + destruct (insert_bill_appends d p db i db' Hp Hold Hins)
        as (r' & Hrows & Hid').
      rewrite Hrows. do 2 f_equal.
      rewrite Hrows, List.filter_app, Hold in Hf. cbn [List.filter app] in Hf.
      destruct (key_matches bill_key p r'); [by injection Hf | discriminate].
    + subst r. by rewrite <- Hid.
  - intros db db1 db2 d1 d2 p1 p2 i1 i2 Hu Hp1 Hp2 Hsame Hkey H1 H2.
    destruct (upsert_twice "bills" (listed bill_sql) bill_key _
                bill_key_listed bill_key_kept
                ltac:(by_listing) ltac:(by_listing)
                _ _ _ _ _ _ _ _ _ Hp1 Hp2 Hsame Hkey Hu H1 H2) as [-> _].
    by rewrite H1, H2.
  - intros d p db. apply insert_bill_returns_id.
  - intros d p db db'. apply insert_bill_none_is_refusal.
  - intros item d p w w1 Henrich Hp Hf Hnew.
    destruct (enrich_bill_frame item w _ w1 Henrich) as [Hstats Hdb].
    rewrite <- Hdb in Hf, Hnew.
    destruct (insert_bill_returns_id d p (db w1) Hp Hf) as (i & db' & Hi).
    destruct (insert_bill_appends d p (db w1) i db' Hp Hnew Hi)
      as (r & Hrows & _).
    simpl. unfold process_bill, mbind, M_bind. rewrite Henrich.
    unfold on_db. rewrite Hi. simpl. rewrite Hstats, <- Hdb.
    split; [reflexivity | by exists r].
Qed.

End Returned.

(** C2 (as stated) fails: the same bill ingested a second time is counted
    as created again, not as updated, and the store returns the same value
    for both calls. *)
Lemma reingest_counted_created :
  let w0 := Fixture.start (E:=Fixture.strict) Fixture.one_bill empty_database in
  let run1 := ingest_bills 5 (Some 118) (Some "hr") None None None w0 in
  let run2 := ingest_bills 5 (Some 118) (Some "hr") None None None
                (Fixture.after w0 run1) in
  Fixture.observed run2
  = Some ({| processed := 1; created := 1; updated := 0; failed := 0;
             errors := [] |},
          [(1%positive, Some (Bound (JNum 1)), Some (Bound (JStr "A")))],
          [(1%positive, Some (Bound (JStr "completed")),
            Some (Bound (JNum 0)), Some (Bound JNull));
           (2%positive, Some (Bound (JStr "completed")),
            Some (Bound (JNum 0)), Some (Bound JNull))])
  /\ (insert_bill (E:=Fixture.strict) (Fixture.bill 1 "A") empty_database).1
     = Ok (Some 1%positive)
  /\ (insert_bill (E:=Fixture.strict) (Fixture.bill 1 "B")
        Fixture.stored_once).1
     = Ok (Some 1%positive).
Proof. vm_compute. done. Qed.

(** ** A batch with an item that lacks its natural key *)

(** A bill item that has a title and well-formed [laws] never reaches the
    [except] clause of the loop, whatever the engine does with its
    natural key. *)
Lemma titled_bill_never_fails {E : Env} (item : json) (w : world) :
  lacks_title item = Ok false ->
  laws_well_formed item = true ->
  exists r w', process_bill item w = (Ok r, w').
Proof.
  intros Hlack Hlaws.
  destruct (bill_params_ok item Hlaws) as [p Hp].
  destruct (insert_with_returns bill_sql _ p (db w) Hp) as (r & db' & Hi).
  unfold process_bill, enrich_bill, mbind, M_bind, lift.
  rewrite Hlack. simpl. unfold on_db, insert_bill. rewrite Hi.
  by eexists _, _.
Qed.

(** C3 — The batch of the claim, run on the code: three bills on one
    page, the second without [type]. With natural-key columns declared
    NOT NULL the statement for item 2 is refused; [insert_bill] turns the
    refusal into [None] and the loop counts the item as updated and
    processed: failed stays 0 and the error list empty, where the claim
    has failed = 1 and one error. With an engine that accepts the NULL
    key, item 2 is stored and counted as created. Either way the other
    two bills are stored and the run is logged as completed. With any
    engine, an item like item 2 (a title, no [type]) leaves the failed
    counter and the error list as they were. *)
Theorem missing_key_is_not_counted_failed :
  Fixture.observed
    (ingest_bills (E:=Fixture.strict) 5 (Some 118) (Some "hr") None None None
       (Fixture.start (E:=Fixture.strict) Fixture.three_bills empty_database))
  = Some ({| processed := 3; created := 2; updated := 1; failed := 0;
             errors := [] |},
          [(1%positive, Some (Bound (JNum 1)), Some (Bound (JStr "A")));
           (2%positive, Some (Bound (JNum 3)), Some (Bound (JStr "C")))],
          [(1%positive, Some (Bound (JStr "completed")),
            Some (Bound (JNum 0)), Some (Bound JNull))])
  /\ Fixture.observed
       (ingest_bills (E:=Fixture.lenient) 5 (Some 118) (Some "hr")
          None None None
          (Fixture.start (E:=Fixture.lenient) Fixture.three_bills
             empty_database))
     = Some ({| processed := 3; created := 3; updated := 0; failed := 0;
                errors := [] |},
             [(1%positive, Some (Bound (JNum 1)), Some (Bound (JStr "A")));
              (2%positive, Some (Bound (JNum 2)), Some (Bound (JStr "B")));
              (3%positive, Some (Bound (JNum 3)), Some (Bound (JStr "C")))],
             [(1%positive, Some (Bound (JStr "completed")),
               Some (Bound (JNum 0)), Some (Bound JNull))])
  /\ (forall (E : Env) (w : world),
        let s := self_stats
                   (process_items process_bill [Fixture.untyped_bill 2 "B"] w) in
        failed s = failed (self_stats w)
        /\ errors s = errors (self_stats w)
        /\ processed s = S (processed (self_stats w))).
Proof.
  split; [by vm_compute |]. split; [by vm_compute |].
  intros E w.
  destruct (titled_bill_never_fails (Fixture.untyped_bill 2 "B") w
              eq_refl eq_refl) as (r & w' & Hp).
  pose proof (keeps_stats_process_bill (Fixture.untyped_bill 2 "B") w) as Hk.
  cbn [process_items]. rewrite Hp in *. simpl in Hk. cbn [self_stats set_stats].
  rewrite Hk. by destruct r as [i |].
Qed.

(** ** Enrichment *)

Section Enrichment.
Context {E : Env}.

(** C8 (as amended) — An item that has a title is processed as it is.
    An item that lacks one and has no [url], or whose [url] is exactly
    the API prefix, is processed as it is. Otherwise the detail is
    fetched from the [url] without the prefix and, when the reply has
    status 200, the item is replaced by the [bill] entry of the body
    (kept as it is when the body has no such entry): nothing of the
    listed item is merged in. When the client raises, the exception
    leaves [process_bill] and the loop counts the item as failed. *)
Theorem enrichment_replaces_item (item : json) (w : world) :
  (lacks_title item = Ok false -> enrich_bill item w = (Ok item, w))
  /\ (forall kvs, item = JObj kvs -> lacks_title item = Ok true ->
                  lookup_key "url" kvs = None ->
                  enrich_bill item w = (Ok item, w))
  /\ (lacks_title item = Ok true -> detail_path item = Ok "" ->
      enrich_bill item w = (Ok item, w))
  /\ (forall path c body,
        lacks_title item = Ok true ->
        detail_path item = Ok path -> path ≠ "" ->
        client_get (client w) (JStr path) = (c, Replies (JObj body) 200) ->
        enrich_bill item w
        = (Ok (default item (lookup_key "bill" body)), asked w c (JStr path)))
  /\ (forall path c e,
        lacks_title item = Ok true ->
        detail_path item = Ok path -> path ≠ "" ->
        client_get (client w) (JStr path) = (c, Fails e) ->
        process_bill item w = (Raise e, asked w c (JStr path))
        /\ self_stats (process_items process_bill [item] w)
           = count_failed e (self_stats w)).
Proof.
  assert (forall path, path ≠ "" -> truthy (JStr path) = true) as Htruthy.
  { intros [| a path] Hne; [done | reflexivity]. }
  split; [| split; [| split; [| split]]].
  - intros Hlack. unfold enrich_bill.
    unfold mbind, M_bind, lift. by rewrite Hlack.
  - intros kvs -> Hlack Hurl. unfold enrich_bill.
    unfold mbind, M_bind, lift, detail_path. rewrite Hlack. simpl.
    by rewrite Hurl.
  - intros Hlack Hpath. unfold enrich_bill.
    unfold mbind, M_bind, lift. by rewrite Hlack, Hpath.
  - intros path c body Hlack Hpath Hne Hget.
    unfold enrich_bill.
    unfold mbind, M_bind, lift, _rate_limit, client_call.
    rewrite Hlack, Hpath, (Htruthy _ Hne). simpl. by rewrite Hget.
  - intros path c e Hlack Hpath Hne Hget.
    assert (process_bill item w = (Raise e, asked w c (JStr path))) as Hp.
    { unfold process_bill. unfold enrich_bill.
      unfold mbind, M_bind, lift, _rate_limit, client_call.
      rewrite Hlack, Hpath, (Htruthy _ Hne). simpl. by rewrite Hget. }
    split; [exact Hp |]. simpl. by rewrite Hp.
Qed.

End Enrichment.

(** C8 (as stated) fails twice. The listed bill 7 has no title; its
    detail is fetched and the item becomes the detail's [bill] object,
    which is not the merge of the two: the [number] and [url] of the
    listed item are gone. And a detail fetch that fails with status 500
    does not make the item fail: the reply is taken for a detail without
    [bill] entry, and the listed item is stored without title and counted
    as created. *)
Lemma enrichment_is_not_a_merge :
  (enrich_bill (E:=Fixture.strict) Fixture.listed
     (Fixture.start (E:=Fixture.strict) Fixture.with_detail
        empty_database)).1
  = Ok Fixture.detail
  /\ Fixture.detail ≠ spec_merge Fixture.listed Fixture.detail
  /\ get Fixture.detail "number" JNull = Ok JNull
  /\ get (spec_merge Fixture.listed Fixture.detail) "number" JNull
     = Ok (JNum 7)
  /\ (let w :=
        process_items (E:=Fixture.strict) process_bill [Fixture.listed]
          (Fixture.start (E:=Fixture.strict) Sample.detail_unavailable
             empty_database) in
      self_stats w = {| processed := 1; created := 1; updated := 0;
                        failed := 0; errors := [] |}
      /\ requested w = [JStr "bill/118/hr/7"]
      /\ Fixture.bills_stored w
         = [(1%positive, Some (Bound (JNum 7)), Some (Bound JNull))]).
Proof.
  split; [reflexivity |]. split; [discriminate |].
  split; [reflexivity |]. split; [reflexivity |].
  vm_compute. done.
Qed.

(** ** The theorems at concrete inputs *)

Lemma natural_key_immutable_witness :
  (exists r1 r2,
     List.filter
       (key_matches bill_key
          (Fixture.params_of (bill_entries (Fixture.bill 1 "B"))))
       (rows (table_of Fixture.stored_once "bills")) = [r1]
     /\ List.filter
          (key_matches bill_key
             (Fixture.params_of (bill_entries (Fixture.bill 1 "B"))))
          (rows (table_of Fixture.stored_twice "bills")) = [r2]
     /\ row_id r2 = row_id r1
     /\ key_values bill_key (row_cols r2) = key_values bill_key (row_cols r1)
     /\ row_cols r2 !! "created_at" = row_cols r1 !! "created_at"
     /\ forall c, c ∉ assigned bill_sql ->
                  row_cols r2 !! c = row_cols r1 !! c)
  /\ (exists r1 r2,
        List.filter
          (key_matches amendment_key
             (Fixture.params_of
                (amendment_entries (Fixture.amendment "second"))))
          (rows (table_of Fixture.amended_once "amendments")) = [r1]
        /\ List.filter
             (key_matches amendment_key
                (Fixture.params_of
                   (amendment_entries (Fixture.amendment "second"))))
             (rows (table_of Fixture.amended_twice "amendments")) = [r2]
        /\ row_id r2 = row_id r1
        /\ key_values amendment_key (row_cols r2)
           = key_values amendment_key (row_cols r1)
        /\ row_cols r2 !! "created_at" = row_cols r1 !! "created_at"
        /\ forall c, c ∉ assigned amendment_sql ->
                     row_cols r2 !! c = row_cols r1 !! c).
Proof.
  split.
  - apply (proj1 (natural_key_immutable (E:=Fixture.strict))
             empty_database Fixture.stored_once Fixture.stored_twice
             (Fixture.bill 1 "A") (Fixture.bill 1 "B")
             (Fixture.params_of (bill_entries (Fixture.bill 1 "A")))
             (Fixture.params_of (bill_entries (Fixture.bill 1 "B")))
             1%positive 1%positive).
    + intros p. vm_compute. lia.
    + reflexivity.
    + reflexivity.
    + reflexivity.
    + reflexivity.
    + reflexivity.
    + reflexivity.
  - apply (proj2 (natural_key_immutable (E:=Fixture.strict))
             empty_database Fixture.amended_once Fixture.amended_twice
             (Fixture.amendment "first") (Fixture.amendment "second")
             (Fixture.params_of
                (amendment_entries (Fixture.amendment "first")))
             (Fixture.params_of
                (amendment_entries (Fixture.amendment "second")))
             1%positive 1%positive).
    + intros p. vm_compute. lia.
    + reflexivity.
    + reflexivity.
    + reflexivity.
    + reflexivity.
    + reflexivity.
    + reflexivity.
Defined.


Lemma fetch_paginated_error_witness :
  (let w0 := Fixture.start (E:=Fixture.strict) Fixture.page_then_error
               empty_database in
   exists w',
     _fetch_paginated 5 "bill/118/hr" 250 None w0
     = Some ([Fixture.bill 1 "A"; Fixture.bill 2 "B"], w')
     /\ client w' = Fixture.page_then_error
     /\ length (requested w') = 2%nat)
  /\ (let w0 := Fixture.start (E:=Fixture.strict) Fixture.page_then_null
                  empty_database in
      exists w',
        _fetch_paginated 5 "bill/118/hr" 250 None w0
        = Some ([Fixture.bill 1 "A"; Fixture.bill 2 "B"], w')
        /\ client w' = Fixture.page_then_null
        /\ length (requested w') = 2%nat)
  /\ (let w0 := Fixture.start (E:=Fixture.strict) Fixture.page_then_no_cursor
                  empty_database in
      exists w',
        _fetch_paginated 5 "bill/118/hr" 250 None w0
        = Some ([Fixture.bill 1 "A"; Fixture.bill 2 "B"; Fixture.bill 3 "C"],
                w')
        /\ client w' = Fixture.page_then_no_cursor
        /\ length (requested w') = 2%nat).
Proof.
  split; [| split]; intros w0.
  - apply (proj1 (fetch_paginated_error (E:=Fixture.strict) "bill/118/hr"
                    250 None w0 1 5 [[Fixture.bill 1 "A"; Fixture.bill 2 "B"]]
                    (JStr "bill/118/hr?offset=2") Fixture.page_then_error
                    eq_refl eq_refl eq_refl ltac:(lia))
             Fixture.page_then_error
             (Replies (JObj [("error", JStr "busy")]) 500)).
    + reflexivity.
    + simpl. lia.
  - apply (proj1 (proj2 (fetch_paginated_error (E:=Fixture.strict)
                           "bill/118/hr" 250 None w0 1 5
                           [[Fixture.bill 1 "A"; Fixture.bill 2 "B"]]
                           (JStr "bill/118/hr?offset=2")
                           Fixture.page_then_null
                           eq_refl eq_refl eq_refl ltac:(lia)))
             Fixture.page_then_null JNull
             (TypeError "argument of type 'NoneType' is not iterable")).
    + reflexivity.
    + reflexivity.
  - apply (proj2 (proj2 (fetch_paginated_error (E:=Fixture.strict)
                           "bill/118/hr" 250 None w0 1 5
                           [[Fixture.bill 1 "A"; Fixture.bill 2 "B"]]
                           (JStr "bill/118/hr?offset=2")
                           Fixture.page_then_no_cursor
                           eq_refl eq_refl eq_refl ltac:(lia)))
             Fixture.page_then_no_cursor
             (JObj [ ("bills", JList [Fixture.bill 3 "C"]);
                     ("pagination", JNull) ])
             [Fixture.bill 3 "C"]
             (AttributeError "'NoneType' object has no attribute 'get'")).
    + reflexivity.
    + reflexivity.
    + reflexivity.
Defined.

Lemma ingestion_counters_witness :
  let w0 := Fixture.start (E:=Fixture.strict) Fixture.one_bill
              empty_database in
  exists log_id (w1 : @world Fixture.strict) items w2,
    on_db (log_sync (E:=Fixture.strict) "bills" "bulk"
             (Some (JObj [("congress", opt_num (Some 118));
                          ("bill_type", opt_str (Some "hr"))])))
      (set_stats zero_stats w0) = (Ok log_id, w1)
    /\ _fetch_paginated 5 (bills_endpoint (Some 118) (Some "hr") None None)
         250 None w1 = Some (items, w2)
    /\ counters_consistent
         {| processed := 1; created := 1; updated := 0; failed := 0;
            errors := [] |}
         (length items).
Proof.
  intros w0.
  apply (proj1 (ingestion_counters (E:=Fixture.strict) 5 None w0
                  {| processed := 1; created := 1; updated := 0; failed := 0;
                     errors := [] |}
                  (Fixture.after w0
                     (ingest_bills 5 (Some 118) (Some "hr") None None None
                        w0)))
           (Some 118) (Some "hr") None None).
  reflexivity.
Defined.

Lemma store_catches_statement_errors_witness :
  (exists r db',
     insert_bill (E:=Fixture.strict) (Fixture.bill 1 "A") empty_database
     = (Ok r, db'))
  /\ insert_bill (E:=Fixture.strict) (Fixture.untyped_bill 2 "B")
       empty_database
     = (Ok None, tick empty_database).
Proof.
  split.
  - apply (proj1 (proj2 (proj2 (store_catches_statement_errors
                                  (E:=Fixture.strict) empty_database)))
             (Fixture.bill 1 "A")).
    reflexivity.
  - apply (proj1 (proj2 (proj2 (proj2 (proj2
             (store_catches_statement_errors
                (E:=Fixture.strict) empty_database)))))
             bill_sql (bill_entries (Fixture.untyped_bill 2 "B"))
             (Fixture.params_of (bill_entries (Fixture.untyped_bill 2 "B")))
             (DatabaseFailure "null value violates not-null constraint")).
    + reflexivity.
    + reflexivity.
Defined.

Lemma upsert_returns_identifier_witness :
  exists r,
    List.filter
      (key_matches bill_key (Fixture.params_of (bill_entries (Fixture.bill 1 "B"))))
      (rows (table_of Fixture.stored_twice "bills")) = [r]
    /\ row_id r = 1%positive
    /\ match List.filter
               (key_matches bill_key
                  (Fixture.params_of (bill_entries (Fixture.bill 1 "B"))))
               (rows (table_of Fixture.stored_once "bills")) with
       | [] => rows (table_of Fixture.stored_twice "bills")
               = rows (table_of Fixture.stored_once "bills") ++ [r]
       | r0 :: _ => row_id r0 = 1%positive
       end.
Proof.
  apply (proj1 (upsert_returns_identifier (E:=Fixture.strict))
           (Fixture.bill 1 "B")
           (Fixture.params_of (bill_entries (Fixture.bill 1 "B")))
           Fixture.stored_once Fixture.stored_twice 1%positive).
  - intros p. eapply Nat.le_trans; [apply filter_length_le |].
    vm_compute. lia.
  - reflexivity.
  - reflexivity.
  - reflexivity.
Defined.

Lemma enrichment_replaces_item_witness :
  let w0 := Fixture.start (E:=Fixture.strict) Fixture.with_detail
              empty_database in
  let w1 := Fixture.start (E:=Fixture.strict) Fixture.failing_detail
              empty_database in
  enrich_bill Fixture.listed w0
  = (Ok (default Fixture.listed
           (lookup_key "bill" [("bill", Fixture.detail)])),
     asked w0 Fixture.with_detail (JStr "bill/118/hr/7"))
  /\ process_bill Fixture.listed w1
     = (Raise (TransportFailure "connection reset"),
        asked w1 Fixture.failing_detail (JStr "bill/118/hr/7"))
  /\ self_stats (process_items process_bill [Fixture.listed] w1)
     = count_failed (TransportFailure "connection reset") (self_stats w1).
Proof.
  intros w0 w1. split.
  - apply (proj1 (proj2 (proj2 (proj2
             (enrichment_replaces_item (E:=Fixture.strict)
                Fixture.listed w0))))
             "bill/118/hr/7" Fixture.with_detail
             [("bill", Fixture.detail)]).
    + reflexivity.
    + reflexivity.
    + discriminate.
    + reflexivity.
  - apply (proj2 (proj2 (proj2 (proj2
             (enrichment_replaces_item (E:=Fixture.strict)
                Fixture.listed w1))))
             "bill/118/hr/7" Fixture.failing_detail
             (TransportFailure "connection reset")).
    + reflexivity.
    + reflexivity.
    + discriminate.
    + reflexivity.
Defined.

(** * Further properties *)

(** ** Invariants of the store *)

Lemma update_conflicting_ids target sets proposed now rs i rs' :
  update_conflicting target sets proposed now rs = Some (i, rs') ->
  row_id <$> rs' = row_id <$> rs /\ i ∈ row_id <$> rs.
Proof.
  intros H. apply update_conflicting_Some in H
    as (pre & r & post & -> & _ & -> & ->).
  rewrite !fmap_app. simpl. split; [done |].
  apply elem_of_app. right. apply list_elem_of_here.
Qed.

Lemma ids_fresh_same_ids rs rs' n :
  row_id <$> rs' = row_id <$> rs ->
  ids_fresh {| rows := rs; next_id := n |} ->
  ids_fresh {| rows := rs'; next_id := n |}.
Proof.
  unfold ids_fresh. simpl. intros Hids [Hlt Hnd]. split; [| by rewrite Hids].
  apply (Forall_fmap row_id (fun i => (i < n)%positive)).
  rewrite Hids.
  by apply (Forall_fmap row_id (fun i => (i < n)%positive)).
Qed.

Lemma ids_fresh_insert now proposed tb :
  ids_fresh tb -> ids_fresh (insert_row now proposed tb).2.
Proof.
  unfold ids_fresh. simpl. intros [Hlt Hnd]. split.
  - apply Forall_app. split.
    + eapply Forall_impl; [exact Hlt |]. intros r Hr. simpl in Hr. lia.
    + repeat constructor. simpl. lia.
  - rewrite fmap_app. simpl. apply NoDup_app. split; [done |]. split.
    + intros i Hi Hi'. apply list_elem_of_singleton in Hi'. subst i.
      apply list_elem_of_fmap in Hi as (r & Hr & Hin).
      rewrite Forall_forall in Hlt. specialize (Hlt _ Hin). lia.
    + apply NoDup_singleton.
Qed.

Lemma ids_fresh_empty : ids_fresh empty_table.
Proof. split; constructor. Qed.

Lemma table_of_tick db t : table_of (tick db) t = table_of db t.
Proof. reflexivity. Qed.

Lemma table_of_set_table db t t' tb :
  table_of (set_table db t tb) t' = if decide (t = t') then tb else table_of db t'.
Proof.
  unfold table_of, set_table. simpl. rewrite lookup_insert.
  by destruct (decide (t = t')).
Qed.

Section StoreInvariants.
Context {E : Env}.

(** X1 — Every statement that goes through [execute_sql], whatever its
    parameters and whether it is committed or rolled back, leaves in every
    table ids that are pairwise distinct and below the table's sequence;
    the empty database starts that way. *)
Theorem execute_sql_keeps_ids_fresh (sql : statement)
    (params : gmap string sqlval) (db : database) :
  (forall t, ids_fresh (table_of db t)) ->
  forall t, ids_fresh (table_of (execute_sql sql params db).2 t).
Proof.
  intros Hdb t. unfold execute_sql.
  destruct (db_fault db sql params); [apply Hdb |].
  destruct sql as [t0 columns target sets | t0 columns | t0 columns idp];
    simpl.
  - destruct (bind_columns columns params) as [m |]; simpl; [| apply Hdb].
    destruct (update_conflicting target sets m (clock db)
                (rows (table_of db t0))) as [[i rs] |] eqn:Hup; simpl;
      rewrite table_of_tick, table_of_set_table;
      destruct (decide (t0 = t)) as [-> | _]; try apply Hdb.
    + apply update_conflicting_ids in Hup as [Hids _].
      apply (ids_fresh_same_ids (rows (table_of db t))); [done |].
      specialize (Hdb t). by destruct (table_of db t).
    + apply (ids_fresh_insert (clock db) m), Hdb.
  - destruct (bind_columns columns params) as [m |]; simpl; [| apply Hdb].
    rewrite table_of_tick, table_of_set_table.
    destruct (decide (t0 = t)) as [-> | _]; [| apply Hdb].
    apply (ids_fresh_insert (clock db) m), Hdb.
  - destruct (params !! idp) as [v |]; simpl; [| apply Hdb].
    destruct (bind_columns columns params) as [m |]; simpl; [| apply Hdb].
    rewrite table_of_tick, table_of_set_table.
    destruct (decide (t0 = t)) as [-> | _]; [| apply Hdb].
    apply (ids_fresh_same_ids (rows (table_of db t))).
    + change (map ?f ?l) with (f <$> l).
      rewrite <- list_fmap_compose. apply list_fmap_ext. intros j r _.
      simpl. by destruct (bool_decide _).
    + specialize (Hdb t). by destruct (table_of db t).
Qed.

End StoreInvariants.

Lemma execute_sql_keeps_ids_fresh_witness :
  ids_fresh
    (table_of
       (execute_sql (E:=Fixture.strict) bill_sql
          (Fixture.params_of (bill_entries (Fixture.bill 1 "A")))
          empty_database).2 "bills").
Proof.
  apply (execute_sql_keeps_ids_fresh (E:=Fixture.strict)).
  intros t. unfold table_of. simpl. rewrite lookup_empty. simpl.
  apply ids_fresh_empty.
Defined.

(** ** Uniqueness of the natural key, whatever is upserted *)

(** A row whose key has a NULL conflicts with no proposal. *)
Lemma key_absent_never_matches (target : list string)
    (p : gmap string sqlval) (r : row) (q : gmap string sqlval) :
  key_present target p = false ->
  (forall c, c ∈ target -> row_cols r !! c = p !! c) ->
  key_matches target q r = false.
Proof.
  unfold key_present, key_matches. intros Hp Hsame.
  apply not_true_is_false. intros Hq.
  rewrite forallb_forall in Hq.
  assert (forallb (fun c => match p !! c with
                            | Some v => negb (is_null v)
                            | None => false
                            end) target = true) as Hall; [| congruence].
  apply forallb_forall. intros c Hc. specialize (Hq c Hc).
  rewrite Hsame in Hq by by apply list_elem_of_In.
  destruct (q !! c) as [a |]; [| discriminate].
  destruct (p !! c) as [b |]; [| discriminate].
  apply andb_true_iff in Hq as [Ha Hab]. apply sqlval_eqb_eq in Hab.
  by subst b.
Qed.

Lemma new_row_key (target columns : list string) (p proposed : gmap string sqlval)
    (now : nat) (i : positive) :
  (forall c, c ∈ target -> c ∈ columns) ->
  "created_at" ∉ target -> "updated_at" ∉ target ->
  bind_columns columns p = Ok proposed ->
  forall c, c ∈ target -> row_cols (new_row i now proposed) !! c = p !! c.
Proof.
  intros Hl Hc Hu Hb c Hin. simpl. unfold with_defaults.
  rewrite !lookup_insert_ne by (intros <-; auto).
  by destruct (bind_columns_lookup _ _ _ c Hb (Hl _ Hin)).
Qed.

Section KeysStayUnique.
Context {E : Env}.
Variables (t : string) (columns target : list string)
          (sets : list (string * source)).
Hypothesis target_listed : forall c, c ∈ target -> c ∈ columns.
Hypothesis sets_off_target : forall c, c ∈ target -> c ∉ sets.*1.
Hypothesis created_off_target : "created_at" ∉ target.
Hypothesis updated_off_target : "updated_at" ∉ target.

Lemma upsert_keeps_unique p db :
  unique_key target (rows (table_of db t)) ->
  unique_key target
    (rows (table_of
             (execute_sql (InsertOnConflict t columns target sets) p db).2 t)).
Proof.
  intros Hu. unfold execute_sql.
  destruct (db_fault db _ p); [done |]. simpl.
  destruct (bind_columns columns p) as [m |] eqn:Hb; simpl; [| done].
  destruct (update_conflicting target sets m (clock db)
              (rows (table_of db t))) as [[i rs] |] eqn:Hup; simpl;
    rewrite table_of_set; simpl.
  - apply update_conflicting_Some in Hup
      as (pre & r & post & Hrs & _ & _ & ->).
    rewrite Hrs in Hu. by apply unique_key_update.
  - apply update_conflicting_None in Hup.
    fold (new_row (next_id (table_of db t)) (clock db) m).
    pose proof (new_row_key target columns p m (clock db)
                  (next_id (table_of db t)) target_listed
                  created_off_target updated_off_target Hb) as Hkey.
    destruct (key_present target p) eqn:Hp.
    + apply (unique_key_insert target p); [done | |].
      * eapply Forall_impl; [exact Hup |]. intros x Hx. simpl in Hx.
        by rewrite (key_matches_proposed _ columns p) in Hx.
      * apply key_matches_new; try done.
        intros c Hc.
        by destruct (bind_columns_lookup _ _ _ c Hb (target_listed _ Hc)).
    + intros q. specialize (Hu q).
      rewrite List.filter_app, length_app. simpl.
      rewrite (key_absent_never_matches target p _ q Hp Hkey). simpl. lia.
Qed.

Lemma insert_with_keeps_unique entries db :
  unique_key target (rows (table_of db t)) ->
  unique_key target
    (rows (table_of
             (insert_with (InsertOnConflict t columns target sets) entries db).2
             t)).
Proof.
  intros Hu. unfold insert_with.
  destruct (make_params entries) as [p |]; [| done].
  pose proof (upsert_keeps_unique p db Hu) as H.
  by destruct (execute_sql _ p db) as [[res | e] db'].
Qed.

(** What an upsert that returned [None] did: nothing. *)
Lemma insert_with_none entries db db' :
  insert_with (InsertOnConflict t columns target sets) entries db
  = (Ok None, db') ->
  tables db' = tables db.
Proof.
  unfold insert_with, execute_sql.
  destruct (make_params entries) as [p |]; [| discriminate].
  destruct (db_fault db _ p); [by intros [= <-] |]. simpl.
  destruct (bind_columns columns p) as [m |]; simpl; [| by intros [= <-]].
  destruct (update_conflicting target sets m (clock db)
              (rows (table_of db t))) as [[i rs] |]; simpl; discriminate.
Qed.

(** An accepted upsert whose key has a NULL appends a row. *)
Lemma insert_with_null_key entries p db i db' :
  make_params entries = Ok p ->
  key_present target p = false ->
  insert_with (InsertOnConflict t columns target sets) entries db
  = (Ok (Some i), db') ->
  rows (table_of db' t)
  = rows (table_of db t)
    ++ [new_row i (clock db)
          (proposed_of (InsertOnConflict t columns target sets) p)].
Proof.
  intros Hp Hkey H.
  apply insert_with_Some in H
    as (p' & proposed & Hp' & Hb & _ & [(rs' & Hup & _) | (Hup & Hrows)]);
    rewrite Hp in Hp'; injection Hp' as <-.
  - apply update_conflicting_Some in Hup as (pre & r & post & _ & Hm & _).
    rewrite (key_matches_proposed _ columns p) in Hm by done.
    exfalso. revert Hm Hkey. unfold key_matches, key_present.
    rewrite forallb_forall. intros Hm Hkey.
    apply not_true_iff_false in Hkey. apply Hkey, forallb_forall.
    intros c Hc. specialize (Hm c Hc).
    destruct (p !! c); [| done].
    destruct (row_cols r !! c); [| done].
    by apply andb_true_iff in Hm as [-> _].
  - unfold proposed_of. simpl. by rewrite Hb.
Qed.

End KeysStayUnique.

Lemma member_key_listed : forall c, c ∈ member_key -> c ∈ listed member_sql.
Proof. by_listing. Qed.

Lemma member_key_kept : forall c, c ∈ member_key -> c ∉ assigned member_sql.
Proof. by_listing. Qed.

Lemma committee_key_listed :
  forall c, c ∈ committee_key -> c ∈ listed committee_sql.
Proof. by_listing. Qed.

Lemma committee_key_kept :
  forall c, c ∈ committee_key -> c ∉ assigned committee_sql.
Proof. by_listing. Qed.

(** X2 — Whatever payload one of the four [insert_*] methods is given, and
    whether it returns an id, [None] or raises, no two rows of its table
    carry the same natural key afterwards if none did before. *)
Theorem inserts_keep_keys_unique {E : Env} (d : json) (db : database) :
  (unique_key bill_key (rows (table_of db "bills")) ->
   unique_key bill_key (rows (table_of (insert_bill d db).2 "bills")))
  /\ (unique_key member_key (rows (table_of db "members")) ->
      unique_key member_key (rows (table_of (insert_member d db).2 "members")))
  /\ (unique_key amendment_key (rows (table_of db "amendments")) ->
      unique_key amendment_key
        (rows (table_of (insert_amendment d db).2 "amendments")))
  /\ (unique_key committee_key (rows (table_of db "committees")) ->
      unique_key committee_key
        (rows (table_of (insert_committee d db).2 "committees"))).
Proof.
  repeat split.
  - apply (insert_with_keeps_unique "bills" (listed bill_sql) bill_key _
             bill_key_listed bill_key_kept ltac:(by_listing) ltac:(by_listing)).
  - apply (insert_with_keeps_unique "members" (listed member_sql) member_key _
             member_key_listed member_key_kept
             ltac:(by_listing) ltac:(by_listing)).
  - apply (insert_with_keeps_unique "amendments" (listed amendment_sql)
             amendment_key _ amendment_key_listed amendment_key_kept
             ltac:(by_listing) ltac:(by_listing)).
  - apply (insert_with_keeps_unique "committees" (listed committee_sql)
             committee_key _ committee_key_listed committee_key_kept
             ltac:(by_listing) ltac:(by_listing)).
Qed.

Lemma inserts_keep_keys_unique_witness :
  unique_key bill_key
    (rows (table_of
             (insert_bill (E:=Fixture.strict) (Fixture.bill 1 "B")
                Fixture.stored_once).2 "bills")).
Proof.
  apply (proj1 (inserts_keep_keys_unique (E:=Fixture.strict)
                  (Fixture.bill 1 "B") Fixture.stored_once)).
  intros p. eapply Nat.le_trans; [apply filter_length_le |].
  vm_compute. lia.
Defined.

(** X3 — When one of the four [insert_*] methods returns [None], it has
    written nothing: every table is as it was. *)
Theorem insert_none_writes_nothing {E : Env} (d : json) (db db' : database) :
  (insert_bill d db = (Ok None, db') -> tables db' = tables db)
  /\ (insert_member d db = (Ok None, db') -> tables db' = tables db)
  /\ (insert_amendment d db = (Ok None, db') -> tables db' = tables db)
  /\ (insert_committee d db = (Ok None, db') -> tables db' = tables db).
Proof. repeat split; apply insert_with_none. Qed.

Lemma insert_none_writes_nothing_witness :
  tables (tick Fixture.stored_once) = tables Fixture.stored_once.
Proof.
  apply (proj1 (insert_none_writes_nothing (E:=Fixture.strict)
                  (Fixture.untyped_bill 2 "B") Fixture.stored_once
                  (tick Fixture.stored_once))).
  reflexivity.
Defined.

(** X4 — A bill payload that lacks part of its natural key, once the engine
    accepts it, is never matched with a stored row: [insert_bill] appends
    a row each time it is given, with the id it returns. *)
Theorem null_key_bill_is_appended {E : Env} (d : json)
    (p : gmap string sqlval) (db db' : database) (i : positive) :
  make_params (bill_entries d) = Ok p ->
  key_present bill_key p = false ->
  insert_bill d db = (Ok (Some i), db') ->
  rows (table_of db' "bills")
  = rows (table_of db "bills") ++ [new_row i (clock db) (proposed_of bill_sql p)].
Proof.
  apply (insert_with_null_key "bills" (listed bill_sql) bill_key _
           bill_key_listed).
Qed.

Lemma null_key_bill_is_appended_witness :
  rows (table_of
          (insert_bill (E:=Fixture.lenient) (Fixture.untyped_bill 2 "B")
             Sample.untyped_once).2 "bills")
  = rows (table_of Sample.untyped_once "bills")
    ++ [new_row 2 (clock Sample.untyped_once)
          (proposed_of bill_sql
             (Fixture.params_of (bill_entries (Fixture.untyped_bill 2 "B"))))].
Proof.
  apply (null_key_bill_is_appended (E:=Fixture.lenient)
           (Fixture.untyped_bill 2 "B")).
  - reflexivity.
  - reflexivity.
  - reflexivity.
Defined.

(** ** Which payload a stored column comes from *)

Section LatestAndFirst.
Context {E : Env}.
Variables (t : string) (columns target : list string)
          (sets : list (string * source)).
Hypothesis target_listed : forall c, c ∈ target -> c ∈ columns.
Hypothesis sets_off_target : forall c, c ∈ target -> c ∉ sets.*1.
Hypothesis created_off_target : "created_at" ∉ target.
Hypothesis updated_off_target : "updated_at" ∉ target.
Hypothesis sets_nodup : NoDup sets.*1.
Hypothesis listed_plain :
  forall c, c ∈ columns -> c ≠ "created_at" /\ c ≠ "updated_at".

(** After two upserts of one key: the columns assigned from [EXCLUDED]
    hold the values of the second payload; when the first upsert created
    the row, the listed columns that are not assigned hold those of the
    first. *)
Lemma upsert_latest_and_first e1 e2 p1 p2 db i1 db1 i2 db2 :
  make_params e1 = Ok p1 ->
  make_params e2 = Ok p2 ->
  key_values target p1 = key_values target p2 ->
  key_present target p2 = true ->
  unique_key target (rows (table_of db t)) ->
  insert_with (InsertOnConflict t columns target sets) e1 db
  = (Ok (Some i1), db1) ->
  insert_with (InsertOnConflict t columns target sets) e2 db1
  = (Ok (Some i2), db2) ->
  exists r,
    List.filter (key_matches target p2) (rows (table_of db2 t)) = [r]
    /\ row_id r = i1
    /\ i2 = i1
    /\ (forall c, (c, Excluded c) ∈ sets -> c ∈ columns ->
                  row_cols r !! c = p2 !! c)
    /\ (List.filter (key_matches target p1) (rows (table_of db t)) = [] ->
        forall c, c ∈ columns -> c ∉ sets.*1 -> row_cols r !! c = p1 !! c).
Proof.
  intros Hp1 Hp2 Hsame Hkey Hu H1 H2.
  destruct (upsert_twice t columns target sets target_listed sets_off_target
              created_off_target updated_off_target
              _ _ _ _ _ _ _ _ _ Hp1 Hp2 Hsame Hkey Hu H1 H2)
    as (-> & proposed & r1 & r2 & Hb & Hf1 & Hf2 & Hid & -> & Hfresh).
  exists (do_update sets proposed (clock db1) r1).
  split; [exact Hf2 |]. split; [exact Hid |]. split; [reflexivity |]. split.
  - intros c Hc Hl. unfold do_update. cbn [row_cols].
    rewrite (foldl_assign_excluded proposed (clock db1) c) by done.
    by destruct (bind_columns_lookup _ _ _ c Hb Hl) as [-> [v ->]].
  - intros Hnew c Hl Hc.
    destruct (Hfresh Hnew) as (proposed1 & Hb1 & Hr1).
    rewrite do_update_other by done. rewrite Hr1. unfold with_defaults.
    destruct (listed_plain c Hl) as [Hc1 Hc2].
    rewrite !lookup_insert_ne by done.
    by destruct (bind_columns_lookup _ _ _ c Hb1 Hl) as [-> _].
Qed.

End LatestAndFirst.

(** ** Idempotence of the bill upsert *)

(** The parameter a payload is bound to under a name of the dictionary. *)
Lemma make_params_lookup entries : forall p k r,
  NoDup entries.*1 ->
  make_params entries = Ok p ->
  (k, r) ∈ entries ->
  exists v, r = Ok v /\ p !! k = Some v.
Proof.
  induction entries as [| [k' r'] entries IH]; intros p k r Hnd Hp Hin;
    [by apply elem_of_nil in Hin |].
  rewrite make_params_cons in Hp.
  destruct r' as [v' |]; [| discriminate].
  destruct (make_params entries) as [m |] eqn:Hm; [| discriminate].
  injection Hp as <-. simpl in Hnd. apply NoDup_cons in Hnd as [Hk' Hnd].
  apply elem_of_cons in Hin as [[= -> ->] | Hin].
  - exists v'. by rewrite lookup_insert_eq.
  - destruct (IH m k r Hnd eq_refl Hin) as (v & -> & Hv).
    exists v. split; [done |]. rewrite lookup_insert_ne; [done |].
    intros ->. apply Hk'. apply list_elem_of_fmap. by exists (k, Ok v).
Qed.

Lemma bill_entries_nodup d : NoDup (bill_entries d).*1.
Proof. by_listing. Qed.

(** C1 (as amended) — Two calls of [insert_bill] with the same natural
    key (congress, bill_type, bill_number), both returning an id, leave
    exactly one stored row for that key, and the second call returns the
    id of the first. In that row each of title, update_date,
    update_date_including_text, latest_action, cosponsors_count, actions,
    summaries, amendments, texts, titles, is_law, law_number, law_type
    and raw_data holds the value the second payload supplies: raw_data is
    the second payload itself and title is its title. When the first call
    created the row, origin_chamber, origin_chamber_code, introduced_date,
    constitution_authority_statement_text, policy_area, subjects,
    sponsors, committees and related_bills hold the values of the first
    payload; so when the two payloads supply the same values, every
    column of the statement holds them. *)
Theorem insert_bill_idempotent {E : Env} (db db1 db2 : database)
    (d1 d2 : json) (p1 p2 : gmap string sqlval) (i1 i2 : positive) :
  unique_key bill_key (rows (table_of db "bills")) ->
  make_params (bill_entries d1) = Ok p1 ->
  make_params (bill_entries d2) = Ok p2 ->
  key_values bill_key p1 = key_values bill_key p2 ->
  key_present bill_key p2 = true ->
  insert_bill d1 db = (Ok (Some i1), db1) ->
  insert_bill d2 db1 = (Ok (Some i2), db2) ->
  exists r,
    List.filter (key_matches bill_key p2) (rows (table_of db2 "bills")) = [r]
    /\ row_id r = i1
    /\ i2 = i1
    /\ (forall c,
          c ∈ [ "title"; "update_date"; "update_date_including_text";
                "latest_action"; "cosponsors_count"; "actions"; "summaries";
                "amendments"; "texts"; "titles"; "is_law"; "law_number";
                "law_type"; "raw_data" ] ->
          row_cols r !! c = p2 !! c)
    /\ row_cols r !! "raw_data" = Some (Dumped d2)
    /\ (forall title, get d2 "title" JNull = Ok title ->
                      row_cols r !! "title" = Some (Bound title))
    /\ (List.filter (key_matches bill_key p1) (rows (table_of db "bills")) = [] ->
        (forall c,
           c ∈ [ "origin_chamber"; "origin_chamber_code"; "introduced_date";
                 "constitution_authority_statement_text"; "policy_area";
                 "subjects"; "sponsors"; "committees"; "related_bills" ] ->
           row_cols r !! c = p1 !! c)
        /\ (p1 = p2 ->
            forall c, c ∈ listed bill_sql -> row_cols r !! c = p2 !! c)).
Proof.
  intros Hu Hp1 Hp2 Hsame Hkey H1 H2.
  destruct (upsert_latest_and_first "bills" (listed bill_sql) bill_key _
              bill_key_listed bill_key_kept ltac:(by_listing)
              ltac:(by_listing) bill_sets_nodup bill_listed_plain
              _ _ _ _ _ _ _ _ _ Hp1 Hp2 Hsame Hkey Hu H1 H2)
    as (r & Hf & Hid & -> & Hlast & Hfirst).
  assert (forall c, c ∈ overwritten bill_sql -> row_cols r !! c = p2 !! c)
    as Hover.
  { intros c Hc. apply Hlast.
    - by eapply overwritten_excluded;
        [reflexivity | apply excluded_named | exact Hc].
    - by apply bill_overwritten_listed. }
  exists r. split; [exact Hf |]. split; [exact Hid |].
  split; [reflexivity |]. split; [exact Hover |]. split; [| split].
  - rewrite Hover by by_listing.
    destruct (make_params_lookup (bill_entries d2) p2 "raw_data"
                (Ok (Dumped d2)) (bill_entries_nodup d2) Hp2)
      as (v & [= <-] & Hv); [| exact Hv].
    unfold bill_entries.
    repeat first [apply list_elem_of_here | apply list_elem_of_further].
  - intros title Htitle. rewrite Hover by by_listing.
    destruct (make_params_lookup (bill_entries d2) p2 "title"
                (field d2 "title") (bill_entries_nodup d2) Hp2)
      as (v & Hfield & Hv).
    { unfold bill_entries. do 3 apply list_elem_of_further.
      apply list_elem_of_here. }
    unfold field in Hfield. rewrite Htitle in Hfield. simpl in Hfield.
    injection Hfield as <-. exact Hv.
  - intros Hnew. split.
    + intros c Hc. apply (Hfirst Hnew); revert c Hc; by_listing.
    + intros <- c Hc.
      destruct (decide (c ∈ overwritten bill_sql)) as [Hin | Hout];
        [by apply Hover |].
      apply (Hfirst Hnew); [exact Hc | by apply bill_listed_kept].
Qed.

Lemma insert_bill_idempotent_witness :
  let second := Sample.sponsored "B" "C001035" in
  exists r,
    List.filter (key_matches bill_key (Fixture.params_of (bill_entries second)))
      (rows (table_of Sample.sponsored_twice "bills")) = [r]
    /\ row_id r = 1%positive
    /\ row_cols r !! "raw_data" = Some (Dumped second)
    /\ row_cols r !! "title" = Some (Bound (JStr "B")).
Proof.
  intros second.
  destruct (insert_bill_idempotent (E:=Fixture.strict)
              empty_database Sample.sponsored_once Sample.sponsored_twice
              (Sample.sponsored "A" "B000944") second
              (Fixture.params_of (bill_entries (Sample.sponsored "A" "B000944")))
              (Fixture.params_of (bill_entries second))
              1%positive 1%positive)
    as (r & Hf & Hid & _ & _ & Hraw & Htitle & _).
  - intros p. vm_compute. lia.
  - reflexivity.
  - reflexivity.
  - reflexivity.
  - reflexivity.
  - reflexivity.
  - reflexivity.
  - exists r. split; [exact Hf |]. split; [exact Hid |].
    split; [exact Hraw |]. apply Htitle. reflexivity.
Defined.

(** C1 (as stated) fails: sponsors is a descriptive field of a bill,
    and after a second ingestion of the same key with other sponsors the
    one row of the key has the new title and still the sponsors of the
    first payload. *)
Lemma sponsors_are_not_overwritten :
  let first := Sample.sponsored "A" "B000944" in
  let second := Sample.sponsored "B" "C001035" in
  insert_bill (E:=Fixture.strict) first empty_database
  = (Ok (Some 1%positive), Sample.sponsored_once)
  /\ insert_bill (E:=Fixture.strict) second Sample.sponsored_once
     = (Ok (Some 1%positive), Sample.sponsored_twice)
  /\ exists r,
       rows (table_of Sample.sponsored_twice "bills") = [r]
       /\ row_cols r !! "title" = Some (Bound (JStr "B"))
       /\ row_cols r !! "sponsors"
          = Some (Dumped (JList [JObj [("bioguideId", JStr "B000944")]]))
       /\ Fixture.params_of (bill_entries second) !! "sponsors"
          = Some (Dumped (JList [JObj [("bioguideId", JStr "C001035")]])).
Proof.
  intros first second. split; [reflexivity |]. split; [reflexivity |].
  eexists. split; [reflexivity |]. repeat split; reflexivity.
Qed.

(** X5 — A re-ingested bill keeps, in the columns its statement lists but does
    not overwrite (origin_chamber, origin_chamber_code, introduced_date,
    constitution_authority_statement_text, policy_area, subjects,
    sponsors, committees, related_bills), the values of the payload that
    created the row. *)
Theorem reingested_bill_keeps_first_values {E : Env} (db db1 db2 : database)
    (d1 d2 : json) (p1 p2 : gmap string sqlval) (i1 i2 : positive) :
  unique_key bill_key (rows (table_of db "bills")) ->
  make_params (bill_entries d1) = Ok p1 ->
  make_params (bill_entries d2) = Ok p2 ->
  key_values bill_key p1 = key_values bill_key p2 ->
  key_present bill_key p2 = true ->
  List.filter (key_matches bill_key p1) (rows (table_of db "bills")) = [] ->
  insert_bill d1 db = (Ok (Some i1), db1) ->
  insert_bill d2 db1 = (Ok (Some i2), db2) ->
  exists r,
    List.filter (key_matches bill_key p2) (rows (table_of db2 "bills")) = [r]
    /\ forall c,
         c ∈ [ "origin_chamber"; "origin_chamber_code"; "introduced_date";
               "constitution_authority_statement_text"; "policy_area";
               "subjects"; "sponsors"; "committees"; "related_bills" ] ->
         row_cols r !! c = p1 !! c.
Proof.
  intros Hu Hp1 Hp2 Hsame Hkey Hnew H1 H2.
  destruct (upsert_latest_and_first "bills" (listed bill_sql) bill_key _
              bill_key_listed bill_key_kept ltac:(by_listing)
              ltac:(by_listing) bill_sets_nodup bill_listed_plain
              _ _ _ _ _ _ _ _ _ Hp1 Hp2 Hsame Hkey Hu H1 H2)
    as (r & Hf & _ & _ & _ & Hfirst).
  exists r. split; [exact Hf |].
  intros c Hc. apply (Hfirst Hnew); revert c Hc; by_listing.
Qed.

Lemma reingested_bill_keeps_first_values_witness :
  exists r,
    List.filter
      (key_matches bill_key
         (Fixture.params_of (bill_entries (Sample.sponsored "B" "C001035"))))
      (rows (table_of Sample.sponsored_twice "bills")) = [r]
    /\ forall c,
         c ∈ [ "origin_chamber"; "origin_chamber_code"; "introduced_date";
               "constitution_authority_statement_text"; "policy_area";
               "subjects"; "sponsors"; "committees"; "related_bills" ] ->
         row_cols r !! c
         = Fixture.params_of (bill_entries (Sample.sponsored "A" "B000944"))
             !! c.
Proof.
  apply (reingested_bill_keeps_first_values (E:=Fixture.strict)
           empty_database Sample.sponsored_once Sample.sponsored_twice
           (Sample.sponsored "A" "B000944") (Sample.sponsored "B" "C001035")
           _ _ 1%positive 1%positive).
  - intros p. vm_compute. lia.
  - reflexivity.
  - reflexivity.
  - reflexivity.
  - reflexivity.
  - reflexivity.
  - reflexivity.
  - reflexivity.
Defined.

(** X6 — Two calls of [insert_member] with the same [bioguide_id], both
    returning an id, leave one row for it, with the id of the first call;
    first_name, last_name, party, state, district and terms hold the
    values of the second payload; when the first call created the row,
    middle_name, suffix, nickname, birth_year and death_year still hold
    those of the first. *)
Theorem member_upsert_latest_and_first {E : Env} (db db1 db2 : database)
    (d1 d2 : json) (p1 p2 : gmap string sqlval) (i1 i2 : positive) :
  unique_key member_key (rows (table_of db "members")) ->
  make_params (member_entries d1) = Ok p1 ->
  make_params (member_entries d2) = Ok p2 ->
  key_values member_key p1 = key_values member_key p2 ->
  key_present member_key p2 = true ->
  insert_member d1 db = (Ok (Some i1), db1) ->
  insert_member d2 db1 = (Ok (Some i2), db2) ->
  exists r,
    List.filter (key_matches member_key p2) (rows (table_of db2 "members"))
    = [r]
    /\ row_id r = i1
    /\ i2 = i1
    /\ (forall c,
          c ∈ ["first_name"; "last_name"; "party"; "state"; "district"; "terms"] ->
          row_cols r !! c = p2 !! c)
    /\ (List.filter (key_matches member_key p1) (rows (table_of db "members"))
        = [] ->
        forall c,
          c ∈ ["middle_name"; "suffix"; "nickname"; "birth_year"; "death_year"] ->
          row_cols r !! c = p1 !! c).
Proof.
  intros Hu Hp1 Hp2 Hsame Hkey H1 H2.
  destruct (upsert_latest_and_first "members" (listed member_sql) member_key _
              member_key_listed member_key_kept ltac:(by_listing)
              ltac:(by_listing) ltac:(by_listing) ltac:(by_listing)
              _ _ _ _ _ _ _ _ _ Hp1 Hp2 Hsame Hkey Hu H1 H2)
    as (r & Hf & Hid & -> & Hlast & Hfirst).
  assert (forall c, c ∈ overwritten member_sql -> row_cols r !! c = p2 !! c)
    as Hover.
  { intros c Hc. apply Hlast.
    - by eapply overwritten_excluded;
        [reflexivity | apply excluded_named | exact Hc].
    - revert c Hc. by_listing. }
  exists r. split; [exact Hf |]. split; [exact Hid |].
  split; [reflexivity |]. split; [exact Hover |].
  intros Hnew c Hc. apply (Hfirst Hnew); revert c Hc; by_listing.
Qed.

Lemma member_upsert_latest_and_first_witness :
  exists r,
    List.filter
      (key_matches member_key
         (Fixture.params_of (member_entries (Sample.member "I" (JNum 2090)))))
      (rows (table_of Sample.member_twice "members")) = [r]
    /\ row_id r = 1%positive
    /\ 1%positive = 1%positive
    /\ (forall c,
          c ∈ ["first_name"; "last_name"; "party"; "state"; "district"; "terms"] ->
          row_cols r !! c
          = Fixture.params_of (member_entries (Sample.member "I" (JNum 2090)))
              !! c)
    /\ (List.filter
          (key_matches member_key
             (Fixture.params_of (member_entries (Sample.member "D" JNull))))
          (rows (table_of empty_database "members")) = [] ->
        forall c,
          c ∈ ["middle_name"; "suffix"; "nickname"; "birth_year"; "death_year"] ->
          row_cols r !! c
          = Fixture.params_of (member_entries (Sample.member "D" JNull)) !! c).
Proof.
  apply (member_upsert_latest_and_first (E:=Fixture.strict)
           empty_database Sample.member_once Sample.member_twice
           (Sample.member "D" JNull) (Sample.member "I" (JNum 2090))).
  - intros p. vm_compute. lia.
  - reflexivity.
  - reflexivity.
  - reflexivity.
  - reflexivity.
  - reflexivity.
  - reflexivity.
Defined.

(** X7 — Two calls of [insert_amendment] with the same (congress, type,
    number), both returning an id, leave one row for the key; purpose,
    description, latest_action, actions and raw_data hold the values of
    the second payload; when the first call created the row, the amended
    bill, chamber, amendment_to_amendment, sponsors, cosponsors and the
    two dates still hold those of the first. *)
Theorem amendment_upsert_latest_and_first {E : Env} (db db1 db2 : database)
    (d1 d2 : json) (p1 p2 : gmap string sqlval) (i1 i2 : positive) :
  unique_key amendment_key (rows (table_of db "amendments")) ->
  make_params (amendment_entries d1) = Ok p1 ->
  make_params (amendment_entries d2) = Ok p2 ->
  key_values amendment_key p1 = key_values amendment_key p2 ->
  key_present amendment_key p2 = true ->
  insert_amendment d1 db = (Ok (Some i1), db1) ->
  insert_amendment d2 db1 = (Ok (Some i2), db2) ->
  exists r,
    List.filter (key_matches amendment_key p2)
      (rows (table_of db2 "amendments")) = [r]
    /\ row_id r = i1
    /\ i2 = i1
    /\ (forall c,
          c ∈ ["purpose"; "description"; "latest_action"; "actions"; "raw_data"] ->
          row_cols r !! c = p2 !! c)
    /\ (List.filter (key_matches amendment_key p1)
          (rows (table_of db "amendments")) = [] ->
        forall c,
          c ∈ [ "bill_congress"; "bill_type"; "bill_number"; "chamber";
                "amendment_to_amendment"; "sponsors"; "cosponsors";
                "proposed_date"; "submitted_date" ] ->
          row_cols r !! c = p1 !! c).
Proof.
  intros Hu Hp1 Hp2 Hsame Hkey H1 H2.
  destruct (upsert_latest_and_first "amendments" (listed amendment_sql)
              amendment_key _ amendment_key_listed amendment_key_kept
              ltac:(by_listing) ltac:(by_listing) ltac:(by_listing)
              ltac:(by_listing)
              _ _ _ _ _ _ _ _ _ Hp1 Hp2 Hsame Hkey Hu H1 H2)
    as (r & Hf & Hid & -> & Hlast & Hfirst).
  assert (forall c, c ∈ overwritten amendment_sql -> row_cols r !! c = p2 !! c)
    as Hover.
  { intros c Hc. apply Hlast.
    - by eapply overwritten_excluded;
        [reflexivity | apply excluded_named | exact Hc].
    - revert c Hc. by_listing. }
  exists r. split; [exact Hf |]. split; [exact Hid |].
  split; [reflexivity |]. split; [exact Hover |].
  intros Hnew c Hc. apply (Hfirst Hnew); revert c Hc; by_listing.
Qed.

Lemma amendment_upsert_latest_and_first_witness :
  exists r,
    List.filter
      (key_matches amendment_key
         (Fixture.params_of (amendment_entries (Fixture.amendment "second"))))
      (rows (table_of Fixture.amended_twice "amendments")) = [r]
    /\ row_id r = 1%positive
    /\ 1%positive = 1%positive
    /\ (forall c,
          c ∈ ["purpose"; "description"; "latest_action"; "actions"; "raw_data"] ->
          row_cols r !! c
          = Fixture.params_of (amendment_entries (Fixture.amendment "second"))
              !! c)
    /\ (List.filter
          (key_matches amendment_key
             (Fixture.params_of
                (amendment_entries (Fixture.amendment "first"))))
          (rows (table_of empty_database "amendments")) = [] ->
        forall c,
          c ∈ [ "bill_congress"; "bill_type"; "bill_number"; "chamber";
                "amendment_to_amendment"; "sponsors"; "cosponsors";
                "proposed_date"; "submitted_date" ] ->
          row_cols r !! c
          = Fixture.params_of (amendment_entries (Fixture.amendment "first"))
              !! c).
Proof.
  apply (amendment_upsert_latest_and_first (E:=Fixture.strict)
           empty_database Fixture.amended_once Fixture.amended_twice
           (Fixture.amendment "first") (Fixture.amendment "second")).
  - intros p. vm_compute. lia.
  - reflexivity.
  - reflexivity.
  - reflexivity.
  - reflexivity.
  - reflexivity.
  - reflexivity.
Defined.

(** X8 — Two calls of [insert_committee] with the same [system_code], both
    returning an id, leave one row for it; name, chamber, type and
    subcommittees hold the values of the second payload; when the first
    call created the row, parent_committee_system_code and
    is_subcommittee still hold those of the first. *)
Theorem committee_upsert_latest_and_first {E : Env} (db db1 db2 : database)
    (d1 d2 : json) (p1 p2 : gmap string sqlval) (i1 i2 : positive) :
  unique_key committee_key (rows (table_of db "committees")) ->
  make_params (committee_entries d1) = Ok p1 ->
  make_params (committee_entries d2) = Ok p2 ->
  key_values committee_key p1 = key_values committee_key p2 ->
  key_present committee_key p2 = true ->
  insert_committee d1 db = (Ok (Some i1), db1) ->
  insert_committee d2 db1 = (Ok (Some i2), db2) ->
  exists r,
    List.filter (key_matches committee_key p2)
      (rows (table_of db2 "committees")) = [r]
    /\ row_id r = i1
    /\ i2 = i1
    /\ (forall c,
          c ∈ ["name"; "chamber"; "type"; "subcommittees"] ->
          row_cols r !! c = p2 !! c)
    /\ (List.filter (key_matches committee_key p1)
          (rows (table_of db "committees")) = [] ->
        forall c,
          c ∈ ["parent_committee_system_code"; "is_subcommittee"] ->
          row_cols r !! c = p1 !! c).
Proof.
  intros Hu Hp1 Hp2 Hsame Hkey H1 H2.
  destruct (upsert_latest_and_first "committees" (listed committee_sql)
              committee_key _ committee_key_listed committee_key_kept
              ltac:(by_listing) ltac:(by_listing) ltac:(by_listing)
              ltac:(by_listing)
              _ _ _ _ _ _ _ _ _ Hp1 Hp2 Hsame Hkey Hu H1 H2)
    as (r & Hf & Hid & -> & Hlast & Hfirst).
  assert (forall c, c ∈ overwritten committee_sql -> row_cols r !! c = p2 !! c)
    as Hover.
  { intros c Hc. apply Hlast.
    - by eapply overwritten_excluded;
        [reflexivity | apply excluded_named | exact Hc].
    - revert c Hc. by_listing. }
  exists r. split; [exact Hf |]. split; [exact Hid |].
  split; [reflexivity |]. split; [exact Hover |].
  intros Hnew c Hc. apply (Hfirst Hnew); revert c Hc; by_listing.
Qed.

Lemma committee_upsert_latest_and_first_witness :
  exists r,
    List.filter
      (key_matches committee_key
         (Fixture.params_of
            (committee_entries
               (Sample.committee "Agriculture Committee" (JStr "hsag01")))))
      (rows (table_of Sample.committee_twice "committees")) = [r]
    /\ row_id r = 1%positive
    /\ 1%positive = 1%positive
    /\ (forall c,
          c ∈ ["name"; "chamber"; "type"; "subcommittees"] ->
          row_cols r !! c
          = Fixture.params_of
              (committee_entries
                 (Sample.committee "Agriculture Committee" (JStr "hsag01")))
              !! c)
    /\ (List.filter
          (key_matches committee_key
             (Fixture.params_of
                (committee_entries (Sample.committee "Agriculture" JNull))))
          (rows (table_of empty_database "committees")) = [] ->
        forall c,
          c ∈ ["parent_committee_system_code"; "is_subcommittee"] ->
          row_cols r !! c
          = Fixture.params_of
              (committee_entries (Sample.committee "Agriculture" JNull)) !! c).
Proof.
  apply (committee_upsert_latest_and_first (E:=Fixture.strict)
           empty_database Sample.committee_once Sample.committee_twice
           (Sample.committee "Agriculture" JNull)
           (Sample.committee "Agriculture Committee" (JStr "hsag01"))).
  - intros p. vm_compute. lia.
  - reflexivity.
  - reflexivity.
  - reflexivity.
  - reflexivity.
  - reflexivity.
  - reflexivity.
Defined.

(** ** More on pagination *)

Lemma extract_from_first pre k post v kvs :
  (forall k', k' ∈ pre -> lookup_key k' kvs = None) ->
  lookup_key k kvs = Some v ->
  extract_from (pre ++ k :: post) (JObj kvs) = Ok (as_list v).
Proof.
  intros Hpre Hk. induction pre as [| k' pre IH]; simpl.
  - by rewrite Hk.
  - rewrite (Hpre k') by apply list_elem_of_here. simpl.
    apply IH. intros k'' Hin. apply Hpre. by apply list_elem_of_further.
Qed.

Lemma extract_from_none keys kvs :
  (forall k, k ∈ keys -> lookup_key k kvs = None) ->
  extract_from keys (JObj kvs) = Ok [].
Proof.
  induction keys as [| k keys IH]; intros Hnone; simpl; [done |].
  rewrite (Hnone k) by apply list_elem_of_here. simpl.
  apply IH. intros k' Hin. apply Hnone. by apply list_elem_of_further.
Qed.

(** X9 — On a response object [_extract_items] never raises. It returns the
    value of the first of bills, members, amendments, committees,
    nominations, treaties, reports, hearings, items that the object has,
    whatever else it has: the list itself, or a one-element list around a
    value that is not a list. Without any of these keys it returns the
    empty list. On a body that is null, a boolean or a number it raises
    [TypeError]. *)
Theorem extract_items_first_key (kvs : list (string * json)) :
  (forall pre k post v,
     item_keys = pre ++ k :: post ->
     (forall k', k' ∈ pre -> lookup_key k' kvs = None) ->
     lookup_key k kvs = Some v ->
     _extract_items (JObj kvs) = Ok (as_list v))
  /\ ((forall k, k ∈ item_keys -> lookup_key k kvs = None) ->
      _extract_items (JObj kvs) = Ok [])
  /\ (forall data,
        match data with JNull | JBool _ | JNum _ => True | _ => False end ->
        exists msg, _extract_items data = Raise (TypeError msg)).
Proof.
  split; [| split].
  - intros pre k post v Hkeys Hpre Hk. unfold _extract_items.
    rewrite Hkeys. by apply extract_from_first.
  - apply extract_from_none.
  - intros [] H; try done; by eexists.
Qed.

Lemma extract_items_first_key_witness :
  _extract_items
    (JObj [ ("items", JList [JNum 1]); ("members", JObj [("name", JStr "x")]) ])
  = Ok [JObj [("name", JStr "x")]].
Proof.
  apply (proj1 (extract_items_first_key
                  [ ("items", JList [JNum 1]);
                    ("members", JObj [("name", JStr "x")]) ])
           ["bills"] "members"
           [ "amendments"; "committees"; "nominations"; "treaties";
             "reports"; "hearings"; "items" ]
           (JObj [("name", JStr "x")])).
  - reflexivity.
  - intros k' Hk'. apply list_elem_of_singleton in Hk'. by subst k'.
  - reflexivity.
Defined.

Section Paging.
Context {E : Env}.

Lemma fetch_page_asks all_items url w next all_items' w' :
  fetch_page all_items url w = (next, all_items', w') ->
  requested w' = requested w ++ [url] /\ sleeps w' = S (sleeps w).
Proof.
  unfold fetch_page, mbind, M_bind, _rate_limit, client_call. simpl.
  destruct (client_get (client w) url) as [c [e | data status]].
  - by intros [= <- <- <-].
  - destruct (negb (Z.eqb status 200)); [by intros [= <- <- <-] |].
    destruct (_extract_items data); [| by intros [= <- <- <-]].
    destruct (next_cursor data); by intros [= <- <- <-].
Qed.

Lemma fetch_loop_capped (k : Z) (n : nat) :
  forall fuel page all_items url w,
    k <= Z.of_nat page + Z.of_nat n ->
    (n <= fuel)%nat ->
    exists items w',
      fetch_loop fuel (Some k) all_items page url w = Some (items, w')
      /\ (length (requested w') <= length (requested w) + n)%nat.
Proof.
  induction n as [| n IH]; intros fuel page all_items url w Hk Hfuel.
  - exists all_items, w. split; [| lia].
    apply fetch_loop_stop. simpl.
    rewrite (proj2 (Z.ltb_ge _ _)) by lia. apply andb_false_r.
  - destruct (truthy url && under_cap (Some k) page) eqn:Hcond.
    + destruct fuel as [| fuel]; [lia |]. cbn [fetch_loop]. rewrite Hcond.
      destruct (fetch_page all_items url w) as [[next acc] w1] eqn:Hpage.
      apply fetch_page_asks in Hpage as [Hreq _].
      destruct next as [next |].
      * destruct (IH fuel (S page) acc next w1) as (items & w' & Hloop & Hlen);
          [lia | lia |].
        exists items, w'. split; [done |].
        rewrite Hreq, length_app in Hlen. simpl in Hlen. lia.
      * exists acc, w1. split; [done |].
        rewrite Hreq, length_app. simpl. lia.
    + exists all_items, w. split; [by apply fetch_loop_stop | lia].
Qed.

(** X10 — With a page cap, [_fetch_paginated] ends whatever the server
    answers, after at most [max_pages] requests (none when the cap is zero
    or negative, and then with no items), and without touching the store
    or the stats. *)
Theorem fetch_paginated_capped (endpoint : string) (limit k : Z)
    (fuel : nat) (w : world) :
  (Z.to_nat k <= fuel)%nat ->
  (exists items w',
     _fetch_paginated fuel endpoint limit (Some k) w = Some (items, w')
     /\ (length (requested w') <= length (requested w) + Z.to_nat k)%nat
     /\ db w' = db w
     /\ self_stats w' = self_stats w)
  /\ (k <= 0 -> _fetch_paginated fuel endpoint limit (Some k) w = Some ([], w)).
Proof.
  intros Hfuel. split.
  - destruct (fetch_loop_capped k (Z.to_nat k) fuel 0 []
                (JStr (first_url endpoint limit)) w)
      as (items & w' & Hloop & Hlen); [lia | done |].
    exists items, w'. split; [exact Hloop |]. split; [exact Hlen |].
    apply fetch_loop_keeps in Hloop as [Hs Hd]. done.
  - intros Hk. apply fetch_loop_stop. simpl.
    rewrite (proj2 (Z.ltb_ge _ _)) by lia. apply andb_false_r.
Qed.

End Paging.

Lemma fetch_paginated_capped_witness :
  let w0 := Fixture.start (E:=Fixture.strict) Sample.endless empty_database in
  (exists items w',
     _fetch_paginated 3 "bill/118/hr" 250 (Some 3) w0 = Some (items, w')
     /\ (length (requested w') <= length (requested w0) + Z.to_nat 3)%nat
     /\ db w' = db w0
     /\ self_stats w' = self_stats w0)
  /\ (3 <= 0 -> _fetch_paginated 3 "bill/118/hr" 250 (Some 3) w0 = Some ([], w0)).
Proof.
  intros w0.
  apply (fetch_paginated_capped (E:=Fixture.strict) "bill/118/hr" 250 3 3 w0).
  simpl. lia.
Defined.

(** ** Rate limiting *)

Section Pacing.
Context {E : Env}.

Lemma keeps_pace_on_db {A} (f : database -> result A * database) :
  keeps pace (on_db f).
Proof. intros w. unfold on_db. by destruct (f (db w)). Qed.

(** A wait followed by a request leaves the pace as it was. *)
Lemma keeps_pace_call {A} path (k : json * Z -> M A) :
  (forall reply, keeps pace (k reply)) ->
  keeps pace (_rate_limit ≫= fun _ => client_call path ≫= k).
Proof.
  intros Hk w. unfold mbind, M_bind, _rate_limit, client_call. simpl.
  destruct (client_get (client w) path) as [c [e | body status]]; simpl.
  - unfold pace. simpl. rewrite length_app. simpl. lia.
  - rewrite Hk. unfold pace. simpl. rewrite length_app. simpl. lia.
Qed.

Ltac solve_pace :=
  repeat first
    [ apply keeps_pace_call; intros ?
    | apply keeps_bind; [| intros ?]
    | match goal with |- keeps _ (if ?b then _ else _) => destruct b end
    | apply keeps_ret | apply keeps_lift | apply keeps_pace_on_db ].

Lemma keeps_pace_process_bill item : keeps pace (process_bill item).
Proof. unfold process_bill, enrich_bill. solve_pace. Qed.

Lemma keeps_pace_process_member item : keeps pace (process_member item).
Proof. unfold process_member. solve_pace. Qed.

Lemma keeps_pace_process_amendment item : keeps pace (process_amendment item).
Proof. unfold process_amendment. solve_pace. Qed.

Lemma keeps_pace_process_committee item : keeps pace (process_committee item).
Proof. unfold process_committee. solve_pace. Qed.

Lemma fetch_loop_pace fuel : forall max_pages all_items page url w items w',
  fetch_loop fuel max_pages all_items page url w = Some (items, w') ->
  pace w' = pace w.
Proof.
  induction fuel as [| fuel IH]; intros max_pages all_items page url w
    items w'; simpl.
  - destruct (truthy url && under_cap max_pages page); [discriminate |].
    by intros [= <- <-].
  - destruct (truthy url && under_cap max_pages page);
      [| by intros [= <- <-]].
    destruct (fetch_page all_items url w) as [[next acc] w1] eqn:Hpage.
    apply fetch_page_asks in Hpage as [Hreq Hsl].
    assert (pace w1 = pace w) as Hp.
    { unfold pace. rewrite Hreq, Hsl, length_app. simpl. lia. }
    destruct next as [next |].
    + intros H. apply IH in H. congruence.
    + intros [= <- <-]. done.
Qed.

Lemma finish_pace log_id (tried : result unit * world) :
  pace (finish log_id tried).2 = pace tried.2.
Proof.
  unfold finish. destruct tried as [[u | e] w]; simpl; [done |].
  pose proof (keeps_pace_on_db
                (update_sync_log log_id "failed" 0 0 0 0 (Some (exn_str e)))
                w) as Hk.
  by destruct (on_db _ w) as [[u | e'] w1].
Qed.

Lemma log_completed_pace log_id w :
  pace (log_completed log_id w).2 = pace w.
Proof. unfold log_completed. apply keeps_pace_on_db. Qed.

Lemma paginated_pace fuel endpoint max_pages w r w' :
  paginated fuel endpoint max_pages w = Some (r, w') -> pace w' = pace w.
Proof.
  unfold paginated, _fetch_paginated.
  destruct (fetch_loop _ _ _ _ _ _) as [[items w1] |] eqn:Hloop;
    [| discriminate].
  intros [= <- <-]. by apply fetch_loop_pace in Hloop.
Qed.

Lemma ingest_pace fuel log_endpoint parameters endpoint max_pages
    process_one w r w' :
  (forall item, keeps pace (process_one item)) ->
  ingest (paginated fuel) log_endpoint parameters endpoint max_pages
    process_one w = Some (r, w') ->
  pace w' = pace w.
Proof.
  intros Hk. unfold ingest.
  pose proof (keeps_pace_on_db
                (log_sync log_endpoint "bulk" (Some parameters))
                (set_stats zero_stats w)) as Hlog.
  destruct (on_db _ (set_stats zero_stats w)) as [[log_id | e] w1];
    change (pace (set_stats zero_stats w)) with (pace w) in Hlog;
    simpl in Hlog; [| by intros [= <- <-]].
  unfold fetch_and_process.
  destruct (paginated fuel endpoint max_pages w1) as [[[items | e] w2] |]
    eqn:Hfetch; [| | discriminate]; apply paginated_pace in Hfetch.
  - cbn [mbind option_bind]. intros H%(inj Some). apply (f_equal snd) in H.
    cbn [snd] in H.
    rewrite <- H, finish_pace, log_completed_pace.
    rewrite (process_items_keeps pace) by done. congruence.
  - cbn [mbind option_bind]. intros H%(inj Some). apply (f_equal snd) in H.
    cbn [snd] in H.
    rewrite <- H, finish_pace. simpl. congruence.
Qed.

(** X11 — Every request of an ingestion is preceded by one rate-limit wait and
    no other wait is made: however one of the four ingestion methods ends
    (stats returned or exception raised), it has slept once per request
    it made, page fetches and detail fetches alike. *)
Theorem one_wait_per_request (fuel : nat) (max_pages : option Z)
    (w : world) (r : result stats) (w' : world) :
  (forall congress bill_type from_date to_date,
     ingest_bills fuel congress bill_type from_date to_date max_pages w
     = Some (r, w') -> pace w' = pace w)
  /\ (forall congress,
        ingest_members fuel congress max_pages w = Some (r, w') ->
        pace w' = pace w)
  /\ (forall congress,
        ingest_amendments fuel congress max_pages w = Some (r, w') ->
        pace w' = pace w)
  /\ (ingest_committees fuel max_pages w = Some (r, w') -> pace w' = pace w).
Proof.
  split; [| split; [| split]].
  - intros congress bill_type from_date to_date.
    apply ingest_pace, keeps_pace_process_bill.
  - intros congress. apply ingest_pace, keeps_pace_process_member.
  - intros congress. apply ingest_pace, keeps_pace_process_amendment.
  - unfold ingest_committees, ingest_committees_with.
    pose proof (keeps_pace_on_db (log_sync "committees" "bulk" None)
                  (set_stats zero_stats w)) as Hlog.
    destruct (on_db _ (set_stats zero_stats w)) as [[log_id | e] w1];
      change (pace (set_stats zero_stats w)) with (pace w) in Hlog;
    simpl in Hlog; [| by intros [= <- <-]].
    cbn [process_chambers mbind option_bind].
    destruct (paginated fuel ("committee/" +:+ "house") max_pages w1)
      as [[[house | e] w2] |] eqn:Hhouse; [| | discriminate];
      apply paginated_pace in Hhouse.
    + destruct (paginated fuel ("committee/" +:+ "senate") max_pages
                  (process_items process_committee house w2))
        as [[[senate | e] w3] |] eqn:Hsenate; [| | discriminate];
        apply paginated_pace in Hsenate;
        rewrite (process_items_keeps pace) in Hsenate
          by (done || apply keeps_pace_process_committee).
      * cbn [mbind option_bind]. intros H%(inj Some). apply (f_equal snd) in H.
    cbn [snd] in H.
        rewrite <- H, finish_pace, log_completed_pace.
        rewrite (process_items_keeps pace)
          by (done || apply keeps_pace_process_committee).
        congruence.
      * cbn [mbind option_bind]. intros H%(inj Some). apply (f_equal snd) in H.
    cbn [snd] in H.
        rewrite <- H, finish_pace. simpl. congruence.
    + cbn [mbind option_bind]. intros H%(inj Some). apply (f_equal snd) in H.
    cbn [snd] in H.
      rewrite <- H, finish_pace. simpl. congruence.
Qed.

End Pacing.

Lemma one_wait_per_request_witness :
  let w0 := Fixture.start (E:=Fixture.strict) Fixture.one_bill
              empty_database in
  pace (Fixture.after w0
          (ingest_bills 5 (Some 118) (Some "hr") None None None w0))
  = pace w0.
Proof.
  intros w0.
  apply (proj1 (one_wait_per_request (E:=Fixture.strict) 5 None w0
                  (Ok {| processed := 1; created := 1; updated := 0;
                         failed := 0; errors := [] |})
                  (Fixture.after w0
                     (ingest_bills 5 (Some 118) (Some "hr") None None None
                        w0)))
           (Some 118) (Some "hr") None None).
  reflexivity.
Defined.

(** ** The sync log of a run *)

Section RunLog.
Context {E : Env}.

Lemma log_sync_appends db endpoint sync_type parameters :
  (forall p, db_fault db log_insert_sql p = None) ->
  exists db' last,
    log_sync endpoint sync_type parameters db
    = (Ok (Some (next_id (table_of db "api_sync_log"))), db')
    /\ rows (table_of db' "api_sync_log")
       = rows (table_of db "api_sync_log") ++ [last]
    /\ row_id last = next_id (table_of db "api_sync_log").
Proof.
  intros Hf. unfold log_sync, execute_sql. rewrite Hf.
  unfold log_insert_sql, run_statement.
  match goal with
  | |- context [bind_columns ?cols ?p] =>
      destruct (bind_columns_total cols p) as [m Hm];
        [ repeat (apply List.Forall_cons; [by eexists |]);
          apply List.Forall_nil
        | rewrite Hm ]
  end.
  simpl. eexists _, _. split; [reflexivity |].
  rewrite table_of_set. simpl. split; reflexivity.
Qed.

Lemma map_unhit (f : row -> row) (hit : row -> bool) (rs : list row) :
  Forall (fun r => hit r = false) rs ->
  map (fun r => if hit r then f r else r) rs = rs.
Proof.
  induction 1 as [| r rs Hr _ IH]; simpl; [done |]. by rewrite Hr, IH.
Qed.

Lemma update_sync_log_last db old last status a b c d msg :
  (forall p, db_fault db log_update_sql p = None) ->
  rows (table_of db "api_sync_log") = old ++ [last] ->
  Forall (fun r => row_id r ≠ row_id last) old ->
  exists db' last',
    update_sync_log (Some (row_id last)) status a b c d msg db = (Ok tt, db')
    /\ rows (table_of db' "api_sync_log") = old ++ [last']
    /\ row_id last' = row_id last
    /\ row_reports last' status a b c d.
Proof.
  intros Hf Hrows Hold. unfold update_sync_log, execute_sql. rewrite Hf.
  unfold log_update_sql, run_statement.
  match goal with
  | |- context [bind_columns ?cols ?p] =>
      destruct (bind_columns_total cols p) as [m Hm];
        [ repeat (apply List.Forall_cons; [by eexists |]);
          apply List.Forall_nil
        | rewrite Hm;
          pose proof (fun c Hc => proj1 (bind_columns_lookup cols p m c Hm Hc))
            as Hlook ]
  end.
  assert (m !! "log_id" ≫= id_of = Some (row_id last)) as Hid
    by by rewrite Hlook by apply list_elem_of_here.
  simpl. eexists _, _. split; [reflexivity |].
  rewrite table_of_set. simpl. rewrite Hrows, map_app. simpl.
  rewrite map_unhit.
  - rewrite bool_decide_true by exact Hid.
    split; [reflexivity |]. split; [reflexivity |].
    unfold row_reports, set_columns. cbn [row_cols].
    repeat split;
      (rewrite set_columns_lookup by (left; by_listing);
       by rewrite Hlook by by_listing).
  - eapply Forall_impl; [exact Hold |]. intros r Hr. simpl in Hr.
    apply bool_decide_eq_false. rewrite Hid. congruence.
Qed.

Lemma update_sync_log_elsewhere log_id status a b c d msg db t :
  t ≠ "api_sync_log" ->
  table_of (update_sync_log log_id status a b c d msg db).2 t = table_of db t.
Proof.
  intros Ht. unfold update_sync_log, execute_sql.
  destruct (db_fault _ _ _); [done |].
  destruct (run_statement _ _ _) as [[ids db'] | e] eqn:Hrun; [| done].
  unfold log_update_sql, run_statement in Hrun.
  destruct (bind_columns _ _) as [m |]; [| discriminate].
  simpl in Hrun. injection Hrun as <- <-. simpl.
  by rewrite table_of_set_ne.
Qed.

Ltac solve_log :=
  repeat first
    [ apply keeps_bind; [| intros ?]
    | match goal with |- keeps _ (if ?b then _ else _) => destruct b end
    | apply keeps_ret | apply keeps_lift | apply keeps_log_rate_limit
    | apply keeps_log_client_call
    | apply keeps_log_insert; discriminate ].

Lemma keeps_log_process_member item : keeps_log (process_member item).
Proof. unfold process_member. solve_log. Qed.

Lemma keeps_log_process_amendment item : keeps_log (process_amendment item).
Proof. unfold process_amendment. solve_log. Qed.

Lemma keeps_log_process_committee item : keeps_log (process_committee item).
Proof. unfold process_committee. solve_log. Qed.

Lemma paginated_keeps_log fuel endpoint max_pages w r w' :
  paginated fuel endpoint max_pages w = Some (r, w') ->
  (exists items, r = Ok items) /\ log_table w' = log_table w.
Proof.
  unfold paginated, _fetch_paginated.
  destruct (fetch_loop _ _ _ _ _ _) as [[items w1] |] eqn:Hloop;
    [| discriminate].
  intros [= <- <-]. apply fetch_loop_keeps in Hloop as [_ Hdb].
  split; [by eexists |]. unfold log_table. by rewrite Hdb.
Qed.

Hypothesis log_opens : forall db p, db_fault db log_insert_sql p = None.
Hypothesis log_closes : forall db p, db_fault db log_update_sql p = None.

(** The end of every ingestion whose items were fetched: the row opened
    at the start is the one completed. *)
Lemma completes_log w w3 :
  Forall (fun r => (row_id r < next_id (log_table w))%positive)
    (rows (log_table w)) ->
  forall last,
    rows (log_table w3) = rows (log_table w) ++ [last] ->
    row_id last = next_id (log_table w) ->
    exists w4,
      finish (Some (next_id (log_table w)))
        (log_completed (Some (next_id (log_table w))) w3)
      = (Ok (self_stats w3), w4)
      /\ run_logged w w4 "completed" (self_stats w3).
Proof.
  intros Hfresh last Hrows Hid.
  destruct (update_sync_log_last (db w3) (rows (log_table w)) last
              "completed" (processed (self_stats w3))
              (created (self_stats w3)) (updated (self_stats w3))
              (failed (self_stats w3)) None (log_closes _) Hrows)
    as (db4 & last' & Hup & Hrows' & Hid' & Hrep).
  { eapply Forall_impl; [exact Hfresh |]. intros r Hr. simpl in Hr.
    rewrite Hid. lia. }
  unfold log_completed, on_db, finish. rewrite <- Hid, Hup.
  eexists. split; [reflexivity |].
  exists last'. unfold log_table at 1. simpl.
  split; [exact Hrows' |]. split; [congruence | exact Hrep].
Qed.

Lemma ingest_logged fuel log_endpoint parameters endpoint max_pages
    process_one w r w' :
  (forall item, keeps_log (process_one item)) ->
  Forall (fun r => (row_id r < next_id (log_table w))%positive)
    (rows (log_table w)) ->
  ingest (paginated fuel) log_endpoint parameters endpoint max_pages
    process_one w = Some (r, w') ->
  exists s, r = Ok s /\ run_logged w w' "completed" s.
Proof.
  intros Hk Hfresh. unfold ingest.
  destruct (log_sync_appends (db (set_stats zero_stats w)) log_endpoint
              "bulk" (Some parameters) (log_opens _))
    as (db1 & last & Hlog & Hrows & Hid).
  unfold on_db at 1. rewrite Hlog.
  match goal with
  | |- context [fetch_and_process _ _ _ _ _ ?w0] => set (w1 := w0)
  end.
  unfold fetch_and_process.
  destruct (paginated fuel endpoint max_pages w1) as [[rf w2] |] eqn:Hfetch;
    [| discriminate].
  apply paginated_keeps_log in Hfetch as [[items ->] Hlog2].
  cbn [mbind option_bind]. intros H%(inj Some).
  set (w3 := process_items process_one items w2) in *.
  assert (log_table w3 = log_table w1) as Hlog3.
  { unfold w3. by rewrite (process_items_keeps log_table). }
  destruct (completes_log w w3 Hfresh last) as (w4 & Hfin & Hrun).
  { by rewrite Hlog3. }
  { exact Hid. }
  change (next_id (table_of (db (set_stats zero_stats w)) "api_sync_log"))
    with (next_id (log_table w)) in H.
  rewrite Hfin in H. injection H as <- <-. by eexists.
Qed.

(** X12 — With the shipped fetcher and an engine that accepts the two sync-log
    statements, every one of the four ingestions that ends returns stats,
    and leaves in the sync log the earlier rows as they were plus exactly
    one row, the last: status [completed], with the returned [processed],
    [created], [updated] and [failed] as its four record counters. The
    status [failed] is never written on this path. *)
Theorem completed_run_is_logged (fuel : nat) (max_pages : option Z)
    (w : world) (r : result stats) (w' : world) :
  Forall (fun r => (row_id r < next_id (log_table w))%positive)
    (rows (log_table w)) ->
  (forall congress bill_type from_date to_date,
     ingest_bills fuel congress bill_type from_date to_date max_pages w
     = Some (r, w') ->
     exists s, r = Ok s /\ run_logged w w' "completed" s)
  /\ (forall congress,
        ingest_members fuel congress max_pages w = Some (r, w') ->
        exists s, r = Ok s /\ run_logged w w' "completed" s)
  /\ (forall congress,
        ingest_amendments fuel congress max_pages w = Some (r, w') ->
        exists s, r = Ok s /\ run_logged w w' "completed" s)
  /\ (ingest_committees fuel max_pages w = Some (r, w') ->
      exists s, r = Ok s /\ run_logged w w' "completed" s).
Proof.
  intros Hfresh. split; [| split; [| split]].
  - intros congress bill_type from_date to_date.
    apply ingest_logged; [apply keeps_log_process_bill | done].
  - intros congress.
    apply ingest_logged; [apply keeps_log_process_member | done].
  - intros congress.
    apply ingest_logged; [apply keeps_log_process_amendment | done].
  - unfold ingest_committees, ingest_committees_with.
    destruct (log_sync_appends (db (set_stats zero_stats w)) "committees"
                "bulk" None (log_opens _))
      as (db1 & last & Hlog & Hrows & Hid).
    unfold on_db at 1. rewrite Hlog.
    match goal with
    | |- context [process_chambers _ _ _ ?w0] => set (w1 := w0)
    end.
    cbn [process_chambers mbind option_bind].
    destruct (paginated fuel ("committee/" +:+ "house") max_pages w1)
      as [[rf w2] |] eqn:Hhouse; [| discriminate].
    apply paginated_keeps_log in Hhouse as [[house ->] Hlog2].
    set (w3 := process_items process_committee house w2).
    assert (log_table w3 = log_table w1) as Hlog3.
    { unfold w3. rewrite (process_items_keeps log_table);
        [done | apply keeps_log_process_committee | done]. }
    destruct (paginated fuel ("committee/" +:+ "senate") max_pages w3)
      as [[rf w4] |] eqn:Hsenate; [| discriminate].
    apply paginated_keeps_log in Hsenate as [[senate ->] Hlog4].
    set (w5 := process_items process_committee senate w4).
    assert (log_table w5 = log_table w1) as Hlog5.
    { unfold w5. rewrite (process_items_keeps log_table);
        [congruence | apply keeps_log_process_committee | done]. }
    intros H%(inj Some).
    destruct (completes_log w w5 Hfresh last) as (w6 & Hfin & Hrun).
    { by rewrite Hlog5. }
    { exact Hid. }
    change (next_id (table_of (db (set_stats zero_stats w)) "api_sync_log"))
      with (next_id (log_table w)) in H.
    rewrite Hfin in H. injection H as <- <-. by eexists.
Qed.

End RunLog.

Lemma completed_run_is_logged_witness :
  let w0 := Fixture.start (E:=Fixture.strict) Fixture.one_bill
              empty_database in
  let run := ingest_bills 5 (Some 118) (Some "hr") None None None w0 in
  exists s,
    Ok {| processed := 1; created := 1; updated := 0; failed := 0;
          errors := [] |} = Ok s
    /\ run_logged w0 (Fixture.after w0 run) "completed" s.
Proof.
  intros w0 run.
  apply (proj1 (completed_run_is_logged (E:=Fixture.strict)
                  (fun _ _ => eq_refl) (fun _ _ => eq_refl) 5 None w0
                  (Ok {| processed := 1; created := 1; updated := 0;
                         failed := 0; errors := [] |})
                  (Fixture.after w0 run) (Forall_nil_2 _))
           (Some 118) (Some "hr") None None).
  reflexivity.
Defined.

(** ** The fatal path of [ingest_bills] *)

Section FatalPath.
Context {E : Env}.

Lemma update_sync_log_failed db old last msg :
  (forall p, db_fault db log_update_sql p = None) ->
  rows (table_of db "api_sync_log") = old ++ [last] ->
  Forall (fun r => row_id r ≠ row_id last) old ->
  exists db' last',
    update_sync_log (Some (row_id last)) "failed" 0 0 0 0 (Some msg) db
    = (Ok tt, db')
    /\ rows (table_of db' "api_sync_log") = old ++ [last']
    /\ row_id last' = row_id last
    /\ row_reports last' "failed" 0 0 0 0
    /\ row_cols last' !! "error_message" = Some (Bound (JStr msg)).
Proof.
  intros Hf Hrows Hold. unfold update_sync_log, execute_sql. rewrite Hf.
  unfold log_update_sql, run_statement.
  match goal with
  | |- context [bind_columns ?cols ?p] =>
      destruct (bind_columns_total cols p) as [m Hm];
        [ repeat (apply List.Forall_cons; [by eexists |]);
          apply List.Forall_nil
        | rewrite Hm;
          pose proof (fun c Hc => proj1 (bind_columns_lookup cols p m c Hm Hc))
            as Hlook ]
  end.
  assert (m !! "log_id" ≫= id_of = Some (row_id last)) as Hid
    by by rewrite Hlook by apply list_elem_of_here.
  simpl. eexists _, _. split; [reflexivity |].
  rewrite table_of_set. simpl. rewrite Hrows, map_app. simpl.
  rewrite map_unhit.
  - rewrite bool_decide_true by exact Hid.
    split; [reflexivity |]. split; [reflexivity |].
    unfold row_reports, set_columns. cbn [row_cols].
    repeat split;
      (rewrite set_columns_lookup by (left; by_listing);
       by rewrite Hlook by by_listing).
  - eapply Forall_impl; [exact Hold |]. intros r Hr. simpl in Hr.
    apply bool_decide_eq_false. rewrite Hid. congruence.
Qed.

(** Whatever the two updates of the sync log do, the end of the [try]
    block changes neither the stats nor any table but the log. *)
Lemma finish_completed_frame log_id w :
  self_stats (finish log_id (log_completed log_id w)).2 = self_stats w
  /\ forall t, t ≠ "api_sync_log" ->
       table_of (db (finish log_id (log_completed log_id w)).2) t
       = table_of (db w) t.
Proof.
  unfold finish, log_completed, on_db.
  pose proof (update_sync_log_elsewhere log_id "completed"
                (processed (self_stats w)) (created (self_stats w))
                (updated (self_stats w)) (failed (self_stats w)) None (db w))
    as Hdone.
  destruct (update_sync_log log_id "completed" _ _ _ _ None (db w))
    as [[u | e] db1]; simpl in *; [by split |].
  pose proof (update_sync_log_elsewhere log_id "failed" 0 0 0 0
                (Some (exn_str e)) db1) as Hfailed.
  destruct (update_sync_log log_id "failed" 0 0 0 0 _ db1)
    as [[u | e'] db2]; simpl in *;
    (split; [done |]; intros t Ht; by rewrite Hfailed, Hdone).
Qed.

(** C6 (as amended) — Once the sync log row of an [ingest_bills]
    invocation is opened: if the fetch of that invocation raises [e]
    before it returns any item (leaving store and stats as they were) and
    the engine accepts the update of the log, the stats returned are all
    zero, the row the invocation appended to the log (the last one, with
    the next id of the sequence) is finished with status [failed] and
    [str(e)] as its error message, and no other table is changed; if the
    fetch returns its items, every one of them goes through the item loop
    whatever happens afterwards: the stats count all of them and the
    tables other than the log are those the loop left, and when the
    engine accepts the updates of the log the row of the invocation is
    finished as [completed]. *)
Theorem fetch_failure_is_fatal (fetch : fetcher) (congress : option Z)
    (bill_type from_date to_date : option string) (max_pages : option Z)
    (w : world) :
  (forall p, db_fault (db w) log_insert_sql p = None) ->
  Forall (fun r => (row_id r < next_id (log_table w))%positive)
    (rows (log_table w)) ->
  (forall e w2,
     fetch (bills_endpoint congress bill_type from_date to_date) max_pages
       (bills_opened congress bill_type w) = Some (Raise e, w2) ->
     db w2 = db (bills_opened congress bill_type w) ->
     self_stats w2 = self_stats (bills_opened congress bill_type w) ->
     (forall p, db_fault (db w2) log_update_sql p = None) ->
     exists w',
       ingest_bills_with fetch congress bill_type from_date to_date
         max_pages w = Some (Ok zero_stats, w')
       /\ run_failed w w' (exn_str e)
       /\ forall t, t ≠ "api_sync_log" ->
            table_of (db w') t = table_of (db w) t)
  /\ (forall items w2,
        fetch (bills_endpoint congress bill_type from_date to_date) max_pages
          (bills_opened congress bill_type w) = Some (Ok items, w2) ->
        db w2 = db (bills_opened congress bill_type w) ->
        self_stats w2 = self_stats (bills_opened congress bill_type w) ->
        exists r w',
          ingest_bills_with fetch congress bill_type from_date to_date
            max_pages w = Some (r, w')
          /\ self_stats w' = self_stats (process_items process_bill items w2)
          /\ counters_consistent (self_stats w') (length items)
          /\ (forall t, t ≠ "api_sync_log" ->
                table_of (db w') t
                = table_of (db (process_items process_bill items w2)) t)
          /\ ((forall d p, db_fault d log_update_sql p = None) ->
              exists s, r = Ok s /\ run_logged w w' "completed" s)).
Proof.
  intros Hins Hfresh.
  unfold bills_opened, ingest_bills_with, ingest.
  set (parameters := JObj _). set (endpoint := bills_endpoint _ _ _ _).
  destruct (log_sync_appends (db (set_stats zero_stats w)) "bills" "bulk"
              (Some parameters) Hins) as (db1 & last & Hlog & Hrows & Hid).
  destruct (log_sync_opens (db (set_stats zero_stats w)) "bills" "bulk"
              (Some parameters) Hins) as (i' & db1' & Hlog' & _ & Hother).
  rewrite Hlog in Hlog'. injection Hlog' as _ <-.
  set (w1 := {| client := client (set_stats zero_stats w);
                requested := requested (set_stats zero_stats w);
                sleeps := sleeps (set_stats zero_stats w);
                self_stats := self_stats (set_stats zero_stats w);
                db := db1 |}).
  assert (on_db (log_sync "bills" "bulk" (Some parameters))
            (set_stats zero_stats w)
          = (Ok (Some (next_id (log_table w))), w1)) as Hon
    by (unfold on_db; by rewrite Hlog).
  rewrite Hon. cbn [snd].
  assert (Forall (fun r => row_id r ≠ row_id last)
            (rows (table_of (db w) "api_sync_log"))) as Hold.
  { eapply Forall_impl; [exact Hfresh |]. intros r Hr. simpl in Hr.
    rewrite Hid. change (table_of (db (set_stats zero_stats w)) "api_sync_log")
      with (log_table w). lia. }
  split.
  - intros e w2 Hfetch Hdb Hst Hupd.
    destruct (update_sync_log_failed (db w2) _ last (exn_str e) (Hupd)
                ltac:(rewrite Hdb; exact Hrows) Hold)
      as (db3 & last' & Hup & Hrows' & Hid' & Hrep & Hmsg).
    eexists. unfold fetch_and_process. rewrite Hfetch.
    cbn [mbind option_bind]. unfold finish, on_db.
    change (next_id (table_of (db (set_stats zero_stats w)) "api_sync_log"))
      with (next_id (log_table w)) in *.
    rewrite <- Hid, Hup. split; [by rewrite Hst |]. split.
    + exists last'. unfold log_table at 1. simpl.
      split; [exact Hrows' |]. split; [congruence |]. by split.
    + intros t Ht. simpl.
      pose proof (update_sync_log_elsewhere (Some (row_id last)) "failed"
                    0 0 0 0 (Some (exn_str e)) (db w2) t Ht) as Hel.
      rewrite Hup in Hel. simpl in Hel. rewrite Hel, Hdb. by apply Hother.
  - intros items w2 Hfetch Hdb Hst.
    set (w3 := process_items process_bill items w2).
    destruct (finish_completed_frame (Some (next_id (log_table w))) w3)
      as [Hstats Htables].
    eexists _, _. unfold fetch_and_process. rewrite Hfetch.
    cbn [mbind option_bind]. fold w3.
    split; [apply f_equal, surjective_pairing |].
    split; [exact Hstats |]. split.
    { rewrite Hstats. apply (process_items_consistent _ _ _ 0%nat);
        [apply keeps_stats_process_bill |].
      rewrite Hst. by repeat split. }
    split; [exact Htables |].
    intros Hupd.
    assert (rows (log_table w3) = rows (log_table w) ++ [last]) as Hrows3.
    { unfold w3. rewrite (process_items_keeps log_table);
        [| exact keeps_log_process_bill | done].
      unfold log_table. by rewrite Hdb. }
    destruct (completes_log Hupd w w3 Hfresh last Hrows3)
      as (w4 & Hfin & Hrun).
    { exact Hid. }
    rewrite Hfin. by eexists.
Qed.

End FatalPath.

Lemma fetch_failure_is_fatal_witness :
  let w0 := Fixture.start (E:=Fixture.strict) Fixture.two_pages
              empty_database in
  exists w',
    ingest_bills_with (Fixture.raising (TransportFailure "no route"))
      (Some 118) (Some "hr") None None None w0
    = Some (Ok zero_stats, w')
    /\ run_failed w0 w' "no route"
    /\ forall t, t ≠ "api_sync_log" ->
         table_of (db w') t = table_of (db w0) t.
Proof.
  intros w0.
  apply (proj1 (fetch_failure_is_fatal (E:=Fixture.strict)
                  (Fixture.raising (TransportFailure "no route"))
                  (Some 118) (Some "hr") None None None w0
                  (fun _ => eq_refl) (Forall_nil_2 _))
           (TransportFailure "no route")
           (bills_opened (E:=Fixture.strict) (Some 118) (Some "hr") w0)).
  - reflexivity.
  - reflexivity.
  - reflexivity.
  - intros p. reflexivity.
Defined.

(** C6 (as stated) fails: a fetch that raises is not the only path
    that aborts the whole batch. When the engine refuses to open the
    sync log row, [ingest_bills] raises before it fetches: nothing is
    requested and no bill is stored, although the fetch would have
    returned a bill. *)
Lemma log_open_failure_aborts :
  let w0 := Fixture.start (E:=Sample.no_log) Fixture.one_bill
              empty_database in
  (exists w',
     ingest_bills (E:=Sample.no_log) 5 (Some 118) (Some "hr") None None None
       w0
     = Some (Raise (DatabaseFailure "connection refused"), w')
     /\ requested w' = []
     /\ rows (table_of (db w') "bills") = []
     /\ rows (log_table w') = [])
  /\ exists w',
       paginated (E:=Sample.no_log) 5 "bill/118/hr" None w0
       = Some (Ok [Fixture.bill 1 "A"], w').
Proof.
  intros w0. split.
  - eexists. split; [reflexivity |]. by repeat split.
  - eexists. reflexivity.
Qed.

(** ** A sync log that cannot be written *)

Section LogFaults.
Context {E : Env}.

(** X13 — The sync log row is opened before the [try] of an ingestion: when the
    engine refuses the insert with [e], each of the four methods raises
    [e] itself instead of returning stats. By then [self.stats] has been
    reset; no wait and no request were made and no table was changed. *)
Theorem log_failure_escapes (fuel : nat) (max_pages : option Z) (w : world)
    (e : exn) (run : option (result stats * world)) :
  (forall p, db_fault (db w) log_insert_sql p = Some e) ->
  (exists congress bill_type from_date to_date,
     run = ingest_bills fuel congress bill_type from_date to_date max_pages w)
  \/ (exists congress, run = ingest_members fuel congress max_pages w)
  \/ (exists congress, run = ingest_amendments fuel congress max_pages w)
  \/ run = ingest_committees fuel max_pages w ->
  exists w',
    run = Some (Raise e, w')
    /\ self_stats w' = zero_stats
    /\ requested w' = requested w
    /\ sleeps w' = sleeps w
    /\ tables (db w') = tables (db w).
Proof.
  intros Hf.
  assert (forall endpoint parameters,
            on_db (log_sync endpoint "bulk" parameters)
              (set_stats zero_stats w)
            = (Raise e,
               {| client := client w; requested := requested w;
                  sleeps := sleeps w; self_stats := zero_stats;
                  db := tick (db w) |})) as Hopen.
  { intros endpoint parameters. unfold on_db, log_sync, execute_sql.
    change (db (set_stats zero_stats w)) with (db w). by rewrite Hf. }
  intros [(congress & bill_type & from_date & to_date & ->)
         | [[congress ->] | [[congress ->] | ->]]];
    eexists;
    unfold ingest_bills, ingest_bills_with, ingest_members,
      ingest_members_with, ingest_amendments, ingest_amendments_with,
      ingest_committees, ingest_committees_with, ingest;
    rewrite Hopen; by repeat split.
Qed.

(** X14 — [update_sync_log] changes no row when its [log_id] is [None] (what
    [log_sync] returns when the insert yields no row) or the id of no
    row: the statement matches nothing and no row is added. *)
Theorem update_sync_log_without_row (log_id : option positive)
    (status : string) (a b c d : nat) (msg : option string) (db : database) :
  (forall i, log_id = Some i ->
             Forall (fun r => row_id r ≠ i)
               (rows (table_of db "api_sync_log"))) ->
  forall t, table_of (update_sync_log log_id status a b c d msg db).2 t
            = table_of db t.
Proof.
  intros Hnone t.
  destruct (decide (t = "api_sync_log")) as [-> | Ht];
    [| by apply update_sync_log_elsewhere].
  unfold update_sync_log, execute_sql.
  destruct (db_fault _ _ _); [done |].
  unfold log_update_sql, run_statement.
  match goal with
  | |- context [bind_columns ?cols ?p] =>
      destruct (bind_columns_total cols p) as [m Hm];
        [ repeat (apply List.Forall_cons; [by eexists |]);
          apply List.Forall_nil
        | rewrite Hm;
          pose proof (fun c Hc => proj1 (bind_columns_lookup cols p m c Hm Hc))
            as Hlook ]
  end.
  simpl. rewrite table_of_set.
  assert (m !! "log_id" = Some (bound_id log_id)) as Hid
    by by rewrite Hlook by apply list_elem_of_here.
  rewrite map_unhit; [by destruct (table_of db "api_sync_log") |].
  destruct log_id as [i |].
  - eapply Forall_impl; [exact (Hnone i eq_refl) |]. intros r Hr.
    simpl in Hr. apply bool_decide_eq_false. rewrite Hid. simpl. congruence.
  - apply Forall_forall. intros r _. apply bool_decide_eq_false.
    by rewrite Hid.
Qed.

End LogFaults.

Lemma log_failure_escapes_witness :
  let w0 := Fixture.start (E:=Sample.no_log) Fixture.one_bill
              empty_database in
  exists w',
    ingest_members (E:=Sample.no_log) 5 (Some 118) None w0
    = Some (Raise (DatabaseFailure "connection refused"), w')
    /\ self_stats w' = zero_stats
    /\ requested w' = requested w0
    /\ sleeps w' = sleeps w0
    /\ tables (db w') = tables (db w0).
Proof.
  intros w0.
  apply (log_failure_escapes (E:=Sample.no_log) 5 None w0
           (DatabaseFailure "connection refused")
           (ingest_members (E:=Sample.no_log) 5 (Some 118) None w0)
           (fun _ => eq_refl)).
  right. left. by exists (Some 118).
Defined.

Lemma update_sync_log_without_row_witness :
  table_of
    (update_sync_log (E:=Fixture.strict) (Some 9%positive) "completed"
       1 1 0 0 None Sample.logged_once).2 "api_sync_log"
  = table_of Sample.logged_once "api_sync_log".
Proof.
  apply (update_sync_log_without_row (E:=Fixture.strict) (Some 9%positive)
           "completed" 1 1 0 0 None Sample.logged_once).
  intros i [= <-]. by repeat constructor.
Defined.

(** ** Reading bills back *)

Lemma key_matches_lookup (target : list string) (p : gmap string sqlval)
    (r : row) (c : string) :
  key_matches target p r = true -> c ∈ target ->
  row_cols r !! c = p !! c /\ is_Some (p !! c).
Proof.
  unfold key_matches. rewrite forallb_forall. intros H Hc.
  specialize (H c (proj1 (list_elem_of_In _ _) Hc)).
  destruct (p !! c) as [a |]; [| done].
  destruct (row_cols r !! c) as [v |]; [| done].
  apply andb_true_iff in H as [_ H]. apply sqlval_eqb_eq in H.
  subst v. split; [done | by eexists].
Qed.

Lemma key_matches_narrow (target narrow : list string)
    (p q : gmap string sqlval) (r : row) :
  key_matches target p r = true ->
  (forall c, c ∈ narrow -> c ∈ target /\ q !! c = p !! c) ->
  key_matches narrow q r = true.
Proof.
  unfold key_matches. rewrite !forallb_forall. intros H Hsub c Hc.
  apply list_elem_of_In in Hc. destruct (Hsub c Hc) as [Hin ->].
  apply H. by apply list_elem_of_In.
Qed.

Section Queries.
Context {E : Env} {R : Reader}.

Lemma get_bills_params_paging congress bill_type limit offset :
  int_param (get_bills_params congress bill_type limit offset) "limit"
  = Some limit
  /\ int_param (get_bills_params congress bill_type limit offset) "offset"
     = Some offset.
Proof.
  unfold get_bills_params, int_param.
  destruct (truthy (opt_num congress)), (truthy (opt_str bill_type));
    by rewrite ?lookup_insert_ne by done.
Qed.

Lemma get_bills_params_filters congress bill_type limit offset c :
  c ∈ get_bills_conditions congress bill_type ->
  get_bills_params congress bill_type limit offset !! c
  = if decide (c = "congress") then Some (Bound (opt_num congress))
    else Some (Bound (opt_str bill_type)).
Proof.
  unfold get_bills_conditions, get_bills_params.
  destruct (truthy (opt_num congress)), (truthy (opt_str bill_type));
    simpl; intros Hc;
    repeat (apply elem_of_cons in Hc as [-> | Hc]);
    try (by apply elem_of_nil in Hc);
    by rewrite ?lookup_insert_eq, ?lookup_insert_ne by done.
Qed.

Hypothesis order_permutes : forall column rs, order_desc column rs ≡ₚ rs.

(** X15 — What [get_bills] returns are stored bills, not more than [limit] of
    them, each with the congress asked for when that filter is true and
    with the bill type asked for when that one is true; it writes
    nothing. A filter that is false (congress [0], type [""]) is the same
    as no filter. *)
Theorem get_bills_returns_matching (congress : option Z)
    (bill_type : option string) (limit offset : Z) (db : database)
    (rs : list row) (db' : database) :
  get_bills congress bill_type limit offset db = (Ok rs, db') ->
  tables db' = tables db
  /\ (length rs <= Z.to_nat limit)%nat
  /\ Forall (fun r =>
               r ∈ rows (table_of db "bills")
               /\ (forall n, congress = Some n -> n ≠ 0 ->
                             row_cols r !! "congress" = Some (Bound (JNum n)))
               /\ (forall t, bill_type = Some t -> t ≠ "" ->
                             row_cols r !! "bill_type"
                             = Some (Bound (JStr t)))) rs
  /\ get_bills (Some 0) (Some "") limit offset db
     = get_bills None None limit offset db.
Proof.
  unfold get_bills at 1, execute_select.
  destruct (query_fault _ _ _); [discriminate |].
  unfold run_select.
  destruct (get_bills_params_paging congress bill_type limit offset)
    as [-> ->].
  destruct (Z.ltb limit 0); [discriminate |].
  destruct (Z.ltb offset 0); [discriminate |].
  cbn [from_table where_equal order_by_desc].
  intros [= <- <-]. split; [done |]. split.
  { rewrite length_take. lia. }
  split; [| reflexivity].
  apply Forall_forall. intros r Hr.
  apply subseteq_take, subseteq_drop in Hr.
  rewrite order_permutes in Hr.
  apply list_elem_of_In, filter_In in Hr as [Hin Hmatch].
  apply list_elem_of_In in Hin. split; [exact Hin |]. split.
  - intros n -> Hn.
    assert ("congress" ∈ get_bills_conditions (Some n) bill_type) as Hc.
    { unfold get_bills_conditions. simpl.
      rewrite (proj2 (Z.eqb_neq n 0) Hn). simpl. apply list_elem_of_here. }
    destruct (key_matches_lookup _ _ _ _ Hmatch Hc) as [-> _].
    by rewrite (get_bills_params_filters _ _ _ _ _ Hc).
  - intros t -> Ht.
    assert ("bill_type" ∈ get_bills_conditions congress (Some t)) as Hc.
    { unfold get_bills_conditions. apply elem_of_app. right. simpl.
      destruct t; [done | apply list_elem_of_here]. }
    destruct (key_matches_lookup _ _ _ _ Hmatch Hc) as [-> _].
    by rewrite (get_bills_params_filters _ _ _ _ _ Hc).
Qed.

End Queries.

Section RoundTrip.
Context {E : Env} {R : Reader}.
Hypothesis order_permutes : forall column rs, order_desc column rs ≡ₚ rs.

Lemma stored_row_matches d p db i db1 :
  make_params (bill_entries d) = Ok p ->
  key_present bill_key p = true ->
  insert_bill d db = (Ok (Some i), db1) ->
  exists r, r ∈ rows (table_of db1 "bills")
            /\ row_id r = i
            /\ key_matches bill_key p r = true.
Proof.
  intros Hp Hkey Hins. unfold insert_bill, bill_sql in Hins.
  apply insert_with_Some in Hins
    as (p' & proposed & Hp' & Hbind & _ & Hcase).
  rewrite Hp in Hp'. injection Hp' as <-.
  pose proof (fun r => key_matches_proposed bill_key _ p proposed r
                          bill_key_listed Hbind) as Hprop.
  destruct Hcase as [(rs' & Hupd & Hrows) | [_ Hrows]].
  - apply update_conflicting_Some in Hupd
      as (pre & r & post & _ & Hmatch & -> & ->).
    eexists. split; [| split].
    + rewrite Hrows. apply elem_of_app. right. apply list_elem_of_here.
    + reflexivity.
    + rewrite key_matches_do_update by exact bill_key_kept.
      by rewrite <- Hprop.
  - eexists. split; [| split].
    + rewrite Hrows. apply elem_of_app. right. apply list_elem_of_here.
    + reflexivity.
    + apply key_matches_new; [done | | by_listing | by_listing].
      intros c Hc.
      apply (bind_columns_lookup _ _ _ _ Hbind), bill_key_listed, Hc.
Qed.

(** X16 — A bill that [insert_bill] stored is returned by [get_bills] asked for
    its congress and its type, on a first page long enough for the
    table: the row with the identifier the insert returned is among the
    results. *)
Theorem stored_bill_is_found (d : json) (p : gmap string sqlval)
    (n : Z) (t : string) (db : database) (i : positive) (db1 : database)
    (limit : Z) :
  make_params (bill_entries d) = Ok p ->
  key_present bill_key p = true ->
  p !! "congress" = Some (Bound (JNum n)) ->
  p !! "bill_type" = Some (Bound (JStr t)) ->
  insert_bill d db = (Ok (Some i), db1) ->
  (forall q gp, query_fault db1 q gp = None) ->
  (length (rows (table_of db1 "bills")) <= Z.to_nat limit)%nat ->
  exists rs db2 r,
    get_bills (Some n) (Some t) limit 0 db1 = (Ok rs, db2)
    /\ r ∈ rs /\ row_id r = i.
Proof.
  intros Hp Hkey Hcongress Htype Hins Hq Hlimit.
  destruct (stored_row_matches d p db i db1 Hp Hkey Hins)
    as (r & Hin & Hid & Hmatch).
  unfold get_bills, execute_select. rewrite Hq. unfold run_select.
  destruct (get_bills_params_paging (Some n) (Some t) limit 0) as [-> ->].
  destruct (Z.ltb_spec limit 0) as [Hneg | _].
  { destruct (rows (table_of db1 "bills")); [by apply elem_of_nil in Hin |].
    simpl in Hlimit. lia. }
  cbn [Z.ltb Z.compare from_table where_equal order_by_desc Z.to_nat].
  eexists _, _, r. split; [reflexivity |]. split; [| exact Hid].
  rewrite drop_0, take_ge.
  - rewrite order_permutes. apply list_elem_of_In, filter_In.
    split; [by apply list_elem_of_In |].
    apply (key_matches_narrow bill_key _ p); [exact Hmatch |].
    intros c Hc. rewrite (get_bills_params_filters _ _ _ _ _ Hc).
    assert (c = "congress" \/ c = "bill_type") as [-> | ->].
    { unfold get_bills_conditions in Hc.
      destruct (truthy _), (truthy _); simpl in Hc;
        repeat (apply elem_of_cons in Hc as [-> | Hc]); auto;
        by apply elem_of_nil in Hc. }
    + split; [by_listing | by rewrite Hcongress].
    + split; [by_listing | by rewrite Htype].
  - rewrite order_permutes.
    eapply Nat.le_trans; [apply filter_length_le | exact Hlimit].
Qed.

End RoundTrip.

Lemma get_bills_returns_matching_witness :
  tables (tick Fixture.stored_twice) = tables Fixture.stored_twice
  /\ (length Sample.found_bills <= Z.to_nat 10)%nat
  /\ Forall (fun r =>
               r ∈ rows (table_of Fixture.stored_twice "bills")
               /\ (forall n, Some 118 = Some n -> n ≠ 0 ->
                             row_cols r !! "congress" = Some (Bound (JNum n)))
               /\ (forall t, Some "hr" = Some t -> t ≠ "" ->
                             row_cols r !! "bill_type"
                             = Some (Bound (JStr t)))) Sample.found_bills
  /\ get_bills (R:=Sample.newest_first) (Some 0) (Some "") 10 0
       Fixture.stored_twice
     = get_bills (R:=Sample.newest_first) None None 10 0 Fixture.stored_twice.
Proof.
  apply (get_bills_returns_matching (R:=Sample.newest_first)
           (fun _ rs => reverse_Permutation rs)
           (Some 118) (Some "hr") 10 0 Fixture.stored_twice
           Sample.found_bills (tick Fixture.stored_twice)).
  reflexivity.
Defined.

Lemma stored_bill_is_found_witness :
  exists rs db2 r,
    get_bills (R:=Sample.newest_first) (Some 118) (Some "hr") 10 0
      Fixture.stored_once = (Ok rs, db2)
    /\ r ∈ rs /\ row_id r = 1%positive.
Proof.
  apply (stored_bill_is_found (E:=Fixture.strict) (R:=Sample.newest_first)
           (fun _ rs => reverse_Permutation rs)
           (Fixture.bill 1 "A")
           (Fixture.params_of (bill_entries (Fixture.bill 1 "A")))
           118 "hr" empty_database 1%positive Fixture.stored_once 10).
  - reflexivity.
  - reflexivity.
  - reflexivity.
  - reflexivity.
  - reflexivity.
  - reflexivity.
  - vm_compute. lia.
Defined.

(** ** The requests of an ingestion *)

Lemma string_app_assoc (a b c : string) : (a +:+ b) +:+ c = a +:+ b +:+ c.
Proof.
  induction a as [| x a IH]; [done |].
  change (String x ((a +:+ b) +:+ c) = String x (a +:+ b +:+ c)).
  by f_equal.
Qed.

Section Requests.
Context {E : Env}.

Lemma asked_after_refl w : asked_after w w.
Proof. exists []. by rewrite app_nil_r. Qed.

Lemma asked_after_same w w' : requested w' = requested w -> asked_after w w'.
Proof. intros H. exists []. by rewrite app_nil_r. Qed.

Lemma asked_after_trans w1 w2 w3 :
  asked_after w1 w2 -> asked_after w2 w3 -> asked_after w1 w3.
Proof.
  intros [m1 H1] [m2 H2]. exists (m1 ++ m2). by rewrite H2, H1, app_assoc.
Qed.

Lemma only_asks_ret {A} (a : A) : only_asks (mret a).
Proof. intros w. apply asked_after_refl. Qed.

Lemma only_asks_lift {A} (r : result A) : only_asks (lift r).
Proof. intros w. apply asked_after_refl. Qed.

Lemma only_asks_bind {A B} (m : M A) (k : A -> M B) :
  only_asks m -> (forall a, only_asks (k a)) -> only_asks (m ≫= k).
Proof.
  intros Hm Hk w. unfold mbind, M_bind. specialize (Hm w).
  destruct (m w) as [[a | e] w1]; simpl in *; [| done].
  eapply asked_after_trans; [exact Hm | apply Hk].
Qed.

Lemma only_asks_on_db {A} (f : database -> result A * database) :
  only_asks (on_db f).
Proof.
  intros w. apply asked_after_same. unfold on_db. by destruct (f (db w)).
Qed.

Lemma only_asks_rate_limit : only_asks _rate_limit.
Proof. intros w. by apply asked_after_same. Qed.

Lemma only_asks_client_call path : only_asks (client_call path).
Proof.
  intros w. exists [path]. unfold client_call.
  by destruct (client_get (client w) path) as [c [e | body status]].
Qed.

Ltac solve_asks :=
  repeat first
    [ apply only_asks_bind; [| intros ?]
    | match goal with |- only_asks (if ?b then _ else _) => destruct b end
    | apply only_asks_ret | apply only_asks_lift | apply only_asks_rate_limit
    | apply only_asks_client_call | apply only_asks_on_db ].

Lemma only_asks_process_bill item : only_asks (process_bill item).
Proof. unfold process_bill, enrich_bill. solve_asks. Qed.

Lemma only_asks_process_committee item : only_asks (process_committee item).
Proof. unfold process_committee. solve_asks. Qed.

Lemma process_items_asks process_one items :
  (forall item, only_asks (process_one item)) ->
  forall w, asked_after w (process_items process_one items w).
Proof.
  intros Hk. induction items as [| item items IH]; intros w; simpl;
    [apply asked_after_refl |].
  pose proof (Hk item w) as Hitem.
  destruct (process_one item w) as [r w1]. simpl in Hitem.
  eapply asked_after_trans; [exact Hitem |].
  eapply asked_after_trans; [| apply IH]. by apply asked_after_same.
Qed.

Lemma fetch_loop_asks fuel : forall max_pages all_items page url w items w',
  fetch_loop fuel max_pages all_items page url w = Some (items, w') ->
  asked_after w w'.
Proof.
  induction fuel as [| fuel IH]; intros max_pages all_items page url w
    items w'; simpl.
  - destruct (truthy url && under_cap max_pages page); [discriminate |].
    intros [= <- <-]. apply asked_after_refl.
  - destruct (truthy url && under_cap max_pages page);
      [| intros [= <- <-]; apply asked_after_refl].
    destruct (fetch_page all_items url w) as [[next acc] w1] eqn:Hpage.
    apply fetch_page_asks in Hpage as [Hreq _].
    assert (asked_after w w1) as H1 by by exists [url].
    destruct next as [next |].
    + intros H. apply IH in H. by eapply asked_after_trans.
    + by intros [= <- <-].
Qed.

Lemma first_url_truthy endpoint limit :
  truthy (JStr (first_url endpoint limit)) = true.
Proof. unfold first_url. by destruct endpoint. Qed.

(** The first request of a fetch that may fetch at all. *)
Lemma paginated_first fuel endpoint max_pages w r w' :
  under_cap max_pages 0 = true ->
  paginated (S fuel) endpoint max_pages w = Some (r, w') ->
  exists more,
    requested w' = requested w ++ JStr (first_url endpoint 250) :: more.
Proof.
  intros Hcap. unfold paginated, _fetch_paginated.
  destruct (fetch_loop _ _ _ _ _ _) as [[items w1] |] eqn:Hloop;
    [| discriminate].
  intros [= <- <-]. cbn [fetch_loop] in Hloop.
  rewrite first_url_truthy, Hcap in Hloop. cbn [andb] in Hloop.
  destruct (fetch_page _ _ w) as [[next acc] w2] eqn:Hpage.
  apply fetch_page_asks in Hpage as [Hreq _].
  destruct next as [next |].
  - apply fetch_loop_asks in Hloop as [more Hmore].
    exists more. by rewrite Hmore, Hreq, <- app_assoc.
  - injection Hloop as <- <-. by exists [].
Qed.

Lemma finish_requested log_id (tried : result unit * world) :
  requested (finish log_id tried).2 = requested tried.2.
Proof.
  unfold finish. destruct tried as [[u | e] w]; simpl; [done |].
  unfold on_db. destruct (update_sync_log _ _ _ _ _ _ _ _) as [[u | e'] d];
    done.
Qed.

Lemma log_completed_requested log_id w :
  requested (log_completed log_id w).2 = requested w.
Proof.
  unfold log_completed, on_db. by destruct (update_sync_log _ _ _ _ _ _ _ _).
Qed.

Lemma ingest_first_request fuel log_endpoint parameters endpoint max_pages
    process_one w s w' :
  (forall item, only_asks (process_one item)) ->
  under_cap max_pages 0 = true ->
  ingest (paginated (S fuel)) log_endpoint parameters endpoint max_pages
    process_one w = Some (Ok s, w') ->
  exists more,
    requested w' = requested w ++ JStr (first_url endpoint 250) :: more.
Proof.
  intros Hk Hcap. unfold ingest.
  pose proof (only_asks_on_db
                (log_sync log_endpoint "bulk" (Some parameters))
                (set_stats zero_stats w)) as Hlog.
  destruct (on_db _ (set_stats zero_stats w)) as [[log_id | e] w1] eqn:Hon;
    [| discriminate].
  assert (requested w1 = requested w) as Hreq1.
  { unfold on_db in Hon. destruct (log_sync _ _ _ _) in Hon.
    by injection Hon as _ <-. }
  unfold fetch_and_process.
  destruct (paginated (S fuel) endpoint max_pages w1) as [[[items | e] w2] |]
    eqn:Hfetch; [| | discriminate];
    apply paginated_first in Hfetch as [more Hmore]; try done.
  - cbn [mbind option_bind]. intros H%(inj Some).
    apply (f_equal snd) in H. cbn [snd] in H.
    apply (f_equal requested) in H.
    rewrite finish_requested, log_completed_requested in H.
    destruct (process_items_asks process_one items Hk w2) as [more' Hmore'].
    exists (more ++ more').
    by rewrite <- H, Hmore', Hmore, Hreq1, <- app_assoc.
  - cbn [mbind option_bind]. intros H%(inj Some).
    apply (f_equal snd) in H. cbn [snd] in H.
    apply (f_equal requested) in H. rewrite finish_requested in H.
    cbn [snd] in H. exists more. by rewrite <- H, Hmore, Hreq1.
Qed.

(** X17 — [sync_recent_bills] appends its date filters to the endpoint before
    [_fetch_paginated] appends the paging ones: a run that returns stats
    has asked first for a path with two question marks, the window from
    [from_iso] to [to_iso] with [Z] after each, and pages of 250 from
    offset 0. *)
Theorem sync_recent_bills_first_request (fuel : nat)
    (from_iso to_iso : string) (w : world) (s : stats) (w' : world) :
  sync_recent_bills (S fuel) from_iso to_iso w = Some (Ok s, w') ->
  exists more,
    requested w'
    = requested w
      ++ JStr ("bill?fromDateTime=" +:+ from_iso +:+ "Z&toDateTime="
               +:+ to_iso +:+ "Z?limit=250&offset=0") :: more.
Proof.
  unfold sync_recent_bills, ingest_bills, ingest_bills_with. intros H.
  apply ingest_first_request in H as [more Hmore];
    [| exact only_asks_process_bill | done].
  exists more. rewrite Hmore. do 3 f_equal.
  unfold bills_endpoint, first_url.
  assert (forall x, negb (String.eqb (x +:+ "Z") "") = true) as Hz
    by by intros [| a x].
  cbn [opt_num opt_str from_option truthy andb str].
  rewrite !Hz. cbn [orb List.app app String.concat].
  change (pretty 250) with "250".
  rewrite !string_app_assoc. reflexivity.
Qed.

(** X18 — [ingest_committees] asks for the House list and then for the Senate
    list whatever the House answers: a House fetch that ends on an error
    yields no items and does not end the run. *)
Theorem committees_asks_both_chambers (fuel : nat) (max_pages : option Z)
    (w : world) (s : stats) (w' : world) :
  under_cap max_pages 0 = true ->
  ingest_committees (S fuel) max_pages w = Some (Ok s, w') ->
  exists between more,
    requested w'
    = requested w
      ++ JStr "committee/house?limit=250&offset=0" :: between
      ++ JStr "committee/senate?limit=250&offset=0" :: more.
Proof.
  intros Hcap. unfold ingest_committees, ingest_committees_with.
  destruct (on_db _ (set_stats zero_stats w)) as [[log_id | e] w1] eqn:Hon;
    [| discriminate].
  assert (requested w1 = requested w) as Hreq1.
  { unfold on_db in Hon. destruct (log_sync _ _ _ _) in Hon.
    by injection Hon as _ <-. }
  cbn [process_chambers mbind option_bind].
  destruct (paginated (S fuel) ("committee/" +:+ "house") max_pages w1)
    as [[[house | e] w2] |] eqn:Hhouse; [| | discriminate].
  2: { unfold paginated in Hhouse.
       by destruct (_fetch_paginated _ _ _ _ _) as [[? ?] |]. }
  apply paginated_first in Hhouse as [more1 Hmore1]; [| done].
  destruct (process_items_asks process_committee house
              only_asks_process_committee w2) as [more2 Hmore2].
  destruct (paginated (S fuel) ("committee/" +:+ "senate") max_pages
              (process_items process_committee house w2))
    as [[[senate | e] w4] |] eqn:Hsenate; [| | discriminate].
  2: { unfold paginated in Hsenate.
       by destruct (_fetch_paginated _ _ _ _ _) as [[? ?] |]. }
  apply paginated_first in Hsenate as [more3 Hmore3]; [| done].
  destruct (process_items_asks process_committee senate
              only_asks_process_committee w4) as [more4 Hmore4].
  intros H%(inj Some). apply (f_equal snd) in H. cbn [snd] in H.
  apply (f_equal requested) in H.
  rewrite finish_requested, log_completed_requested in H.
  exists (more1 ++ more2), (more3 ++ more4).
  rewrite <- H, Hmore4, Hmore3, Hmore2, Hmore1, Hreq1.
  change (first_url ("committee/" +:+ "house") 250)
    with "committee/house?limit=250&offset=0".
  change (first_url ("committee/" +:+ "senate") 250)
    with "committee/senate?limit=250&offset=0".
  by rewrite <- !app_assoc.
Qed.

End Requests.

Lemma sync_recent_bills_first_request_witness :
  let w0 := Fixture.start (E:=Fixture.strict) [] empty_database in
  let run := sync_recent_bills (E:=Fixture.strict) 1 "2024-01-01T00:00:00"
               "2024-01-08T00:00:00" w0 in
  exists more,
    requested (Fixture.after w0 run)
    = requested w0
      ++ JStr ("bill?fromDateTime=" +:+ "2024-01-01T00:00:00"
               +:+ "Z&toDateTime=" +:+ "2024-01-08T00:00:00"
               +:+ "Z?limit=250&offset=0") :: more.
Proof.
  intros w0 run.
  apply (sync_recent_bills_first_request (E:=Fixture.strict) 0
           "2024-01-01T00:00:00" "2024-01-08T00:00:00" w0 zero_stats
           (Fixture.after w0 run)).
  reflexivity.
Defined.

Lemma committees_asks_both_chambers_witness :
  let w0 := Fixture.start (E:=Fixture.strict) Sample.senate_only
              empty_database in
  let run := ingest_committees (E:=Fixture.strict) 2 None w0 in
  exists between more,
    requested (Fixture.after w0 run)
    = requested w0
      ++ JStr "committee/house?limit=250&offset=0" :: between
      ++ JStr "committee/senate?limit=250&offset=0" :: more.
Proof.
  intros w0 run.
  apply (committees_asks_both_chambers (E:=Fixture.strict) 1 None w0
           {| processed := 1; created := 1; updated := 0; failed := 0;
              errors := [] |}
           (Fixture.after w0 run)).
  - reflexivity.
  - vm_compute. reflexivity.
Defined.

(** ** The member loop *)

Section MemberLoop.
Context {E : Env}.

(** X19 — The detail fetch of the member loop. An item without a true
    [bioguideId] is stored as listed and nothing is requested. Otherwise
    [member/<id>] is requested after one wait, and whatever the status
    code, the [member] entry of the reply replaces the item entirely (the
    item itself is kept when the reply has no such entry); a transport
    error, or a reply that is not an object, ends the item with an
    exception before anything is stored. *)
Theorem member_detail_replaces_item (kvs : list (string * json))
    (w : world) :
  let item := JObj kvs in
  let id := default JNull (lookup_key "bioguideId" kvs) in
  let path := JStr ("member/" +:+ str id) in
  (truthy id = false ->
   process_member item w = on_db (insert_member item) w)
  /\ (forall c body status_code,
        truthy id = true ->
        client_get (client w) path = (c, Replies (JObj body) status_code) ->
        process_member item w
        = on_db (insert_member (default item (lookup_key "member" body)))
            (asked w c path))
  /\ (forall c e,
        truthy id = true ->
        client_get (client w) path = (c, Fails e) ->
        process_member item w = (Raise e, asked w c path))
  /\ (forall c body status_code,
        truthy id = true ->
        (forall entries, body ≠ JObj entries) ->
        client_get (client w) path = (c, Replies body status_code) ->
        exists e, process_member item w = (Raise e, asked w c path)).
Proof.
  intros item id path. subst item path. unfold process_member.
  unfold mbind, M_bind, lift, _rate_limit, client_call. simpl get.
  change (default JNull (lookup_key "bioguideId" kvs)) with id.
  clearbody id. split; [| split; [| split]].
  - intros ->. reflexivity.
  - intros c body status_code -> Hget. simpl. by rewrite Hget.
  - intros c e -> Hget. simpl. by rewrite Hget.
  - intros c body status_code -> Hbody Hget. simpl. rewrite Hget. simpl.
    destruct body; try (by eexists). by destruct (Hbody kvs0).
Qed.

Lemma refused_is_updated sql entries p e w :
  make_params entries = Ok p ->
  db_fault (db w) sql p = Some e ->
  let w' := process_items (fun _ => on_db (insert_with sql entries))
              [JNull] w in
  self_stats w' = count_updated (self_stats w)
  /\ tables (db w') = tables (db w)
  /\ requested w' = requested w.
Proof.
  intros Hp Hf. simpl. unfold on_db.
  by rewrite (insert_with_fault sql entries p (db w) e Hp Hf).
Qed.

(** X20 — An item whose statement the engine refuses is counted as updated and
    processed, not as failed, in the member, amendment and committee
    loops: the insert method swallows the error and returns [None], and
    the loop takes [None] for an update. No table is changed and nothing
    is requested (for a member, when the item has no true [bioguideId]). *)
Theorem refused_item_is_counted_updated (item : json)
    (p : gmap string sqlval) (e : exn) (w : world) :
  (forall id,
     get item "bioguideId" JNull = Ok id -> truthy id = false ->
     make_params (member_entries item) = Ok p ->
     db_fault (db w) member_sql p = Some e ->
     let w' := process_items process_member [item] w in
     self_stats w' = count_updated (self_stats w)
     /\ tables (db w') = tables (db w)
     /\ requested w' = requested w)
  /\ (make_params (amendment_entries item) = Ok p ->
      db_fault (db w) amendment_sql p = Some e ->
      let w' := process_items process_amendment [item] w in
      self_stats w' = count_updated (self_stats w)
      /\ tables (db w') = tables (db w)
      /\ requested w' = requested w)
  /\ (make_params (committee_entries item) = Ok p ->
      db_fault (db w) committee_sql p = Some e ->
      let w' := process_items process_committee [item] w in
      self_stats w' = count_updated (self_stats w)
      /\ tables (db w') = tables (db w)
      /\ requested w' = requested w).
Proof.
  split; [| split].
  - intros id Hid Hfalse Hp Hf.
    assert (process_member item w = on_db (insert_member item) w) as Hm.
    { unfold process_member, mbind, M_bind, lift. by rewrite Hid, Hfalse. }
    pose proof (refused_is_updated member_sql (member_entries item) p e w
                  Hp Hf) as H.
    simpl in *. by rewrite Hm.
  - intros Hp Hf.
    exact (refused_is_updated amendment_sql (amendment_entries item) p e w
             Hp Hf).
  - intros Hp Hf.
    exact (refused_is_updated committee_sql (committee_entries item) p e w
             Hp Hf).
Qed.

End MemberLoop.

Lemma member_detail_replaces_item_witness :
  let w0 := Fixture.start (E:=Fixture.strict) Sample.with_member
              empty_database in
  process_member (E:=Fixture.strict) Sample.listed_member w0
  = on_db (insert_member (E:=Fixture.strict) Sample.member_detail)
      (asked (E:=Fixture.strict) w0 Sample.with_member
         (JStr "member/B000944")).
Proof.
  intros w0.
  apply (proj1 (proj2 (member_detail_replaces_item (E:=Fixture.strict)
                         [ ("bioguideId", JStr "B000944");
                           ("name", JStr "Brown, Sherrod") ] w0))
           Sample.with_member [("member", Sample.member_detail)] 200).
  - reflexivity.
  - reflexivity.
Defined.

Lemma refused_item_is_counted_updated_witness :
  let w0 := Fixture.start (E:=Fixture.strict) [] empty_database in
  let w' := process_items (E:=Fixture.strict) process_amendment
              [Sample.unnumbered] w0 in
  self_stats w' = count_updated (self_stats w0)
  /\ tables (db w') = tables (db w0)
  /\ requested w' = requested w0.
Proof.
  intros w0.
  apply (proj1 (proj2 (refused_item_is_counted_updated (E:=Fixture.strict)
                         Sample.unnumbered
                         (Fixture.params_of
                            (amendment_entries Sample.unnumbered))
                         (DatabaseFailure
                            "null value violates not-null constraint")
                         w0))).
  - reflexivity.
  - reflexivity.
Defined.
